(** * Metrics SDK core: view compilation, aggregation pipelines, observer scoping

    A shallow embedding of
      - sdk/metric/internal/viewstate/viewstate.go  (the view compiler and the
        four collection processes),
      - sdk/metric/internal/asyncstate/async.go     (observers and callbacks),
      - sdk/metric/asyncinst.go                     (asynchronous instruments),
      - sdk/metric/number                           (number kinds).

    Go pointers to storage cells are locations of an explicit heap, Go maps
    are [gmap]s, a nil interface or nil pointer is [None], a run-time panic is
    the [Panic] result, and the global error handler [otel.Handle] is a log of
    messages.  Mutexes do not appear: every operation of the model is one
    atomic state transformer, which is what the locks provide. *)

From stdpp Require Import gmap strings list fin_maps.
From Stdlib Require Import ZArith Lia.

(** ** Go values *)

(** The zero value of a Go type, as [new(T)] and [&T{}] produce it. *)
Class ZeroValue (A : Type) := zero_value : A.

(** The outcome of Go code that can panic. *)
Inductive Result (A : Type) :=
| Ok (a : A)
| Panic (msg : string).
Arguments Ok {A} a.
Arguments Panic {A} msg.

Definition bind {A B : Type} (m : Result A) (k : A → Result B) : Result B :=
  match m with
  | Ok a => k a
  | Panic msg => Panic msg
  end.

(** ** Storage heap: [*Storage] pointers *)

Definition loc := nat.

Definition load {A : Type} `{!ZeroValue A} (h : list A) (l : loc) : A :=
  default zero_value (h !! l).

Definition store {A : Type} (h : list A) (l : loc) (a : A) : list A :=
  <[l := a]> h.

(** [new(T)]: a fresh zero-valued cell. *)
Definition new {A : Type} `{!ZeroValue A} (h : list A) : loc * list A :=
  (length h, h ++ [zero_value]).

(** ** package number *)

Module number.

Inductive Kind := Int64Kind | Float64Kind.

#[global] Instance Kind_eq_dec : EqDecision Kind.
Proof. solve_decision. Defined.

(** [type Any interface { int64 | float64 }]; the literal [0] of the type. *)
Class Any (N : Type) := { zero : N }.

(** int64 arithmetic on Z, with its wrap-around. *)
Definition wrap64 (z : Z) : Z := ((z + 2 ^ 63) mod 2 ^ 64 - 2 ^ 63)%Z.

End number.

(** ** package sdkinstrument (named sdkapi in viewstate.go) *)

Module sdkinstrument.

Inductive Kind :=
| CounterKind
| UpDownCounterKind
| HistogramKind
| CounterObserverKind
| UpDownCounterObserverKind
| GaugeObserverKind.

#[global] Instance Kind_eq_dec : EqDecision Kind.
Proof. solve_decision. Defined.

(** Modelled from the spec: [Kind.Synchronous], whose code is outside src/:
    a descriptor is synchronous iff its kind is one of the first three. *)
Definition Synchronous (k : Kind) : bool :=
  match k with
  | CounterKind | UpDownCounterKind | HistogramKind => true
  | _ => false
  end.

(** Modelled from the spec: [Kind.HasTemporality], whose code is outside
    src/: every kind but the gauge has temporality. *)
Definition HasTemporality (k : Kind) : bool :=
  match k with
  | GaugeObserverKind => false
  | _ => true
  end.

Record Descriptor := NewDescriptor {
  Name : string;
  InstrumentKind : Kind;
  NumberKind : number.Kind;
  Description : string;
  Unit : string
}.

End sdkinstrument.

(** ** package aggregation *)

Module aggregation.

Inductive Kind :=
| UndefinedKind
| DropKind
| SumKind
| LastValueKind
| HistogramKind.

#[global] Instance Kind_eq_dec : EqDecision Kind.
Proof. solve_decision. Defined.

Inductive Temporality := CumulativeTemporality | DeltaTemporality.

#[global] Instance Temporality_eq_dec : EqDecision Temporality.
Proof. solve_decision. Defined.

End aggregation.

(** ** package attribute: an interface, its code is outside src/ *)

Module attribute.

Class Model := {
  KeyValue : Type;
  (** [attribute.Set]: a comparable value, usable as a map key. *)
  Set_ : Type;
  Set_eq_dec : EqDecision Set_;
  Set_countable : Countable Set_;
  NewSet : list KeyValue → Set_;
  (** The filter is a Go func value; [None] is the nil filter. *)
  NewSetWithFiltered : list KeyValue → option (KeyValue → bool) → Set_
}.

#[global] Existing Instance Set_eq_dec.
#[global] Existing Instance Set_countable.

Definition Filter `{!Model} : Type := option (KeyValue → bool).

End attribute.

(** ** package instrumentation *)

Module instrumentation.

Record Library := {
  Name : string;
  Version : string;
  SchemaURL : string
}.

End instrumentation.

(** ** package aggregator/histogram: an interface, its code is outside src/ *)

Module histogram.

Inductive Defaults := Int64Defaults | Float64Defaults.

Class Model := {
  Config : Type;
  Config_zero : Config;
  Option : Type;
  NewConfig : Defaults → list Option → Config
}.

#[global] Instance Config_ZeroValue `{!Model} : ZeroValue Config := Config_zero.

End histogram.

(** ** package aggregator *)

Module aggregator.

Record Config `{!histogram.Model} := {
  Histogram : histogram.Config
}.

#[global] Instance Config_zero `{!histogram.Model} : ZeroValue Config :=
  {| Histogram := zero_value |}.

(** Modelled from the spec: the [aggregator.Methods] interface, whose code is
    outside src/.  Every method works in place on the storages its pointer
    arguments name; the model gives the new contents of the storages a
    method may write.
      - [Init s cfg]: the contents after [Init(ptr, cfg)].
      - [Update s v]: the contents after [Update(ptr, v)].
      - [SynchronizedMove a b]: the contents of both storages after
        [SynchronizedMove(&a, &b)].
      - [Reset s]: the contents after [Reset(ptr)].
      - [Merge a b]: the contents of both storages after [Merge(&a, &b)];
        which of the two is the destination is the kernel's business.
      - [SubtractSwap storage pval]: the contents of [*pval] after
        [SubtractSwap(storage, pval)]; viewstate.go documents the call as
        [*pval := *storage - *pval], so [*storage] is not written.
      - [HasData s]: has the state changed from Init? *)
Class Methods (N Storage : Type) `{!histogram.Model} := {
  Init : Storage → Config → Storage;
  Update : Storage → N → Storage;
  SynchronizedMove : Storage → Storage → Storage * Storage;
  Reset : Storage → Storage;
  Merge : Storage → Storage → Storage * Storage;
  SubtractSwap : Storage → Storage → Storage;
  HasData : Storage → bool
}.

(** [aggregator.RangeTest]: [None] is the nil error. *)
Class Range (N : Type) := {
  RangeTest : N → sdkinstrument.Descriptor → option string
}.

End aggregator.

(** ** package reader *)

Module reader.

(** [*reader.Reader] ([*reader.Config] in async.go): the address [ptr] is the
    reader's identity as a map key. *)
Record Reader := {
  ptr : nat;
  Defaults : sdkinstrument.Kind → aggregation.Kind * aggregation.Temporality
}.

Record Sequence := {
  Start : Z;
  Last : Z;
  Now : Z
}.

(** [Aggregation] is a direct reference to a storage cell. *)
Record Series `{!attribute.Model} := {
  Attributes : attribute.Set_;
  Aggregation : loc;
  Series_Start : Z;
  Series_End : Z
}.

(** [reader.Instrument{Instrument, Temporality, Series}]. *)
Record Instrument `{!attribute.Model} := {
  Instrument_Descriptor : sdkinstrument.Descriptor;
  Temporality : aggregation.Temporality;
  Instrument_Series : list Series
}.

End reader.

(** ** package views: an interface, given by what its methods return *)

Module views.

Record View `{!attribute.Model} `{!histogram.Model} := {
  Matches : instrumentation.Library → sdkinstrument.Descriptor → bool;
  Aggregation : aggregation.Kind;
  HistogramOptions : list histogram.Option;
  HasName : bool;
  Name : string;
  Description : string;
  Keys : attribute.Filter
}.

End views.

(** ** package viewstate *)

Module viewstate.

Section Types.
Context `{!attribute.Model} `{!histogram.Model}.

Record configuredBehavior := {
  config_desc : sdkinstrument.Descriptor;
  config_kind : aggregation.Kind;
  config_keys : attribute.Filter;
  config_acfg : aggregator.Config;
  config_reader : reader.Reader
}.

(** [data] maps an attribute set to the pointer of its storage cell. *)
Record baseMetric := {
  desc : sdkinstrument.Descriptor;
  acfg : aggregator.Config;
  data : gmap attribute.Set_ loc;
  keys : attribute.Filter
}.

(** [statefulAsyncProcess]: the embedded [compiledAsyncInstrument], which is
    a [baseMetric], and the [prior] map. *)
Record statefulAsyncProcess := {
  compiledAsyncInstrument : baseMetric;
  prior : gmap attribute.Set_ loc
}.

(** The four processes; the three without a field of their own are their
    embedded [baseMetric]. *)
Inductive Process :=
| StatelessSync (p : baseMetric)
| StatefulSync (p : baseMetric)
| StatelessAsync (p : baseMetric)
| StatefulAsync (p : statefulAsyncProcess).

(** The [Storage] and [Methods] type arguments of a view. *)
Inductive Kernel := lastvalue_State | histogram_State | sum_State.

(** What [buildView] returns: a process instantiated at a number type and a
    kernel. *)
Record View := {
  view_number : number.Kind;
  view_kernel : Kernel;
  view_process : Process
}.

(** [viewstate.Instrument]: one view, or the [multiInstrument] map keyed by
    the reader's pointer.  The nil Instrument is [None]. *)
Inductive Instrument :=
| single (one : View)
| multiInstrument (n : number.Kind) (mi : gmap nat (list View)).

Record Compiler := {
  library : instrumentation.Library;
  views : list views.View;
  readers : list reader.Reader;
  names : list (gset string)
}.

End Types.

(** *** The view compiler *)

Section Compile.
Context `{!attribute.Model} `{!histogram.Model}.

Definition New (lib : instrumentation.Library) (views : list views.View)
    (readers : list reader.Reader) : Compiler :=
  {| library := lib;
     views := views;
     readers := readers;
     names := (λ _, ∅) <$> readers |}.

Definition aggregatorConfigFor (desc : sdkinstrument.Descriptor)
    (defaults : sdkinstrument.Kind → aggregation.Kind * aggregation.Temporality)
    : aggregation.Kind :=
  fst (defaults (sdkinstrument.InstrumentKind desc)).

Definition viewDescriptor (instrument : sdkinstrument.Descriptor)
    (v : views.View) : sdkinstrument.Descriptor :=
  let ikind := sdkinstrument.InstrumentKind instrument in
  let nkind := sdkinstrument.NumberKind instrument in
  let name := sdkinstrument.Name instrument in
  let description := sdkinstrument.Description instrument in
  let unit := sdkinstrument.Unit instrument in
  let name := if views.HasName v then views.Name v else name in
  let description :=
    if decide (views.Description v ≠ "")
    then sdkinstrument.Description instrument
    else description in
  sdkinstrument.NewDescriptor name ikind nkind description unit.

Definition histogramDefaultsFor (kind : number.Kind) : histogram.Defaults :=
  if decide (kind = number.Int64Kind)
  then histogram.Int64Defaults
  else histogram.Float64Defaults.

Definition newSyncView (config : configuredBehavior) : Process :=
  let tempo :=
    snd (reader.Defaults (config_reader config)
           (sdkinstrument.InstrumentKind (config_desc config))) in
  let metric :=
    {| desc := config_desc config;
       acfg := config_acfg config;
       data := ∅;
       keys := config_keys config |} in
  if decide (tempo = aggregation.DeltaTemporality)
  then StatelessSync metric
  else StatefulSync metric.

Definition newAsyncView (config : configuredBehavior) : Process :=
  let tempo :=
    snd (reader.Defaults (config_reader config)
           (sdkinstrument.InstrumentKind (config_desc config))) in
  let metric :=
    {| desc := config_desc config;
       acfg := config_acfg config;
       data := ∅;
       keys := config_keys config |} in
  if decide (tempo = aggregation.DeltaTemporality)
  then StatefulAsync {| compiledAsyncInstrument := metric; prior := ∅ |}
  else StatelessAsync metric.

Definition compileSync (n : number.Kind) (config : configuredBehavior) : View :=
  match config_kind config with
  | aggregation.LastValueKind =>
      {| view_number := n; view_kernel := lastvalue_State;
         view_process := newSyncView config |}
  | aggregation.HistogramKind =>
      {| view_number := n; view_kernel := histogram_State;
         view_process := newSyncView config |}
  | _ =>
      {| view_number := n; view_kernel := sum_State;
         view_process := newSyncView config |}
  end.

Definition compileAsync (n : number.Kind) (config : configuredBehavior) : View :=
  match config_kind config with
  | aggregation.LastValueKind =>
      {| view_number := n; view_kernel := lastvalue_State;
         view_process := newAsyncView config |}
  | aggregation.HistogramKind =>
      {| view_number := n; view_kernel := histogram_State;
         view_process := newAsyncView config |}
  | _ =>
      {| view_number := n; view_kernel := sum_State;
         view_process := newAsyncView config |}
  end.

Definition buildView (n : number.Kind) (config : configuredBehavior) : View :=
  if sdkinstrument.Synchronous
       (sdkinstrument.InstrumentKind (config_desc config))
  then compileSync n config
  else compileAsync n config.

(** The body of the loop over the matched views (lines 161-190): the
    configured behavior of one view for one reader, [None] when the loop
    continues without appending. *)
Definition viewBehavior (instrument : sdkinstrument.Descriptor)
    (r : reader.Reader) (view : views.View) : option configuredBehavior :=
  let '(kind, acfg) :=
    match views.Aggregation view with
    | aggregation.SumKind | aggregation.LastValueKind =>
        (views.Aggregation view, zero_value)
    | aggregation.HistogramKind =>
        (views.Aggregation view,
         {| aggregator.Histogram :=
              histogram.NewConfig
                (histogramDefaultsFor (sdkinstrument.NumberKind instrument))
                (views.HistogramOptions view) |})
    | _ => (aggregatorConfigFor instrument (reader.Defaults r), zero_value)
    end in
  if decide (kind = aggregation.DropKind) then None
  else Some {| config_desc := viewDescriptor instrument view;
               config_keys := views.Keys view;
               config_kind := kind;
               config_acfg := acfg;
               config_reader := r |}.

(** The default aggregation of a reader when no view matched (lines
    193-204). *)
Definition defaultBehavior (instrument : sdkinstrument.Descriptor)
    (r : reader.Reader) : list configuredBehavior :=
  let kind := aggregatorConfigFor instrument (reader.Defaults r) in
  if decide (kind = aggregation.DropKind) then []
  else [ {| config_desc := instrument;
            config_kind := kind;
            config_keys := None;
            config_acfg := zero_value;
            config_reader := r |} ].

(** [configs[readerIdx]] after the first loop over the readers. *)
Definition readerConfigs (instrument : sdkinstrument.Descriptor)
    (matches : list views.View) (r : reader.Reader) : list configuredBehavior :=
  omap (viewBehavior instrument r) matches
  ++ (if decide (length matches = 0) then defaultBehavior instrument r else []).

(** The state of the second loop: [v.names], the local [compiled] map and the
    errors passed to [otel.Handle]. *)
Record compileState := {
  cs_names : list (gset string);
  cs_compiled : gmap nat (list View);
  cs_errors : list string
}.

(** The error of line 217. *)
Definition duplicateViewName : string := "duplicate view name registered".

(** The switch on the number kind (lines 222-228). *)
Definition buildViewFor (config : configuredBehavior) : View :=
  match sdkinstrument.NumberKind (config_desc config) with
  | number.Int64Kind => buildView number.Int64Kind config
  | number.Float64Kind => buildView number.Float64Kind config
  end.

(** The body of the loop over one reader's configured behaviors (lines
    215-231).  [v.names] has one entry per reader, so the index is in range. *)
Definition compileConfig (readerIdx : nat) (r : reader.Reader)
    (st : compileState) (config : configuredBehavior) : compileState :=
  let name := sdkinstrument.Name (config_desc config) in
  let registered := default ∅ (cs_names st !! readerIdx) in
  if decide (name ∈ registered)
  then {| cs_names := cs_names st;
          cs_compiled := cs_compiled st;
          cs_errors := cs_errors st ++ [duplicateViewName] |}
  else
    let one := buildViewFor config in
    {| cs_names := <[readerIdx := {[name]} ∪ registered]> (cs_names st);
       cs_compiled :=
         <[reader.ptr r :=
             default [] (cs_compiled st !! reader.ptr r) ++ [one]]>
           (cs_compiled st);
       cs_errors := cs_errors st |}.

(** The loop over [configs] (lines 212-232), from index [readerIdx] on;
    [configs] has one entry per reader, so [v.readers[readerIdx]] exists. *)
Fixpoint compileReaders (readers : list reader.Reader) (readerIdx : nat)
    (configs : list (list configuredBehavior)) (st : compileState)
    : compileState :=
  match configs with
  | [] => st
  | readerList :: rest =>
      match readers !! readerIdx with
      | Some r =>
          compileReaders readers (S readerIdx) rest
            (foldl (compileConfig readerIdx r) st readerList)
      | None => st
      end
  end.

(** The final switch (lines 234-250). *)
Definition wrap (instrument : sdkinstrument.Descriptor)
    (compiled : gmap nat (list View)) : option Instrument :=
  let multi :=
    if decide (sdkinstrument.NumberKind instrument = number.Int64Kind)
    then multiInstrument number.Int64Kind compiled
    else multiInstrument number.Float64Kind compiled in
  match size compiled with
  | 0 => None
  | 1 =>
      match map_to_list compiled with
      | [(_, [one])] => Some (single one)
      | _ => Some multi
      end
  | _ => Some multi
  end.

Definition matching (v : Compiler) (instrument : sdkinstrument.Descriptor)
    : list views.View :=
  List.filter (λ view, views.Matches view (library v) instrument) (views v).

Definition configsFor (v : Compiler) (instrument : sdkinstrument.Descriptor)
    : list (list configuredBehavior) :=
  readerConfigs instrument (matching v instrument) <$> readers v.

(** The state of the second loop when it ends. *)
Definition compileViews (v : Compiler) (instrument : sdkinstrument.Descriptor)
    : compileState :=
  compileReaders (readers v) 0 (configsFor v instrument)
    {| cs_names := names v; cs_compiled := ∅; cs_errors := [] |}.

(** [Compile] returns the compiled instrument; the model also returns the
    compiler with its updated [names] and the errors handled on the way. *)
Definition Compile (v : Compiler) (instrument : sdkinstrument.Descriptor)
    : option Instrument * Compiler * list string :=
  let st := compileViews v instrument in
  (wrap instrument (cs_compiled st),
   {| library := library v;
      views := views v;
      readers := readers v;
      names := cs_names st |},
   cs_errors st).

(** The compiler after compiling the instruments of a list, one by one. *)
Definition compileAll (v : Compiler) (instruments : list sdkinstrument.Descriptor)
    : Compiler :=
  foldl (λ v instrument, snd (fst (Compile v instrument))) v instruments.

(** The name a configured behavior emits, and the name of a view. *)
Definition behaviorName (config : configuredBehavior) : string :=
  sdkinstrument.Name (config_desc config).

Definition processMetric (p : Process) : baseMetric :=
  match p with
  | StatelessSync m | StatefulSync m | StatelessAsync m => m
  | StatefulAsync p => compiledAsyncInstrument p
  end.

Definition viewName (one : View) : string :=
  sdkinstrument.Name (desc (processMetric (view_process one))).

(** The behaviors of a list that come first under their name, the names
    of [registered] apart: the behaviors a reader gets a view for. *)
Fixpoint firsts (registered : gset string) (configs : list configuredBehavior)
    : list configuredBehavior :=
  match configs with
  | [] => []
  | config :: rest =>
      if decide (behaviorName config ∈ registered)
      then firsts registered rest
      else config :: firsts ({[behaviorName config]} ∪ registered) rest
  end.

Definition namesOf (configs : list configuredBehavior) : gset string :=
  list_to_set (behaviorName <$> configs).

(** The views built for the reader at the pointer [ρ], reader position by
    reader position from [readerIdx] on, each position with the names
    [names] registered for it. *)
Fixpoint builtFor (readers : list reader.Reader) (names : list (gset string))
    (ρ : nat) (readerIdx : nat) (configs : list (list configuredBehavior))
    : list View :=
  match configs with
  | [] => []
  | readerList :: rest =>
      (if decide (reader.ptr <$> readers !! readerIdx = Some ρ)
       then buildViewFor <$> firsts (default ∅ (names !! readerIdx)) readerList
       else [])
      ++ builtFor readers names ρ (S readerIdx) rest
  end.

(** The number of behaviors that get no view, from [readerIdx] on. *)
Fixpoint duplicatesFrom (names : list (gset string)) (readerIdx : nat)
    (configs : list (list configuredBehavior)) : nat :=
  match configs with
  | [] => 0
  | readerList :: rest =>
      (length readerList
       - length (firsts (default ∅ (names !! readerIdx)) readerList))
      + duplicatesFrom names (S readerIdx) rest
  end.

(** All the views of a compiled instrument. *)
Definition viewsOf (i : option Instrument) : list View :=
  match i with
  | None => []
  | Some (single one) => [one]
  | Some (multiInstrument _ mi) => concat (snd <$> map_to_list mi)
  end.

(** What the second loop of [Compile] has done from the reader position
    [readerIdx] on, from the state [st] to the state [st']: every position
    has registered the names of its behaviors, the views of a reader are
    those of the first behaviors of its positions, and every other behavior
    has reported one error. *)
Record compiled_from (readers : list reader.Reader) (readerIdx : nat)
    (configs : list (list configuredBehavior))
    (st st' : compileState) : Prop := {
  compiled_length : length (cs_names st') = length (cs_names st);
  compiled_before : ∀ j,
    j < readerIdx → cs_names st' !! j = cs_names st !! j;
  compiled_names : ∀ k readerList,
    configs !! k = Some readerList →
    cs_names st' !! (readerIdx + k)
    = Some (namesOf readerList ∪ default ∅ (cs_names st !! (readerIdx + k)));
  compiled_views : ∀ ρ,
    default [] (cs_compiled st' !! ρ)
    = default [] (cs_compiled st !! ρ)
      ++ builtFor readers (cs_names st) ρ readerIdx configs;
  compiled_errors :
    cs_errors st'
    = cs_errors st
      ++ replicate (duplicatesFrom (cs_names st) readerIdx configs)
           duplicateViewName
}.

End Compile.

(** *** Accumulators and the collection processes *)

Section Runtime.
Context `{!attribute.Model} `{!histogram.Model}.
Context {N Storage : Type} `{!ZeroValue Storage} `{!number.Any N}.
Context `{!aggregator.Methods N Storage}.

Record syncAccumulator := {
  sc_current : Storage;
  sc_snapshot : Storage;
  sc_output : loc
}.

Record asyncAccumulator := {
  ac_current : N;
  ac_snapshot : Storage;
  ac_output : loc
}.

(** [initStorage], on the contents of the storage [s] points to. *)
Definition initStorage (metric : baseMetric) (s : Storage) : Storage :=
  aggregator.Init s (acfg metric).

Definition newStorage (metric : baseMetric) (h : list Storage)
    : loc * list Storage :=
  let '(ns, h) := new h in
  (ns, store h ns (initStorage metric (load h ns))).

Definition findOutput (metric : baseMetric) (h : list Storage)
    (kvs : list attribute.KeyValue) : loc * baseMetric * list Storage :=
  let set := attribute.NewSetWithFiltered kvs (keys metric) in
  match data metric !! set with
  | Some storage => (storage, metric, h)
  | None =>
      let '(ns, h) := newStorage metric h in
      (ns,
       {| desc := desc metric;
          acfg := acfg metric;
          data := <[set := ns]> (data metric);
          keys := keys metric |},
       h)
  end.

(** [compiledSyncInstrument.NewAccumulator] *)
Definition NewAccumulator_sync (csv : baseMetric) (h : list Storage)
    (kvs : list attribute.KeyValue)
    : syncAccumulator * baseMetric * list Storage :=
  let current := initStorage csv zero_value in
  let snapshot := initStorage csv zero_value in
  let '(output, csv, h) := findOutput csv h kvs in
  ({| sc_current := current; sc_snapshot := snapshot; sc_output := output |},
   csv, h).

(** [compiledAsyncInstrument.NewAccumulator] *)
Definition NewAccumulator_async (cav : baseMetric) (h : list Storage)
    (kvs : list attribute.KeyValue)
    : asyncAccumulator * baseMetric * list Storage :=
  let snapshot := initStorage cav zero_value in
  let '(output, cav, h) := findOutput cav h kvs in
  ({| ac_current := number.zero; ac_snapshot := snapshot; ac_output := output |},
   cav, h).

(** [syncAccumulator.Update] *)
Definition Update_sync (sc : syncAccumulator) (number : N) : syncAccumulator :=
  {| sc_current := aggregator.Update (sc_current sc) number;
     sc_snapshot := sc_snapshot sc;
     sc_output := sc_output sc |}.

(** [syncAccumulator.Accumulate] *)
Definition Accumulate_sync (sc : syncAccumulator) (h : list Storage)
    : syncAccumulator * list Storage :=
  let '(current, snapshot) :=
    aggregator.SynchronizedMove (sc_current sc) (sc_snapshot sc) in
  let '(snapshot, output) :=
    aggregator.Merge snapshot (load h (sc_output sc)) in
  ({| sc_current := current; sc_snapshot := snapshot;
      sc_output := sc_output sc |},
   store h (sc_output sc) output).

(** [asyncAccumulator.Update] *)
Definition Update_async (ac : asyncAccumulator) (number : N)
    : asyncAccumulator :=
  {| ac_current := number;
     ac_snapshot := ac_snapshot ac;
     ac_output := ac_output ac |}.

(** [asyncAccumulator.Accumulate] *)
Definition Accumulate_async (ac : asyncAccumulator) (h : list Storage)
    : asyncAccumulator * list Storage :=
  let snapshot := aggregator.Reset (ac_snapshot ac) in
  let snapshot := aggregator.Update snapshot (ac_current ac) in
  let '(snapshot, output) :=
    aggregator.Merge snapshot (load h (ac_output ac)) in
  ({| ac_current := ac_current ac; ac_snapshot := snapshot;
      ac_output := ac_output ac |},
   store h (ac_output ac) output).

Definition with_data (metric : baseMetric) (d : gmap attribute.Set_ loc)
    : baseMetric :=
  {| desc := desc metric;
     acfg := acfg metric;
     data := d;
     keys := keys metric |}.

(** What a reader sees in a series: the contents of the cell it refers to. *)
Definition series_value (h : list Storage) (s : reader.Series) : Storage :=
  load h (reader.Aggregation s).

(** [statefulSyncProcess.Collect]: the body of the loop over [p.data]. *)
Definition statefulSync_step (seq : reader.Sequence)
    (series : list reader.Series) (e : attribute.Set_ * loc)
    : list reader.Series :=
  let '(set, storage) := e in
  series ++ [ {| reader.Attributes := set;
                 reader.Aggregation := storage;
                 reader.Series_Start := reader.Last seq;
                 reader.Series_End := reader.Now seq |} ].

(** [statelessSyncProcess.Collect]: the body of the loop over [p.data]
    (lines 553-571), on the map, the heap and [ioutput.Series]. *)
Definition statelessSync_step (p : baseMetric) (seq : reader.Sequence)
    (st : gmap attribute.Set_ loc * list Storage * list reader.Series)
    (e : attribute.Set_ * loc)
    : gmap attribute.Set_ loc * list Storage * list reader.Series :=
  let '(d, h, series) := st in
  let '(set, storage) := e in
  if negb (aggregator.HasData (load h storage))
  then (delete set d, h, series)
  else
    let '(ns, h) := newStorage p h in
    let '(ns_new, storage_new) :=
      aggregator.Merge (load h ns) (load h storage) in
    let h := store (store h ns ns_new) storage storage_new in
    let h := store h storage (aggregator.Reset (load h storage)) in
    (d, h,
     series ++ [ {| reader.Attributes := set;
                    reader.Aggregation := ns;
                    reader.Series_Start := reader.Last seq;
                    reader.Series_End := reader.Now seq |} ]).

(** [statelessAsyncProcess.Collect]: the body of the loop over [p.data]. *)
Definition statelessAsync_step (seq : reader.Sequence)
    (series : list reader.Series) (e : attribute.Set_ * loc)
    : list reader.Series :=
  let '(set, storage) := e in
  series ++ [ {| reader.Attributes := set;
                 reader.Aggregation := storage;
                 reader.Series_Start := reader.Start seq;
                 reader.Series_End := reader.Now seq |} ].

(** [statefulAsyncProcess.Collect]: the body of the loop over [p.data]
    (lines 613-637), on the heap and [ioutput.Series]. *)
Definition statefulAsync_step (p : statefulAsyncProcess)
    (seq : reader.Sequence) (st : list Storage * list reader.Series)
    (e : attribute.Set_ * loc) : list Storage * list reader.Series :=
  let '(h, series) := st in
  let '(set, storage) := e in
  let emit (storage : loc) :=
    series ++ [ {| reader.Attributes := set;
                   reader.Aggregation := storage;
                   reader.Series_Start := reader.Start seq;
                   reader.Series_End := reader.Now seq |} ] in
  match prior p !! set with
  | Some pval =>
      let h := store h pval
                 (aggregator.SubtractSwap (load h storage) (load h pval)) in
      if negb (aggregator.HasData (load h pval)) then (h, series)
      else if sdkinstrument.HasTemporality
                (sdkinstrument.InstrumentKind
                   (desc (compiledAsyncInstrument p)))
      then (h, emit pval)
      else (h, emit storage)
  | None => (h, emit storage)
  end.

(** Go ranges over a map in an order it does not specify: each Collect is
    given the order [order] in which the entries of [p.data] are visited, a
    permutation of [map_to_list (data p)]; the function without [_in] takes
    the order of [map_to_list]. *)

Definition statefulSyncProcess_Collect_in
    (order : list (attribute.Set_ * loc)) (p : baseMetric)
    (seq : reader.Sequence) (output : list reader.Instrument)
    : list reader.Instrument :=
  output ++ [ {| reader.Instrument_Descriptor := desc p;
                 reader.Temporality := aggregation.CumulativeTemporality;
                 reader.Instrument_Series :=
                   foldl (statefulSync_step seq) [] order |} ].

Definition statelessSyncProcess_Collect_in
    (order : list (attribute.Set_ * loc)) (p : baseMetric)
    (h : list Storage) (seq : reader.Sequence)
    (output : list reader.Instrument)
    : baseMetric * list Storage * list reader.Instrument :=
  let '(d, h, series) := foldl (statelessSync_step p seq) (data p, h, []) order in
  (with_data p d, h,
   output ++ [ {| reader.Instrument_Descriptor := desc p;
                  reader.Temporality := aggregation.DeltaTemporality;
                  reader.Instrument_Series := series |} ]).

Definition statelessAsyncProcess_Collect_in
    (order : list (attribute.Set_ * loc)) (p : baseMetric)
    (seq : reader.Sequence) (output : list reader.Instrument)
    : baseMetric * list reader.Instrument :=
  (with_data p ∅,
   output ++ [ {| reader.Instrument_Descriptor := desc p;
                  reader.Temporality := aggregation.CumulativeTemporality;
                  reader.Instrument_Series :=
                    foldl (statelessAsync_step seq) [] order |} ]).

Definition statefulAsyncProcess_Collect_in
    (order : list (attribute.Set_ * loc)) (p : statefulAsyncProcess)
    (h : list Storage) (seq : reader.Sequence)
    (output : list reader.Instrument)
    : statefulAsyncProcess * list Storage * list reader.Instrument :=
  let '(h, series) := foldl (statefulAsync_step p seq) (h, []) order in
  ({| compiledAsyncInstrument := with_data (compiledAsyncInstrument p) ∅;
      prior := data (compiledAsyncInstrument p) |},
   h,
   output ++ [ {| reader.Instrument_Descriptor :=
                    desc (compiledAsyncInstrument p);
                  reader.Temporality := aggregation.DeltaTemporality;
                  reader.Instrument_Series := series |} ]).

Definition statelessSyncProcess_Collect (p : baseMetric) (h : list Storage)
    (seq : reader.Sequence) (output : list reader.Instrument) :=
  statelessSyncProcess_Collect_in (map_to_list (data p)) p h seq output.

Definition statefulAsyncProcess_Collect (p : statefulAsyncProcess)
    (h : list Storage) (seq : reader.Sequence)
    (output : list reader.Instrument) :=
  statefulAsyncProcess_Collect_in
    (map_to_list (data (compiledAsyncInstrument p))) p h seq output.

(** The contents of the storage [newStorage] returns. *)
Definition fresh_storage (p : baseMetric) : Storage :=
  initStorage p zero_value.

(** What one turn of the loop of [statelessSyncProcess.Collect] leaves in the
    fresh storage [ns] and in the cell, for a cell with the contents [s]:
    the two sides of [Merge(ns, storage)], the second one after [Reset]. *)
Definition statelessSync_emitted (p : baseMetric) (s : Storage) : Storage :=
  fst (aggregator.Merge (fresh_storage p) s).

Definition statelessSync_left (p : baseMetric) (s : Storage) : Storage :=
  aggregator.Reset (snd (aggregator.Merge (fresh_storage p) s)).

(** The storage cells a map points to. *)
Definition cells (d : gmap attribute.Set_ loc) : list loc :=
  (map_to_list d).*2.

(** The pointers of a map are sound on a heap: every cell is allocated and
    no two attribute sets share a cell.  [findOutput] allocates a fresh cell
    for every new attribute set, so the maps it builds are sound. *)
Definition cells_sound (d : gmap attribute.Set_ loc) (h : list Storage) : Prop :=
  Forall (λ l, l < length h) (cells d) ∧ NoDup (cells d).

Definition sync_sound (p : baseMetric) (h : list Storage) : Prop :=
  cells_sound (data p) h.

(** For a stateful asynchronous process, moreover, no cell of [prior] is a
    cell of [data]: [data] is a new map after every Collect. *)
Definition async_sound (p : statefulAsyncProcess) (h : list Storage) : Prop :=
  cells_sound (data (compiledAsyncInstrument p)) h
  ∧ cells_sound (prior p) h
  ∧ Forall (λ l, l ∉ cells (prior p)) (cells (data (compiledAsyncInstrument p))).

(** What [statefulAsyncProcess.Collect] appends for one entry of [p.data],
    read on the heap [h] the collection starts from. *)
Definition statefulAsync_series (p : statefulAsyncProcess)
    (seq : reader.Sequence) (h : list Storage) (e : attribute.Set_ * loc)
    : option reader.Series :=
  let series (storage : loc) :=
    {| reader.Attributes := fst e;
       reader.Aggregation := storage;
       reader.Series_Start := reader.Start seq;
       reader.Series_End := reader.Now seq |} in
  match prior p !! fst e with
  | Some pval =>
      if aggregator.HasData
           (aggregator.SubtractSwap (load h (snd e)) (load h pval))
      then Some (series (if sdkinstrument.HasTemporality
                              (sdkinstrument.InstrumentKind
                                 (desc (compiledAsyncInstrument p)))
                         then pval else snd e))
      else None
  | None => Some (series (snd e))
  end.

(** What the loop of [statelessSyncProcess.Collect] has done once it has
    visited the entries [es], from the map [d] and the heap [h] to the map
    [d'], the heap [h'] and the series [series]. *)
Record statelessSync_visited (p : baseMetric) (seq : reader.Sequence)
    (d : gmap attribute.Set_ loc) (h : list Storage)
    (es : list (attribute.Set_ * loc))
    (d' : gmap attribute.Set_ loc) (h' : list Storage)
    (series : list reader.Series) : Prop := {
  visited_length : length h ≤ length h';
  visited_others : ∀ set, set ∉ es.*1 → d' !! set = d !! set;
  visited_frame : ∀ l, l < length h → l ∉ es.*2 → load h' l = load h l;
  visited_empty : ∀ set l,
    (set, l) ∈ es → aggregator.HasData (load h l) = false →
    d' !! set = None;
  visited_data : ∀ set l,
    (set, l) ∈ es → aggregator.HasData (load h l) = true →
    d' !! set = d !! set
    ∧ load h' l = statelessSync_left p (load h l)
    ∧ ∃ s, s ∈ series ∧ reader.Attributes s = set;
  visited_series : ∀ s, s ∈ series →
    ∃ l, (reader.Attributes s, l) ∈ es
         ∧ aggregator.HasData (load h l) = true
         ∧ length h ≤ reader.Aggregation s < length h'
         ∧ load h' (reader.Aggregation s)
           = statelessSync_emitted p (load h l)
         ∧ reader.Series_Start s = reader.Last seq
         ∧ reader.Series_End s = reader.Now seq
}.

(** What the loop of [statefulAsyncProcess.Collect] has done to the heap
    once it has visited the entries [es]. *)
Record statefulAsync_visited (p : statefulAsyncProcess) (h : list Storage)
    (es : list (attribute.Set_ * loc)) (h' : list Storage) : Prop := {
  async_length : length h' = length h;
  async_frame : ∀ l,
    (∀ set, set ∈ es.*1 → prior p !! set ≠ Some l) →
    load h' l = load h l;
  async_difference : ∀ set l pval,
    (set, l) ∈ es → prior p !! set = Some pval →
    load h' pval = aggregator.SubtractSwap (load h l) (load h pval)
}.

End Runtime.

Arguments syncAccumulator Storage : clear implicits.
Arguments asyncAccumulator N Storage : clear implicits.

End viewstate.

(** ** package asyncstate *)

Module asyncstate.

(** What async.go uses of package viewstate: the [viewstate.Instrument]
    interface value [I] with its [NewAccumulator] method, and the
    [viewstate.AccumulatorUpdater] it returns, a reference [A] into the state
    [W] of the compiled views. *)
Class Views (I A W N : Type) `{!attribute.Model} := {
  NewAccumulator : I → attribute.Set_ → nat → W → A * W;
  Update : A → N → W → W
}.

Section Observers.
Context `{!attribute.Model} {I A W N : Type}.
Context `{!Views I A W N} `{!aggregator.Range N}.

(** [*Instrument]: [addr] is the pointer, [compiled] is [None] for the nil
    interface.  The [state] map of the instrument at [addr], with the store
    of each [*readerState] it points to, is the part of [stores] below whose
    keys start with [addr]. *)
Record Instrument := {
  addr : nat;
  descriptor : sdkinstrument.Descriptor;
  compiled : option I
}.

Record World := {
  views_state : W;
  (** [(inst, r) ↦ inst.state[r].store], readers by their pointer *)
  stores : gmap (nat * nat) (gmap attribute.Set_ A);
  (** the errors passed to [otel.Handle], oldest first *)
  handled : list string;
  (** the next free [*Instrument] address *)
  next_addr : nat
}.

(** [readerCallback]: the reader's pointer and, of the embedded [*Callback],
    its [instruments] set (pointers, [None] for nil). *)
Record readerCallback := {
  Config : nat;
  Callback_instruments : gset (option nat)
}.

(** [context.Context], by the value it holds under [contextKey{}]. *)
Definition Context_ : Type := option readerCallback.

Record Callback := {
  function : Context_ → World → Result World;
  instruments : gset (option nat)
}.

Record Observer := {
  inst : option Instrument
}.

Definition Handle (err : string) (w : World) : World :=
  {| views_state := views_state w;
     stores := stores w;
     handled := handled w ++ [err];
     next_addr := next_addr w |}.

Definition NewInstrument (desc : sdkinstrument.Descriptor)
    (compiled : option I) (readers : list reader.Reader) (w : World)
    : Instrument * World :=
  let a := next_addr w in
  ({| addr := a; descriptor := desc; compiled := compiled |},
   {| views_state := views_state w;
      stores := foldl (λ st r, <[(a, reader.ptr r) := ∅]> st) (stores w) readers;
      handled := handled w;
      next_addr := S a |}).

Definition NewObserver (inst : option Instrument) : Observer :=
  {| inst := inst |}.

(** [NewCallback]: an instrument of another provider is [None] in the list. *)
Definition NewCallback (insts : list (option Observer))
    (fn : Context_ → World → Result World) : option Callback :=
  foldl
    (λ cb o,
       match cb, o with
       | Some cb, Some ai =>
           Some {| function := function cb;
                   instruments := {[ addr <$> inst ai ]} ∪ instruments cb |}
       | _, _ => None
       end)
    (Some {| function := fn; instruments := ∅ |})
    insts.

Definition Run (c : Callback) (r : nat) (w : World) : Result World :=
  function c
    (Some {| Config := r; Callback_instruments := instruments c |}) w.

(** The errors of lines 146 and 152. *)
Definition usedOutsideCallback : string :=
  "async instrument used outside of callback".

Definition notDeclared : string :=
  "async instrument not declared for use in callback".

Definition nil_dereference : string :=
  "invalid memory address or nil pointer dereference".

(** [Instrument.get] *)
Definition get (inst : Instrument) (r : nat)
    (attrs : list attribute.KeyValue) (w : World) : Result (A * World) :=
  match stores w !! (addr inst, r) with
  | None => Panic nil_dereference
  | Some store =>
      let aset := attribute.NewSet attrs in
      match store !! aset with
      | Some se => Ok (se, w)
      | None =>
          match compiled inst with
          | None => Panic nil_dereference
          | Some c =>
              let '(se, vs) := NewAccumulator c aset r (views_state w) in
              Ok (se,
                  {| views_state := vs;
                     stores := <[(addr inst, r) := <[aset := se]> store]> (stores w);
                     handled := handled w;
                     next_addr := next_addr w |})
          end
      end
  end.

Definition update (se : A) (value : N) (w : World) : World :=
  {| views_state := Update se value (views_state w);
     stores := stores w;
     handled := handled w;
     next_addr := next_addr w |}.

(** [Observer.Observe] *)
Definition Observe (o : Observer) (ctx : Context_) (value : N)
    (attrs : list attribute.KeyValue) (w : World) : Result World :=
  match inst o with
  | None => Ok w
  | Some i =>
      match ctx with
      | None => Ok (Handle usedOutsideCallback w)
      | Some rc =>
          let w :=
            if decide (Some (addr i) ∈ Callback_instruments rc) then w
            else Handle notDeclared w in
          match aggregator.RangeTest value (descriptor i) with
          | Some err => Ok (Handle err w)
          | None =>
              bind (get i (Config rc) attrs w)
                (λ p, Ok (update (fst p) value (snd p)))
          end
      end
  end.

End Observers.

Arguments Instrument I : clear implicits.
Arguments Observer I : clear implicits.
Arguments World {_} A W.
Arguments Callback {_} A W.

(** The [Accumulate] method of a [viewstate.Accumulator], the other method
    async.go calls on the accumulators it keeps. *)
Class Accumulators (A W : Type) := {
  Accumulate : A → W → W
}.

Section AccumulateFor.
Context `{!attribute.Model} {I A W : Type} `{!Accumulators A W}.

(** [Instrument.AccumulateFor]: [order] is the order in which Go visits
    [rs.store], a permutation of its entries; the reader state of a reader
    the instrument was not created with is a nil pointer. *)
Definition AccumulateFor_in (order : list (attribute.Set_ * A))
    (inst : Instrument I) (r : nat) (w : World A W) : Result (World A W) :=
  match stores w !! (addr inst, r) with
  | None => Panic nil_dereference
  | Some _ =>
      Ok {| views_state :=
              foldl (λ vs capt, Accumulate (snd capt) vs) (views_state w) order;
            stores := <[(addr inst, r) := ∅]> (stores w);
            handled := handled w;
            next_addr := next_addr w |}
  end.

Definition AccumulateFor (inst : Instrument I) (r : nat) (w : World A W)
    : Result (World A W) :=
  AccumulateFor_in (map_to_list (default ∅ (stores w !! (addr inst, r))))
    inst r w.

End AccumulateFor.

End asyncstate.

(** ** package metric: asyncinst.go *)

Module metric.

Section AsyncInst.
Context `{!attribute.Model} `{!histogram.Model} {A W N : Type}.
Context `{!asyncstate.Views viewstate.Instrument A W N}.

(** The function [newAsyncInst] hands to [configureInstrument]: compile the
    views for the descriptor and build the instrument around the result.
    The errors [Compile] handled join the log. *)
Definition newAsyncInst (views : viewstate.Compiler)
    (readers : list reader.Reader) (desc : sdkinstrument.Descriptor)
    (w : asyncstate.World A W)
    : asyncstate.Instrument viewstate.Instrument * viewstate.Compiler
      * asyncstate.World A W :=
  let '(compiled, views, errs) := viewstate.Compile views desc in
  let w :=
    {| asyncstate.views_state := asyncstate.views_state w;
       asyncstate.stores := asyncstate.stores w;
       asyncstate.handled := asyncstate.handled w ++ errs;
       asyncstate.next_addr := asyncstate.next_addr w |} in
  let '(inst, w) := asyncstate.NewInstrument desc compiled readers w in
  (inst, views, w).

End AsyncInst.

End metric.

(** ** Concrete kernels, attribute sets and scenarios *)

Module scenario.

(** Modelled from the spec: package attribute, whose code is outside src/.
    An attribute set is the canonically ordered list of its key/value pairs;
    of two pairs with one key the later one stays; a set built with a filter
    drops the pairs outside the filter first. *)
Fixpoint insert_kv (kv : string * Z) (l : list (string * Z)) : list (string * Z) :=
  match l with
  | [] => [kv]
  | kv' :: l' =>
      match String.compare (fst kv) (fst kv') with
      | Lt => kv :: l
      | Eq => kv :: l'
      | Gt => kv' :: insert_kv kv l'
      end
  end.

Definition canonical (kvs : list (string * Z)) : list (string * Z) :=
  foldl (λ set kv, insert_kv kv set) [] kvs.

Definition attributes : attribute.Model :=
  {| attribute.KeyValue := string * Z;
     attribute.Set_ := list (string * Z);
     attribute.Set_eq_dec := _;
     attribute.Set_countable := _;
     attribute.NewSet := canonical;
     attribute.NewSetWithFiltered kvs f :=
       canonical (match f with
                  | Some keep => List.filter keep kvs
                  | None => kvs
                  end) |}.

(** A histogram package with nothing to configure. *)
Definition no_histogram : histogram.Model :=
  {| histogram.Config := unit;
     histogram.Config_zero := tt;
     histogram.Option := unit;
     histogram.NewConfig _ _ := tt |}.

#[local] Existing Instance attributes.
#[local] Existing Instance no_histogram.

Definition int64_zero : ZeroValue Z := 0%Z.
Definition int64_any : number.Any Z := {| number.zero := 0%Z |}.

#[local] Existing Instance int64_zero.
#[local] Existing Instance int64_any.

(** Modelled from the spec: the Sum kernel over int64, whose code is outside
    src/.  Storage is a single number; Update adds; SynchronizedMove swaps
    with zero; [Merge(src, dst)] folds src into dst; [SubtractSwap(new,
    prior)] stores new - prior into prior; HasData: changed from Init. *)
Definition sum_Methods : aggregator.Methods Z Z :=
  {| aggregator.Init _ _ := 0%Z;
     aggregator.Update s v := number.wrap64 (s + v);
     aggregator.SynchronizedMove from _ := (0%Z, from);
     aggregator.Reset _ := 0%Z;
     aggregator.Merge src dst := (src, number.wrap64 (dst + src));
     aggregator.SubtractSwap new prior := number.wrap64 (new - prior);
     aggregator.HasData s := negb (s =? 0)%Z |}.

(** The same kernel with the arguments of Merge in the other order,
    [Merge(dst, src)]. *)
Definition sum_Methods_dst_first : aggregator.Methods Z Z :=
  {| aggregator.Init _ _ := 0%Z;
     aggregator.Update s v := number.wrap64 (s + v);
     aggregator.SynchronizedMove from _ := (0%Z, from);
     aggregator.Reset _ := 0%Z;
     aggregator.Merge dst src := (number.wrap64 (dst + src), src);
     aggregator.SubtractSwap new prior := number.wrap64 (new - prior);
     aggregator.HasData s := negb (s =? 0)%Z |}.

(** Modelled from the spec: [aggregator.RangeTest], whose code is outside
    src/: counters forbid negative values. *)
Definition int64_Range : aggregator.Range Z :=
  {| aggregator.RangeTest value desc :=
       match sdkinstrument.InstrumentKind desc with
       | sdkinstrument.CounterKind | sdkinstrument.CounterObserverKind =>
           if (value <? 0)%Z then Some "negative value on a counter" else None
       | _ => None
       end |}.

Definition attrs_a1 : list (string * Z) := [("a", 1%Z)].

(** The attribute set [{a:1}]. *)
Definition set_a1 : attribute.Set_ := attribute.NewSet attrs_a1.

Definition delta_reader : reader.Reader :=
  {| reader.ptr := 1;
     reader.Defaults _ := (aggregation.SumKind, aggregation.DeltaTemporality) |}.

Definition drop_reader : reader.Reader :=
  {| reader.ptr := 2;
     reader.Defaults _ := (aggregation.DropKind, aggregation.DeltaTemporality) |}.

Definition library : instrumentation.Library :=
  {| instrumentation.Name := "lib";
     instrumentation.Version := "";
     instrumentation.SchemaURL := "" |}.

Definition counter : sdkinstrument.Descriptor :=
  sdkinstrument.NewDescriptor "requests" sdkinstrument.CounterKind
    number.Int64Kind "number of requests" "1".

Definition counter_observer : sdkinstrument.Descriptor :=
  sdkinstrument.NewDescriptor "bytes" sdkinstrument.CounterObserverKind
    number.Int64Kind "bytes sent" "By".

Definition gauge_observer : sdkinstrument.Descriptor :=
  sdkinstrument.NewDescriptor "temperature" sdkinstrument.GaugeObserverKind
    number.Int64Kind "room temperature" "C".

Definition metric_of (desc : sdkinstrument.Descriptor) : viewstate.baseMetric :=
  {| viewstate.desc := desc;
     viewstate.acfg := zero_value;
     viewstate.data := ∅;
     viewstate.keys := None |}.

Definition t0 : Z := 100.
Definition t1 : Z := 160.
Definition t2 : Z := 220.
Definition t3 : Z := 280.

Definition seq1 : reader.Sequence :=
  {| reader.Start := t0; reader.Last := t0; reader.Now := t1 |}.
Definition seq2 : reader.Sequence :=
  {| reader.Start := t0; reader.Last := t1; reader.Now := t2 |}.
Definition seq3 : reader.Sequence :=
  {| reader.Start := t0; reader.Last := t2; reader.Now := t3 |}.

(** The values a reader sees in the series of the instrument appended last. *)
Definition emitted (h : list Z) (output : list reader.Instrument)
    : list (list (string * Z) * Z * Z * Z) :=
  match last output with
  | Some i =>
      List.map
        (λ s : reader.Series,
           (reader.Attributes s : list (string * Z),
            viewstate.series_value h s,
            reader.Series_Start s, reader.Series_End s))
        (reader.Instrument_Series i)
  | None => []
  end.

Section Kernel.
Context (methods : aggregator.Methods Z Z).
#[local] Existing Instance methods.

(** Seed scenario 2: a synchronous counter read with delta temporality;
    updates +3, +4, +5 on [{a:1}], accumulated into the cell of [{a:1}]. *)
Definition delta_sync_accumulated
    : viewstate.syncAccumulator Z * viewstate.baseMetric * list Z :=
  let '(sc, p, h) := viewstate.NewAccumulator_sync (metric_of counter) [] attrs_a1 in
  let sc := viewstate.Update_sync sc 3%Z in
  let sc := viewstate.Update_sync sc 4%Z in
  let sc := viewstate.Update_sync sc 5%Z in
  let '(sc, h) := viewstate.Accumulate_sync sc h in
  (sc, p, h).

Definition delta_sync_metric : viewstate.baseMetric :=
  snd (fst delta_sync_accumulated).

Definition delta_sync_heap : list Z := snd delta_sync_accumulated.

(** ... the first collection, with the contents of the cell before it ... *)
Definition delta_sync_first :=
  let '(sc, p, h) := delta_sync_accumulated in
  let accumulated := load h (viewstate.sc_output sc) in
  let '(p, h, output) := viewstate.statelessSyncProcess_Collect p h seq1 [] in
  (sc, p, h, accumulated, output).

(** ... then +1 and a second collection ... *)
Definition delta_sync_second :=
  let '(sc, p, h, _, _) := delta_sync_first in
  let sc := viewstate.Update_sync sc 1%Z in
  let '(sc, h) := viewstate.Accumulate_sync sc h in
  let accumulated := load h (viewstate.sc_output sc) in
  let '(p, h, output) := viewstate.statelessSyncProcess_Collect p h seq2 [] in
  (sc, p, h, accumulated, output).

(** ... then a third collection with no update. *)
Definition delta_sync_third :=
  let '(sc, p, h, _, _) := delta_sync_second in
  let '(p, h, output) := viewstate.statelessSyncProcess_Collect p h seq3 [] in
  (sc, p, h, output).

(** Seed scenario 4: an asynchronous counter read with delta temporality;
    one callback run that observes [value] on [{a:1}], flushed into the
    process [p]. *)
Definition observed (value : Z) (p : viewstate.statefulAsyncProcess)
    (h : list Z) : viewstate.statefulAsyncProcess * list Z :=
  let '(ac, cav, h) :=
    viewstate.NewAccumulator_async
      (viewstate.compiledAsyncInstrument p) h attrs_a1 in
  let ac := viewstate.Update_async ac value in
  let '(_, h) := viewstate.Accumulate_async ac h in
  ({| viewstate.compiledAsyncInstrument := cav;
      viewstate.prior := viewstate.prior p |}, h).

(** The callback observes 100; first collection. *)
Definition delta_async_observed_100 : viewstate.statefulAsyncProcess * list Z :=
  observed 100
    {| viewstate.compiledAsyncInstrument := metric_of counter_observer;
       viewstate.prior := ∅ |} [].

Definition delta_async_first :=
  let '(p, h) := delta_async_observed_100 in
  viewstate.statefulAsyncProcess_Collect p h seq1 [].

(** The callback observes 140; second collection. *)
Definition delta_async_observed_140 : viewstate.statefulAsyncProcess * list Z :=
  let '(p, h, _) := delta_async_first in
  observed 140 p h.

Definition delta_async_process : viewstate.statefulAsyncProcess :=
  fst delta_async_observed_140.

Definition delta_async_heap : list Z := snd delta_async_observed_140.

Definition delta_async_second :=
  let '(p, h) := delta_async_observed_140 in
  viewstate.statefulAsyncProcess_Collect p h seq2 [].

End Kernel.

(** A view that renames the instrument and overrides its description. *)
Definition renaming_view : views.View :=
  {| views.Matches _ _ := true;
     views.Aggregation := aggregation.UndefinedKind;
     views.HistogramOptions := [];
     views.HasName := true;
     views.Name := "renamed";
     views.Description := "overridden";
     views.Keys := None |}.

(** A view that selects the sum aggregation and changes nothing else. *)
Definition sum_view : views.View :=
  {| views.Matches _ _ := true;
     views.Aggregation := aggregation.SumKind;
     views.HistogramOptions := [];
     views.HasName := false;
     views.Name := "";
     views.Description := "";
     views.Keys := None |}.

(** The state of the one asynchronous view behind a compiled instrument:
    its metric, the storage heap and the accumulators handed out. *)
Record async_views := {
  av_metric : viewstate.baseMetric;
  av_heap : list Z;
  av_accumulators : list (viewstate.asyncAccumulator Z Z)
}.

(** The interface of async.go to package viewstate, for one asynchronous
    view with the Sum kernel: an accumulator is referred to by its index. *)
Definition async_Views (I : Type) : asyncstate.Views I nat async_views Z :=
  let _ := sum_Methods in
  {| asyncstate.NewAccumulator _ aset _ vs :=
       let '(ac, cav, h) :=
         viewstate.NewAccumulator_async (av_metric vs) (av_heap vs) aset in
       (length (av_accumulators vs),
        {| av_metric := cav;
           av_heap := h;
           av_accumulators := av_accumulators vs ++ [ac] |});
     asyncstate.Update se value vs :=
       {| av_metric := av_metric vs;
          av_heap := av_heap vs;
          av_accumulators :=
            alter (λ ac, viewstate.Update_async ac value) se
              (av_accumulators vs) |} |}.

Definition world0 (desc : sdkinstrument.Descriptor)
    : asyncstate.World nat async_views :=
  {| asyncstate.views_state :=
       {| av_metric := metric_of desc; av_heap := []; av_accumulators := [] |};
     asyncstate.stores := ∅;
     asyncstate.handled := [];
     asyncstate.next_addr := 0 |}.

(** Compilers: one delta reader and no view; one reader whose default
    aggregation is Drop; one delta reader and the sum view; two readers and
    three views, two of which emit the instrument's own name. *)
Definition delta_compiler : viewstate.Compiler :=
  viewstate.New library [] [delta_reader].

Definition drop_compiler : viewstate.Compiler :=
  viewstate.New library [] [drop_reader].

Definition sum_compiler : viewstate.Compiler :=
  viewstate.New library [sum_view] [delta_reader].

Definition views_compiler : viewstate.Compiler :=
  viewstate.New library [sum_view; renaming_view; sum_view]
    [delta_reader; drop_reader].

(** A second instrument with the name of [counter]. *)
Definition requests_histogram : sdkinstrument.Descriptor :=
  sdkinstrument.NewDescriptor "requests" sdkinstrument.HistogramKind
    number.Float64Kind "size of requests" "By".

(** What [sum_compiler] configures for [counter] and for
    [requests_histogram] at its one reader. *)
Definition counter_behavior : viewstate.configuredBehavior :=
  {| viewstate.config_desc := counter;
     viewstate.config_kind := aggregation.SumKind;
     viewstate.config_keys := None;
     viewstate.config_acfg := zero_value;
     viewstate.config_reader := delta_reader |}.

Definition histogram_behavior : viewstate.configuredBehavior :=
  {| viewstate.config_desc := requests_histogram;
     viewstate.config_kind := aggregation.SumKind;
     viewstate.config_keys := None;
     viewstate.config_acfg := zero_value;
     viewstate.config_reader := delta_reader |}.

(** An asynchronous instrument of [desc], built by [newAsyncInst] in the
    world where nothing has happened yet. *)
Definition async_instrument (v : viewstate.Compiler)
    (readers : list reader.Reader) (desc : sdkinstrument.Descriptor)
    : asyncstate.Instrument viewstate.Instrument * viewstate.Compiler
      * asyncstate.World nat async_views :=
  let _ := async_Views viewstate.Instrument in
  metric.newAsyncInst v readers desc (world0 desc).

(** The context of a callback run for [r] that declared the instruments at
    the addresses [declared]. *)
Definition callback_context (r : reader.Reader) (declared : list nat)
    : asyncstate.readerCallback :=
  {| asyncstate.Config := reader.ptr r;
     asyncstate.Callback_instruments := list_to_set (Some <$> declared) |}.

(** Observe(5, {a:1}) on the counter observer, inside a callback that
    declared no instrument. *)
Definition undeclared_observation : Result (asyncstate.World nat async_views) :=
  let _ := async_Views viewstate.Instrument in
  let _ := int64_Range in
  let '(inst, _, w) :=
    async_instrument delta_compiler [delta_reader] counter_observer in
  asyncstate.Observe (asyncstate.NewObserver (Some inst))
    (Some (callback_context delta_reader [])) 5%Z attrs_a1 w.

(** Observe(7, {a:1}) outside of any callback, on an observer whose
    instrument is nil. *)
Definition nil_observation : Result (asyncstate.World nat async_views) :=
  let _ := async_Views viewstate.Instrument in
  let _ := int64_Range in
  asyncstate.Observe (asyncstate.NewObserver None) None 7%Z attrs_a1
    (world0 counter_observer).

(** [Accumulate] for the accumulators of [async_Views]: the accumulator at
    the index [se] is flushed into its output cell. *)
Definition async_Accumulators : asyncstate.Accumulators nat async_views :=
  let _ := sum_Methods in
  {| asyncstate.Accumulate se vs :=
       match av_accumulators vs !! se with
       | Some ac =>
           let '(ac, h) := viewstate.Accumulate_async ac (av_heap vs) in
           {| av_metric := av_metric vs;
              av_heap := h;
              av_accumulators := <[se := ac]> (av_accumulators vs) |}
       | None => vs
       end |}.

(** A metric of the counter that keeps the attributes with the key [a]
    only, and two attribute lists that differ outside of that key. *)
Definition keep_a (kv : string * Z) : bool := String.eqb (fst kv) "a".

Definition filtered_metric : viewstate.baseMetric :=
  {| viewstate.desc := counter;
     viewstate.acfg := zero_value;
     viewstate.data := ∅;
     viewstate.keys := Some keep_a |}.

Definition attrs_a1_b2 : list (string * Z) := [("a", 1%Z); ("b", 2%Z)].
Definition attrs_a1_b3 : list (string * Z) := [("b", 3%Z); ("a", 1%Z)].



(** A synchronous view of the counter in which [{a:1}] is bound to a cell
    and nothing was recorded. *)
Definition idle_sync : viewstate.syncAccumulator Z * viewstate.baseMetric * list Z :=
  let _ := sum_Methods in
  viewstate.NewAccumulator_sync (metric_of counter) [] attrs_a1.

Definition idle_sync_metric : viewstate.baseMetric := snd (fst idle_sync).

Definition idle_sync_heap : list Z := snd idle_sync.

(** The asynchronous delta view of seed scenario 4 after its first
    collection. *)
Definition delta_async_collected : viewstate.statefulAsyncProcess * list Z :=
  fst (delta_async_first sum_Methods).

(** The counter observer with the one view a delta reader gets for it, as
    [NewInstrument] creates it, and the world after Observe(100, {a:1}) in a
    callback of that reader that declared it. *)
Definition bytes_behavior : viewstate.configuredBehavior :=
  {| viewstate.config_desc := counter_observer;
     viewstate.config_kind := aggregation.SumKind;
     viewstate.config_keys := None;
     viewstate.config_acfg := zero_value;
     viewstate.config_reader := delta_reader |}.

Definition bytes_view : viewstate.Instrument :=
  viewstate.single (viewstate.buildViewFor bytes_behavior).

Definition bytes_created
    : asyncstate.Instrument viewstate.Instrument
      * asyncstate.World nat async_views :=
  asyncstate.NewInstrument counter_observer (Some bytes_view) [delta_reader]
    (world0 counter_observer).

Definition bytes_instrument : asyncstate.Instrument viewstate.Instrument :=
  fst bytes_created.

Definition bytes_world : asyncstate.World nat async_views := snd bytes_created.

Definition bytes_observed : asyncstate.World nat async_views :=
  let _ := async_Views viewstate.Instrument in
  let _ := int64_Range in
  match
    asyncstate.Observe (asyncstate.NewObserver (Some bytes_instrument))
      (Some (callback_context delta_reader [0])) 100%Z attrs_a1 bytes_world
  with
  | Ok w => w
  | Panic _ => bytes_world
  end.

End scenario.

(** * Properties *)

(** ** The storage heap *)

Section Heap.
Context {A : Type} `{!ZeroValue A}.
Implicit Types (h : list A) (l : loc) (a : A).

Lemma load_store_eq h l a : l < length h → load (store h l a) l = a.
Proof.
  intros Hl. unfold load, store. by rewrite list_lookup_insert_eq.
Qed.

Lemma load_store_ne h l l' a : l ≠ l' → load (store h l a) l' = load h l'.
Proof.
  intros Hne. unfold load, store. by rewrite list_lookup_insert_ne.
Qed.

Lemma length_store h l a : length (store h l a) = length h.
Proof. apply length_insert. Qed.

Lemma load_app_old h l a : l < length h → load (h ++ [a]) l = load h l.
Proof.
  intros Hl. unfold load. by rewrite lookup_app_l.
Qed.

Lemma load_app_new h a : load (h ++ [a]) (length h) = a.
Proof.
  unfold load. by rewrite list_lookup_middle.
Qed.

Lemma store_app_new h a b : store (h ++ [a]) (length h) b = h ++ [b].
Proof.
  unfold store. rewrite insert_app_r_alt by lia.
  by rewrite Nat.sub_diag.
Qed.

Lemma store_store h l a b : store (store h l a) l b = store h l b.
Proof. unfold store. apply list_insert_insert_eq. Qed.

End Heap.

(** ** Maps of storage cells *)

Section Cells.
Context `{!attribute.Model} {Storage : Type}.
Implicit Types (d : gmap attribute.Set_ loc) (h : list Storage).
Implicit Types (order : list (attribute.Set_ * loc)).

Lemma order_elem d order set l :
  order ≡ₚ map_to_list d → (set, l) ∈ order ↔ d !! set = Some l.
Proof.
  intros Hp. rewrite Hp. apply elem_of_map_to_list.
Qed.

Lemma order_NoDup_sets d order :
  order ≡ₚ map_to_list d → NoDup order.*1.
Proof.
  intros Hp. rewrite Hp. apply NoDup_fst_map_to_list.
Qed.

Lemma order_cells d order :
  order ≡ₚ map_to_list d → order.*2 ≡ₚ viewstate.cells d.
Proof.
  intros Hp. unfold viewstate.cells. by rewrite Hp.
Qed.

Lemma cells_elem d set l : d !! set = Some l → l ∈ viewstate.cells d.
Proof.
  intros Hl. unfold viewstate.cells.
  apply list_elem_of_fmap. exists (set, l). split; [done |].
  by apply elem_of_map_to_list.
Qed.

Lemma cells_sound_lt d h set l :
  viewstate.cells_sound d h → d !! set = Some l → l < length h.
Proof.
  intros [Hlt _] Hl. rewrite Forall_forall in Hlt.
  eapply Hlt, cells_elem, Hl.
Qed.

End Cells.

(** ** The delta collection of a synchronous instrument *)

Section StatelessSync.
Context `{!attribute.Model} `{!histogram.Model}.
Context {N Storage : Type} `{!ZeroValue Storage}.
Context `{!aggregator.Methods N Storage}.
Implicit Types (p : viewstate.baseMetric) (h : list Storage).
Implicit Types (d : gmap attribute.Set_ loc) (seq : reader.Sequence).
Implicit Types (es : list (attribute.Set_ * loc)).

Lemma newStorage_eq p h :
  viewstate.newStorage p h = (length h, h ++ [viewstate.fresh_storage p]).
Proof.
  unfold viewstate.newStorage, new, viewstate.fresh_storage.
  by rewrite load_app_new, store_app_new.
Qed.

(** One turn of the loop on a cell without data: the entry is deleted. *)
Lemma statelessSync_step_empty p seq d h series set l :
  aggregator.HasData (load h l) = false →
  viewstate.statelessSync_step p seq (d, h, series) (set, l)
  = (delete set d, h, series).
Proof.
  intros Hd. unfold viewstate.statelessSync_step. by rewrite Hd.
Qed.

(** One turn of the loop on a cell with data. *)
Lemma statelessSync_step_data p seq d h series set l :
  aggregator.HasData (load h l) = true →
  l < length h →
  viewstate.statelessSync_step p seq (d, h, series) (set, l)
  = (d,
     store (h ++ [viewstate.statelessSync_emitted p (load h l)]) l
       (viewstate.statelessSync_left p (load h l)),
     series ++ [ {| reader.Attributes := set;
                    reader.Aggregation := length h;
                    reader.Series_Start := reader.Last seq;
                    reader.Series_End := reader.Now seq |} ]).
Proof.
  intros Hd Hl. unfold viewstate.statelessSync_step. rewrite Hd.
  cbn [negb]. rewrite newStorage_eq.
  rewrite load_app_new, (load_app_old _ _ _ Hl).
  unfold viewstate.statelessSync_emitted, viewstate.statelessSync_left.
  destruct (aggregator.Merge (viewstate.fresh_storage p) (load h l))
    as [ns_new storage_new] eqn:Hm.
  simpl. rewrite store_app_new.
  rewrite load_store_eq by (rewrite length_app; simpl; lia).
  by rewrite store_store.
Qed.

Lemma statelessSync_loop p seq es : ∀ d h series,
  NoDup es.*1 → NoDup es.*2 → Forall (λ l, l < length h) es.*2 →
  ∃ d' h' new_series,
    foldl (viewstate.statelessSync_step p seq) (d, h, series) es
    = (d', h', series ++ new_series)
    ∧ viewstate.statelessSync_visited p seq d h es d' h' new_series.
Proof.
  induction es as [| [set l] es IH]; intros d h series Hsets Hcells Hlt.
  - exists d, h, []. split; [by rewrite app_nil_r |].
    split; try done; intros; exfalso; by eapply not_elem_of_nil.
  - simpl in Hsets, Hcells, Hlt.
    apply NoDup_cons in Hsets as [Hset Hsets].
    apply NoDup_cons in Hcells as [Hcell Hcells].
    apply Forall_cons in Hlt as [Hl Hlt].
    destruct (aggregator.HasData (load h l)) eqn:Hd.
    + (* the cell has data *)
      cbn [foldl]. rewrite (statelessSync_step_data _ _ _ _ _ _ _ Hd Hl).
      set (h1 := store _ l _).
      assert (Hlen1 : length h1 = S (length h)).
      { unfold h1. rewrite length_store, length_app. simpl. lia. }
      assert (Hold : ∀ l', l' < length h → l' ≠ l → load h1 l' = load h l').
      { intros l' Hl' Hne. unfold h1.
        rewrite load_store_ne by done. by apply load_app_old. }
      assert (Hrest : ∀ set' l', (set', l') ∈ es →
                load h1 l' = load h l').
      { intros set' l' Hin.
        assert (l' ∈ es.*2) by (apply list_elem_of_fmap; by exists (set', l')).
        rewrite Forall_forall in Hlt. apply Hold; [by apply Hlt |].
        intros ->. done. }
      destruct (IH d h1 (series ++ [ {| reader.Attributes := set;
                    reader.Aggregation := length h;
                    reader.Series_Start := reader.Last seq;
                    reader.Series_End := reader.Now seq |} ]) Hsets Hcells)
        as (d' & h' & ns & Hfold & Hv).
      { eapply Forall_impl; [exact Hlt |]. simpl. intros. lia. }
      destruct Hv as [Hvlen Hvoth Hvfr Hvemp Hvdat Hvser].
      eexists d', h', (_ :: ns). split.
      { rewrite Hfold. by rewrite <- app_assoc. }
      split.
      * lia.
      * intros set' Hn. apply not_elem_of_cons in Hn as [_ Hn].
        by apply Hvoth.
      * intros l' Hl' Hn. apply not_elem_of_cons in Hn as [Hne Hn].
        rewrite Hvfr; [| lia | done]. by apply Hold.
      * intros set' l' Hin Hd'.
        apply elem_of_cons in Hin as [[= -> ->] | Hin]; [congruence |].
        apply (Hvemp set' l' Hin). by rewrite (Hrest _ _ Hin).
      * intros set' l' Hin Hd'.
        apply elem_of_cons in Hin as [[= -> ->] | Hin].
        -- split; [by apply Hvoth |]. split.
           ++ rewrite Hvfr; [| lia | done].
              unfold h1. apply load_store_eq. rewrite length_app. simpl. lia.
           ++ eexists. split; [apply list_elem_of_here | done].
        -- destruct (Hvdat set' l' Hin) as (Hd1 & Hl1 & s & Hs & Hattr).
           { by rewrite (Hrest _ _ Hin). }
           split; [done |]. split.
           ++ by rewrite Hl1, (Hrest _ _ Hin).
           ++ exists s. split; [by apply list_elem_of_further | done].
      * intros s Hs. apply elem_of_cons in Hs as [-> | Hs].
        -- exists l. simpl. split; [apply list_elem_of_here |].
           split; [done |]. split; [lia |]. split; [| done].
           rewrite Hvfr; [| lia |].
           ++ unfold h1. rewrite load_store_ne by lia. apply load_app_new.
           ++ intros Hin. rewrite Forall_forall in Hlt.
              specialize (Hlt _ Hin). lia.
        -- destruct (Hvser s Hs) as (l' & Hin & Hd' & Hrange & Hval & Htime).
           exists l'. split; [by apply list_elem_of_further |].
           rewrite <- (Hrest _ _ Hin). split; [done |].
           split; [lia |]. done.
    + (* the cell has no data *)
      cbn [foldl]. rewrite (statelessSync_step_empty _ _ _ _ _ _ _ Hd).
      destruct (IH (delete set d) h series Hsets Hcells Hlt)
        as (d' & h' & ns & Hfold & Hv).
      destruct Hv as [Hvlen Hvoth Hvfr Hvemp Hvdat Hvser].
      assert (Hne : ∀ set' l', (set', l') ∈ es → set' ≠ set).
      { intros set' l' Hin ->. apply Hset.
        apply list_elem_of_fmap. by exists (set, l'). }
      exists d', h', ns. split; [done |]. split.
      * done.
      * intros set' Hn. apply not_elem_of_cons in Hn as [Hset' Hn].
        rewrite Hvoth by done. by apply lookup_delete_ne.
      * intros l' Hl' Hn. apply not_elem_of_cons in Hn as [_ Hn].
        by apply Hvfr.
      * intros set' l' Hin Hd'.
        apply elem_of_cons in Hin as [[= -> ->] | Hin].
        -- rewrite Hvoth by done. apply lookup_delete_eq.
        -- by apply (Hvemp set' l').
      * intros set' l' Hin Hd'.
        apply elem_of_cons in Hin as [[= -> ->] | Hin]; [congruence |].
        destruct (Hvdat set' l' Hin Hd') as (Hd1 & Hl1 & Hs).
        split; [| done]. rewrite Hd1. apply lookup_delete_ne.
        intros <-. by eapply Hne.
      * intros s Hs.
        destruct (Hvser s Hs) as (l' & Hin & Hrest).
        exists l'. split; [by apply list_elem_of_further | done].
Qed.

End StatelessSync.

Section StatelessSyncCollect.
Context `{!attribute.Model} `{!histogram.Model}.
Context {N Storage : Type} `{!ZeroValue Storage}.
Context `{!aggregator.Methods N Storage}.
Implicit Types (p : viewstate.baseMetric) (h : list Storage).

(** The whole collection, in any order of visit. *)
Lemma statelessSync_Collect_visited p h seq output order :
  viewstate.sync_sound p h →
  order ≡ₚ map_to_list (viewstate.data p) →
  ∃ d' h' series,
    viewstate.statelessSyncProcess_Collect_in order p h seq output
    = (viewstate.with_data p d', h',
       output ++ [ {| reader.Instrument_Descriptor := viewstate.desc p;
                      reader.Temporality := aggregation.DeltaTemporality;
                      reader.Instrument_Series := series |} ])
    ∧ viewstate.statelessSync_visited p seq (viewstate.data p) h order d' h' series.
Proof.
  intros [Hlt Hnd] Hp.
  destruct (statelessSync_loop p seq order (viewstate.data p) h [])
    as (d' & h' & series & Hfold & Hv).
  - by eapply order_NoDup_sets.
  - by rewrite (order_cells _ _ Hp).
  - by rewrite (order_cells _ _ Hp).
  - exists d', h', series. split; [| done].
    unfold viewstate.statelessSyncProcess_Collect_in. by rewrite Hfold.
Qed.

(** C9: after a delta collection of a synchronous instrument, an attribute
    set whose cell had no data at collection time is absent from the data
    map, and an attribute set whose cell had data is still mapped to the
    same cell, which has been reset.  This holds in whatever order Go visits
    the map. *)
Theorem C9_delta_sync_collect_sweeps_empty_cells
    p h seq output order set l :
  viewstate.sync_sound p h →
  order ≡ₚ map_to_list (viewstate.data p) →
  viewstate.data p !! set = Some l →
  let '(p', h', _) :=
    viewstate.statelessSyncProcess_Collect_in order p h seq output in
  if aggregator.HasData (load h l)
  then viewstate.data p' !! set = Some l
       ∧ load h' l
         = aggregator.Reset
             (snd (aggregator.Merge (viewstate.fresh_storage p) (load h l)))
  else viewstate.data p' !! set = None.
Proof.
  intros Hs Hp Hl.
  destruct (statelessSync_Collect_visited p h seq output order Hs Hp)
    as (d' & h' & series & -> & Hv).
  assert (Hin : (set, l) ∈ order) by by apply (order_elem _ _ _ _ Hp).
  destruct (aggregator.HasData (load h l)) eqn:Hd.
  - destruct (viewstate.visited_data _ _ _ _ _ _ _ _ Hv set l Hin Hd) as (Hd' & Hl' & _).
    simpl. by rewrite Hd', Hl, Hl'.
  - simpl. by apply (viewstate.visited_empty _ _ _ _ _ _ _ _ Hv set l).
Qed.

(** The series of a delta collection: one for every cell with data and no
    other, each with [Start = seq.Last], [End = seq.Now] and, as its value,
    what [Merge(ns, storage)] leaves in the fresh storage [ns]. *)
Lemma statelessSync_Collect_series p h seq output order :
  viewstate.sync_sound p h →
  order ≡ₚ map_to_list (viewstate.data p) →
  let '(_, h', output') :=
    viewstate.statelessSyncProcess_Collect_in order p h seq output in
  ∃ series,
    output' = output ++ [ {| reader.Instrument_Descriptor := viewstate.desc p;
                             reader.Temporality := aggregation.DeltaTemporality;
                             reader.Instrument_Series := series |} ]
    ∧ (∀ set l, viewstate.data p !! set = Some l →
         aggregator.HasData (load h l) = true →
         ∃ s, s ∈ series ∧ reader.Attributes s = set)
    ∧ (∀ s, s ∈ series →
         ∃ l, viewstate.data p !! reader.Attributes s = Some l
              ∧ aggregator.HasData (load h l) = true
              ∧ viewstate.series_value h' s
                = viewstate.statelessSync_emitted p (load h l)
              ∧ reader.Series_Start s = reader.Last seq
              ∧ reader.Series_End s = reader.Now seq).
Proof.
  intros Hs Hp.
  destruct (statelessSync_Collect_visited p h seq output order Hs Hp)
    as (d' & h' & series & -> & Hv).
  exists series. split; [done |]. split.
  - intros set l Hl Hd.
    assert (Hin : (set, l) ∈ order) by by apply (order_elem _ _ _ _ Hp).
    by destruct (viewstate.visited_data _ _ _ _ _ _ _ _ Hv set l Hin Hd) as (_ & _ & ?).
  - intros s Hin.
    destruct (viewstate.visited_series _ _ _ _ _ _ _ _ Hv s Hin)
      as (l & Hl & Hd & _ & Hval & Htime).
    exists l. split; [by apply (order_elem _ _ _ _ Hp) |]. done.
Qed.

(** With a kernel whose Merge leaves its first argument as it is (the
    [Merge(src, dst)] of [Accumulate]), every series of a delta collection
    refers to a storage that is still fresh: the accumulated value is not in
    it. *)
Lemma statelessSync_Collect_emits_fresh p h seq output order :
  (∀ a b, fst (aggregator.Merge a b) = a) →
  viewstate.sync_sound p h →
  order ≡ₚ map_to_list (viewstate.data p) →
  let '(_, h', output') :=
    viewstate.statelessSyncProcess_Collect_in order p h seq output in
  ∀ i s, last output' = Some i → s ∈ reader.Instrument_Series i →
    viewstate.series_value h' s = viewstate.fresh_storage p.
Proof.
  intros Hmerge Hs Hp.
  pose proof (statelessSync_Collect_series p h seq output order Hs Hp) as Hc.
  destruct (viewstate.statelessSyncProcess_Collect_in order p h seq output)
    as [[p' h'] output'].
  destruct Hc as (series & -> & _ & Hser).
  intros i s Hi Hin. rewrite last_snoc in Hi. injection Hi as <-.
  destruct (Hser s Hin) as (l & _ & _ & -> & _).
  apply Hmerge.
Qed.

End StatelessSyncCollect.

(** ** The delta collection of an asynchronous instrument *)

Section StatefulAsync.
Context `{!attribute.Model} `{!histogram.Model}.
Context {N Storage : Type} `{!ZeroValue Storage}.
Context `{!aggregator.Methods N Storage}.
Implicit Types (p : viewstate.statefulAsyncProcess) (h : list Storage).
Implicit Types (d : gmap attribute.Set_ loc) (seq : reader.Sequence).
Implicit Types (es : list (attribute.Set_ * loc)).

Lemma cells_inj d set1 set2 l :
  NoDup (viewstate.cells d) →
  d !! set1 = Some l → d !! set2 = Some l → set1 = set2.
Proof.
  intros Hnd Hs1 Hs2.
  apply elem_of_map_to_list, list_elem_of_lookup in Hs1 as [i Hi].
  apply elem_of_map_to_list, list_elem_of_lookup in Hs2 as [j Hj].
  assert (Hi2 : viewstate.cells d !! i = Some l).
  { unfold viewstate.cells. by rewrite list_lookup_fmap, Hi. }
  assert (Hj2 : viewstate.cells d !! j = Some l).
  { unfold viewstate.cells. by rewrite list_lookup_fmap, Hj. }
  pose proof (NoDup_lookup _ _ _ _ Hnd Hi2 Hj2) as ->.
  congruence.
Qed.

Lemma omap_ext_elem {X Y : Type} (f g : X → option Y) (l : list X) :
  (∀ x, x ∈ l → f x = g x) → omap f l = omap g l.
Proof.
  intros Hfg. apply list_omap_ext, Forall2_same_length_lookup.
  split; [done |]. intros i x y Hx Hy. simplify_eq.
  apply Hfg. by eapply list_elem_of_lookup_2.
Qed.

Lemma statefulAsync_step_eq p seq h series e :
  (∀ pval, viewstate.prior p !! fst e = Some pval → pval < length h) →
  viewstate.statefulAsync_step p seq (h, series) e
  = (match viewstate.prior p !! fst e with
     | Some pval =>
         store h pval
           (aggregator.SubtractSwap (load h (snd e)) (load h pval))
     | None => h
     end,
     series ++ option_list (viewstate.statefulAsync_series p seq h e)).
Proof.
  intros Hlt. destruct e as [set l].
  unfold viewstate.statefulAsync_step, viewstate.statefulAsync_series.
  simpl. destruct (viewstate.prior p !! set) as [pval |] eqn:Hp; [| done].
  rewrite load_store_eq by by apply Hlt.
  destruct (aggregator.HasData _); simpl; [| by rewrite app_nil_r].
  by destruct (sdkinstrument.HasTemporality _).
Qed.

Lemma statefulAsync_loop p seq es : ∀ h series,
  NoDup es.*1 →
  viewstate.cells_sound (viewstate.prior p) h →
  Forall (λ l, l ∉ viewstate.cells (viewstate.prior p)) es.*2 →
  ∃ h',
    foldl (viewstate.statefulAsync_step p seq) (h, series) es
    = (h', series ++ omap (viewstate.statefulAsync_series p seq h) es)
    ∧ viewstate.statefulAsync_visited p h es h'.
Proof.
  induction es as [| [set l] es IH]; intros h series Hsets Hprior Hdisj.
  - exists h. split; [by rewrite app_nil_r |].
    split; [done | done |]. intros set l pval Hin.
    by apply not_elem_of_nil in Hin.
  - simpl in Hsets, Hdisj.
    apply NoDup_cons in Hsets as [Hset Hsets].
    apply Forall_cons in Hdisj as [Hl Hdisj].
    cbn [foldl]. rewrite statefulAsync_step_eq.
    2: { intros pval Hp. by eapply cells_sound_lt. }
    simpl fst. simpl snd.
    set (h1 := match viewstate.prior p !! set with
               | Some pval => store h pval _
               | None => h
               end).
    assert (Hlen1 : length h1 = length h).
    { unfold h1. destruct (viewstate.prior p !! set); [| done].
      apply length_store. }
    assert (Hold : ∀ l', viewstate.prior p !! set ≠ Some l' →
              load h1 l' = load h l').
    { intros l' Hne. unfold h1.
      destruct (viewstate.prior p !! set) as [pval |]; [| done].
      apply load_store_ne. congruence. }
    assert (Hnotprior : ∀ set' l', l' ∉ viewstate.cells (viewstate.prior p) →
              viewstate.prior p !! set' ≠ Some l').
    { intros set' l' Hn Hp. apply Hn. by eapply cells_elem. }
    assert (Hother : ∀ set' pval', set' ≠ set →
              viewstate.prior p !! set' = Some pval' →
              load h1 pval' = load h pval').
    { intros set' pval' Hne Hp. apply Hold. intros Hp'.
      apply Hne. destruct Hprior as [_ Hnd]. by eapply cells_inj. }
    assert (Hrest : ∀ e, e ∈ es →
              fst e ≠ set ∧ load h1 (snd e) = load h (snd e)).
    { intros [set' l'] Hin. simpl. split.
      - intros ->. apply Hset. apply list_elem_of_fmap. by exists (set, l').
      - apply Hold, Hnotprior. rewrite Forall_forall in Hdisj.
        apply Hdisj. apply list_elem_of_fmap. by exists (set', l'). }
    destruct (IH h1 (series ++ option_list
                (viewstate.statefulAsync_series p seq h (set, l))) Hsets)
      as (h' & Hfold & Hv).
    { destruct Hprior as [Hlt Hnd]. split; [| done]. by rewrite Hlen1. }
    { done. }
    destruct Hv as [Hvlen Hvfr Hvdiff].
    exists h'. split.
    + rewrite Hfold. rewrite <- app_assoc. f_equal.
      cbn [omap list_omap].
      assert (Hsame : omap (viewstate.statefulAsync_series p seq h1) es
                      = omap (viewstate.statefulAsync_series p seq h) es).
      { apply omap_ext_elem. intros [set' l'] Hin.
        destruct (Hrest _ Hin) as [Hne Hload]. simpl in Hne, Hload.
        unfold viewstate.statefulAsync_series. simpl.
        destruct (viewstate.prior p !! set') as [pval' |] eqn:Hp; [| done].
        by rewrite Hload, (Hother set' pval' Hne Hp). }
      rewrite Hsame.
      by destruct (viewstate.statefulAsync_series p seq h (set, l)).
    + split.
      * lia.
      * intros l' Hn. rewrite Hvfr.
        -- apply Hold, Hn. apply list_elem_of_here.
        -- intros set' Hin. apply Hn. by apply list_elem_of_further.
      * intros set' l' pval' Hin Hp.
        apply elem_of_cons in Hin as [[= -> ->] | Hin].
        -- rewrite Hvfr.
           ++ unfold h1. rewrite Hp. apply load_store_eq.
              by eapply cells_sound_lt.
           ++ intros set' Hin Hp'. apply Hset.
              destruct Hprior as [_ Hnd].
              by rewrite (cells_inj _ _ _ _ Hnd Hp Hp').
        -- rewrite (Hvdiff set' l' pval' Hin Hp).
           destruct (Hrest _ Hin) as [Hne Hload]. simpl in Hne, Hload.
           by rewrite Hload, (Hother set' pval' Hne Hp).
Qed.

End StatefulAsync.

Section StatefulAsyncCollect.
Context `{!attribute.Model} `{!histogram.Model}.
Context {N Storage : Type} `{!ZeroValue Storage}.
Context `{!aggregator.Methods N Storage}.
Implicit Types (p : viewstate.statefulAsyncProcess) (h : list Storage).

(** The whole collection, in any order of visit. *)
Lemma statefulAsync_Collect_visited p h seq output order :
  viewstate.async_sound p h →
  order ≡ₚ map_to_list (viewstate.data (viewstate.compiledAsyncInstrument p)) →
  ∃ h',
    viewstate.statefulAsyncProcess_Collect_in order p h seq output
    = ({| viewstate.compiledAsyncInstrument :=
            viewstate.with_data (viewstate.compiledAsyncInstrument p) ∅;
          viewstate.prior :=
            viewstate.data (viewstate.compiledAsyncInstrument p) |},
       h',
       output ++ [ {| reader.Instrument_Descriptor :=
                        viewstate.desc (viewstate.compiledAsyncInstrument p);
                      reader.Temporality := aggregation.DeltaTemporality;
                      reader.Instrument_Series :=
                        omap (viewstate.statefulAsync_series p seq h) order |} ])
    ∧ viewstate.statefulAsync_visited p h order h'.
Proof.
  intros (Hdata & Hprior & Hdisj) Hp.
  destruct (statefulAsync_loop p seq order h []) as (h' & Hfold & Hv).
  - by eapply order_NoDup_sets.
  - done.
  - by rewrite (order_cells _ _ Hp).
  - exists h'. split; [| done].
    unfold viewstate.statefulAsyncProcess_Collect_in. by rewrite Hfold.
Qed.

(** The collection writes no cell of the current map. *)
Lemma statefulAsync_Collect_keeps_data p h order h' set l :
  viewstate.async_sound p h →
  viewstate.statefulAsync_visited p h order h' →
  viewstate.data (viewstate.compiledAsyncInstrument p) !! set = Some l →
  load h' l = load h l.
Proof.
  intros (_ & _ & Hdisj) Hv Hl.
  apply (viewstate.async_frame _ _ _ _ Hv). intros set' _ Hp.
  rewrite Forall_forall in Hdisj.
  apply (Hdisj l); by eapply cells_elem.
Qed.

(** C2: the delta collection of an asynchronous instrument appends, for the
    entries of the current map in the order of visit, the series of
    [statefulAsync_series]; for an attribute set with a prior entry [pval],
    SubtractSwap has stored the difference of the cumulative value and the
    prior value into [pval], the set has no series when the difference has
    no data, a series on the difference [pval] when the instrument kind has
    temporality, and a series on the cumulative value otherwise; a set with
    no prior entry has a series on its cumulative value; every series has
    [Start = seq.Start] and [End = seq.Now]. *)
Theorem C2_delta_async_collect_emits_differences
    p h seq output order :
  viewstate.async_sound p h →
  order ≡ₚ map_to_list (viewstate.data (viewstate.compiledAsyncInstrument p)) →
  let '(_, h', output') :=
    viewstate.statefulAsyncProcess_Collect_in order p h seq output in
  let series (set : attribute.Set_) (storage : loc) :=
    {| reader.Attributes := set;
       reader.Aggregation := storage;
       reader.Series_Start := reader.Start seq;
       reader.Series_End := reader.Now seq |} in
  output'
  = output ++ [ {| reader.Instrument_Descriptor :=
                     viewstate.desc (viewstate.compiledAsyncInstrument p);
                   reader.Temporality := aggregation.DeltaTemporality;
                   reader.Instrument_Series :=
                     omap (viewstate.statefulAsync_series p seq h) order |} ]
  ∧ ∀ set l,
      viewstate.data (viewstate.compiledAsyncInstrument p) !! set = Some l →
      load h' l = load h l
      ∧ match viewstate.prior p !! set with
        | Some pval =>
            let difference :=
              aggregator.SubtractSwap (load h l) (load h pval) in
            load h' pval = difference
            ∧ viewstate.statefulAsync_series p seq h (set, l)
              = if aggregator.HasData difference
                then Some (series set
                             (if sdkinstrument.HasTemporality
                                   (sdkinstrument.InstrumentKind
                                      (viewstate.desc
                                         (viewstate.compiledAsyncInstrument p)))
                              then pval else l))
                else None
        | None =>
            viewstate.statefulAsync_series p seq h (set, l)
            = Some (series set l)
        end.
Proof.
  intros Hs Hp.
  destruct (statefulAsync_Collect_visited p h seq output order Hs Hp)
    as (h' & -> & Hv).
  split; [done |]. intros set l Hl.
  split; [by eapply statefulAsync_Collect_keeps_data |].
  unfold viewstate.statefulAsync_series. simpl.
  destruct (viewstate.prior p !! set) as [pval |] eqn:Hprior; [| done].
  split; [| done].
  apply (viewstate.async_difference _ _ _ _ Hv set l pval); [| done].
  by apply (order_elem _ _ _ _ Hp).
Qed.

(** C3: after the delta collection of an asynchronous instrument the prior
    map is the data map the collection iterated over, entry for entry, the
    cumulative values in its cells are the ones observed, and the data map
    is empty; the process is sound again, ready for the next collection. *)
Theorem C3_delta_async_collect_moves_data_to_prior
    p h seq output order :
  viewstate.async_sound p h →
  order ≡ₚ map_to_list (viewstate.data (viewstate.compiledAsyncInstrument p)) →
  let '(p', h', _) :=
    viewstate.statefulAsyncProcess_Collect_in order p h seq output in
  viewstate.prior p' = viewstate.data (viewstate.compiledAsyncInstrument p)
  ∧ viewstate.data (viewstate.compiledAsyncInstrument p') = ∅
  ∧ (∀ set l,
       viewstate.prior p' !! set = Some l → load h' l = load h l)
  ∧ viewstate.async_sound p' h'.
Proof.
  intros Hs Hp.
  destruct (statefulAsync_Collect_visited p h seq output order Hs Hp)
    as (h' & -> & Hv).
  simpl. split; [done |]. split; [done |]. split.
  - intros set l Hl. by eapply statefulAsync_Collect_keeps_data.
  - destruct Hs as ([Hlt Hnd] & _ & _).
    unfold viewstate.async_sound, viewstate.cells_sound. simpl.
    rewrite (viewstate.async_length _ _ _ _ Hv).
    unfold viewstate.cells at 1 2 5. rewrite map_to_list_empty. simpl.
    split; [split; [constructor | constructor] |].
    split; [done | constructor].
Qed.

End StatefulAsyncCollect.

(** ** Soundness of the cell maps is an invariant *)

Section Soundness.
Context `{!attribute.Model} `{!histogram.Model}.
Context {N Storage : Type} `{!ZeroValue Storage}.
Context `{!aggregator.Methods N Storage}.
Implicit Types (p : viewstate.baseMetric) (h : list Storage).
Implicit Types (d : gmap attribute.Set_ loc).

Lemma cells_empty : viewstate.cells (∅ : gmap attribute.Set_ loc) = [].
Proof. unfold viewstate.cells. by rewrite map_to_list_empty. Qed.

Lemma cells_insert d set l :
  d !! set = None → viewstate.cells (<[set := l]> d) ≡ₚ l :: viewstate.cells d.
Proof.
  intros Hn. unfold viewstate.cells. by rewrite map_to_list_insert.
Qed.

Lemma cells_sound_empty h : viewstate.cells_sound ∅ h.
Proof. unfold viewstate.cells_sound. rewrite cells_empty. split; constructor. Qed.

(** A view starts with an empty data map (and no prior map). *)
Lemma newSyncView_sound p h : viewstate.sync_sound (viewstate.with_data p ∅) h.
Proof. apply cells_sound_empty. Qed.

Lemma cells_sound_grow d h h' :
  length h ≤ length h' →
  viewstate.cells_sound d h → viewstate.cells_sound d h'.
Proof.
  intros Hle [Hlt Hnd]. split; [| done].
  eapply Forall_impl; [exact Hlt |]. simpl. intros. lia.
Qed.

(** [findOutput] keeps the data map sound, returns the cell of the
    attribute set, and writes no cell that was allocated before. *)
Lemma findOutput_sound p h kvs :
  viewstate.sync_sound p h →
  let '(l, p', h') := viewstate.findOutput p h kvs in
  viewstate.sync_sound p' h'
  ∧ viewstate.data p' !! attribute.NewSetWithFiltered kvs (viewstate.keys p)
    = Some l
  ∧ length h ≤ length h'
  ∧ (∀ l', l' < length h → load h' l' = load h l')
  ∧ (l ∈ viewstate.cells (viewstate.data p) ∨ length h ≤ l).
Proof.
  intros Hs. unfold viewstate.findOutput.
  destruct (viewstate.data p !! _) as [l |] eqn:Hl.
  - split; [done |]. split; [done |]. split; [done |]. split; [done |].
    left. by eapply cells_elem.
  - rewrite newStorage_eq. unfold viewstate.sync_sound. simpl.
    split.
    + destruct Hs as [Hlt Hnd]. unfold viewstate.cells_sound.
      rewrite (cells_insert _ _ _ Hl). split.
      * apply Forall_cons. rewrite length_app. simpl. split; [lia |].
        eapply Forall_impl; [exact Hlt |]. simpl. intros. lia.
      * apply NoDup_cons. split; [| done]. intros Hin.
        rewrite Forall_forall in Hlt. specialize (Hlt _ Hin). lia.
    + split; [apply lookup_insert_eq |].
      split; [rewrite length_app; simpl; lia |].
      split; [| by right].
      intros l' Hl'. by apply load_app_old.
Qed.

(** A store into an allocated cell keeps every map sound. *)
Lemma store_sound d h l (s : Storage) :
  viewstate.cells_sound d h → viewstate.cells_sound d (store h l s).
Proof.
  intros Hs. eapply cells_sound_grow; [| exact Hs].
  by rewrite length_store.
Qed.

(** [findOutput] on a stateful asynchronous process keeps it sound. *)
Lemma findOutput_async_sound (p : viewstate.statefulAsyncProcess) h kvs :
  viewstate.async_sound p h →
  let '(_, cav, h') :=
    viewstate.findOutput (viewstate.compiledAsyncInstrument p) h kvs in
  viewstate.async_sound
    {| viewstate.compiledAsyncInstrument := cav;
       viewstate.prior := viewstate.prior p |} h'.
Proof.
  intros (Hdata & Hprior & Hdisj). unfold viewstate.findOutput.
  destruct (viewstate.data _ !! _) as [l |] eqn:Hl; [done |].
  rewrite newStorage_eq. unfold viewstate.async_sound. simpl.
  assert (Hlen : length h ≤ length (h ++ [viewstate.fresh_storage
                    (viewstate.compiledAsyncInstrument p)])).
  { rewrite length_app. simpl. lia. }
  assert (Hnew : ∀ d, viewstate.cells_sound d h → length h ∉ viewstate.cells d).
  { intros d [Hlt _] Hin. rewrite Forall_forall in Hlt.
    specialize (Hlt _ Hin). lia. }
  split; [| split].
  - destruct Hdata as [Hlt Hnd]. unfold viewstate.cells_sound.
    rewrite (cells_insert _ _ _ Hl). split.
    + apply Forall_cons. split; [rewrite length_app; simpl; lia |].
      eapply Forall_impl; [exact Hlt |]. simpl. intros. lia.
    + apply NoDup_cons. split; [| done]. by apply Hnew.
  - by eapply cells_sound_grow.
  - rewrite (cells_insert _ _ _ Hl). apply Forall_cons. split; [| done].
    by apply Hnew.
Qed.

End Soundness.

Section StatelessSyncSound.
Context `{!attribute.Model} `{!histogram.Model}.
Context {N Storage : Type} `{!ZeroValue Storage}.
Context `{!aggregator.Methods N Storage}.
Implicit Types (p : viewstate.baseMetric) (h : list Storage).

(** The delta collection of a synchronous instrument keeps it sound. *)
Lemma statelessSync_Collect_sound p h seq output order :
  viewstate.sync_sound p h →
  order ≡ₚ map_to_list (viewstate.data p) →
  let '(p', h', _) :=
    viewstate.statelessSyncProcess_Collect_in order p h seq output in
  viewstate.sync_sound p' h'.
Proof.
  intros Hs Hp.
  destruct (statelessSync_Collect_visited p h seq output order Hs Hp)
    as (d' & h' & series & -> & Hv).
  unfold viewstate.sync_sound. simpl.
  assert (Hsub : d' ⊆ viewstate.data p).
  { apply map_subseteq_spec. intros set l Hl.
    destruct (viewstate.data p !! set) as [l0 |] eqn:Hd.
    - assert (Hin : (set, l0) ∈ order) by by apply (order_elem _ _ _ _ Hp).
      destruct (aggregator.HasData (load h l0)) eqn:Hdata.
      + destruct (viewstate.visited_data _ _ _ _ _ _ _ _ Hv set l0 Hin Hdata) as (Hd' & _).
        congruence.
      + rewrite (viewstate.visited_empty _ _ _ _ _ _ _ _ Hv set l0 Hin Hdata) in Hl.
        done.
    - rewrite (viewstate.visited_others _ _ _ _ _ _ _ _ Hv set) in Hl; [congruence |].
      intros Hin. apply list_elem_of_fmap in Hin as ([set' l'] & -> & Hin).
      apply (order_elem _ _ _ _ Hp) in Hin. simpl in Hd. congruence. }
  assert (Hcells : viewstate.cells d' ⊆+ viewstate.cells (viewstate.data p)).
  { unfold viewstate.cells. apply fmap_submseteq.
    by apply map_to_list_submseteq. }
  destruct Hs as [Hlt Hnd]. split.
  - apply Forall_forall. intros l Hin.
    rewrite Forall_forall in Hlt.
    pose proof (viewstate.visited_length _ _ _ _ _ _ _ _ Hv).
    assert (l < length h); [| lia].
    apply Hlt. by eapply elem_of_submseteq.
  - apply submseteq_sublist_r in Hcells as (k & Hk & Hsl).
    rewrite Hk. by eapply sublist_NoDup.
Qed.

End StatelessSyncSound.

(** ** The view compiler *)

Section Compiler.
Context `{!attribute.Model} `{!histogram.Model}.
Implicit Types (v : viewstate.Compiler) (st : viewstate.compileState).
Implicit Types (config : viewstate.configuredBehavior).
Implicit Types (configs : list viewstate.configuredBehavior).
Implicit Types (registered : gset string).

Lemma viewName_buildViewFor config :
  viewstate.viewName (viewstate.buildViewFor config)
  = viewstate.behaviorName config.
Proof.
  unfold viewstate.viewName, viewstate.buildViewFor, viewstate.buildView,
    viewstate.compileSync, viewstate.compileAsync,
    viewstate.newSyncView, viewstate.newAsyncView, viewstate.behaviorName.
  repeat (case_match; simpl; try done).
Qed.

(** *** First behaviors *)

Lemma firsts_length registered configs :
  length (viewstate.firsts registered configs) ≤ length configs.
Proof.
  revert registered. induction configs as [| config rest IH]; intros registered.
  - done.
  - simpl. case_decide; simpl.
    + specialize (IH registered). lia.
    + specialize (IH ({[viewstate.behaviorName config]} ∪ registered)). lia.
Qed.

Lemma firsts_not_registered registered configs config :
  config ∈ viewstate.firsts registered configs →
  (viewstate.behaviorName config ∉ registered)
  ∧ config ∈ configs.
Proof.
  revert registered. induction configs as [| c rest IH]; intros registered Hin.
  - by apply not_elem_of_nil in Hin.
  - simpl in Hin. case_decide as Hreg.
    + destruct (IH _ Hin). split; [done |]. by apply list_elem_of_further.
    + apply elem_of_cons in Hin as [-> | Hin].
      * split; [done |]. apply list_elem_of_here.
      * destruct (IH _ Hin) as [Hn ?]. split; [| by apply list_elem_of_further].
        intros Hr. apply Hn. apply elem_of_union. by right.
Qed.

Lemma firsts_NoDup registered configs :
  NoDup (viewstate.behaviorName <$> viewstate.firsts registered configs).
Proof.
  revert registered. induction configs as [| c rest IH]; intros registered.
  - constructor.
  - simpl. case_decide as Hreg; [apply IH |].
    rewrite fmap_cons. apply NoDup_cons. split; [| apply IH].
    intros Hin. apply list_elem_of_fmap in Hin as (c' & Heq & Hin).
    apply firsts_not_registered in Hin as [Hn _].
    apply Hn. rewrite <- Heq. apply elem_of_union. left.
    by apply elem_of_singleton.
Qed.

(** The view built under a name that was not registered is the view of the
    first behavior of the list with that name. *)
Lemma firsts_head registered configs n :
  n ∉ registered →
  head (filter (λ config, viewstate.behaviorName config = n)
          (viewstate.firsts registered configs))
  = head (filter (λ config, viewstate.behaviorName config = n) configs).
Proof.
  revert registered. induction configs as [| c rest IH]; intros registered Hn.
  - done.
  - simpl. case_decide as Hreg.
    + rewrite (IH _ Hn). rewrite (filter_cons_False _ c); [done |].
      congruence.
    + destruct (decide (viewstate.behaviorName c = n)) as [Heq | Hne].
      * by rewrite !filter_cons_True.
      * rewrite !filter_cons_False by done. apply IH.
        intros Hin. apply elem_of_union in Hin as [Hin | Hin]; [| done].
        apply elem_of_singleton in Hin. congruence.
Qed.

(** *** The loop over the configured behaviors of one reader *)

Lemma namesOf_cons config configs :
  viewstate.namesOf (config :: configs)
  = {[viewstate.behaviorName config]} ∪ viewstate.namesOf configs.
Proof. done. Qed.

Lemma compileConfig_registered readerIdx r st registered config :
  viewstate.cs_names st !! readerIdx = Some registered →
  viewstate.behaviorName config ∈ registered →
  viewstate.compileConfig readerIdx r st config
  = {| viewstate.cs_names := viewstate.cs_names st;
       viewstate.cs_compiled := viewstate.cs_compiled st;
       viewstate.cs_errors :=
         viewstate.cs_errors st ++ [viewstate.duplicateViewName] |}.
Proof.
  intros Hreg Hin. unfold viewstate.compileConfig. rewrite Hreg. simpl.
  by rewrite decide_True.
Qed.

Lemma compileConfig_new readerIdx r st registered config :
  viewstate.cs_names st !! readerIdx = Some registered →
  viewstate.behaviorName config ∉ registered →
  viewstate.compileConfig readerIdx r st config
  = {| viewstate.cs_names :=
         <[readerIdx := {[viewstate.behaviorName config]} ∪ registered]>
           (viewstate.cs_names st);
       viewstate.cs_compiled :=
         <[reader.ptr r :=
             default [] (viewstate.cs_compiled st !! reader.ptr r)
             ++ [viewstate.buildViewFor config]]>
           (viewstate.cs_compiled st);
       viewstate.cs_errors := viewstate.cs_errors st |}.
Proof.
  intros Hreg Hin. unfold viewstate.compileConfig. rewrite Hreg. simpl.
  by rewrite decide_False.
Qed.

Lemma compileConfig_loop readerIdx r configs : ∀ st registered,
  viewstate.cs_names st !! readerIdx = Some registered →
  let st' := foldl (viewstate.compileConfig readerIdx r) st configs in
  viewstate.cs_names st'
  = <[readerIdx := viewstate.namesOf configs ∪ registered]>
      (viewstate.cs_names st)
  ∧ (∀ ρ, default [] (viewstate.cs_compiled st' !! ρ)
          = default [] (viewstate.cs_compiled st !! ρ)
            ++ (if decide (reader.ptr r = ρ)
                then viewstate.buildViewFor
                       <$> viewstate.firsts registered configs
                else []))
  ∧ viewstate.cs_errors st'
    = viewstate.cs_errors st
      ++ replicate (length configs
                    - length (viewstate.firsts registered configs))
           viewstate.duplicateViewName.
Proof.
  induction configs as [| config rest IH]; intros st registered Hreg.
  - simpl. split; [| split].
    + unfold viewstate.namesOf. simpl. rewrite (left_id_L ∅ (∪)).
      by rewrite list_insert_id.
    + intros ρ. case_decide; by rewrite app_nil_r.
    + by rewrite app_nil_r.
  - cbn [foldl viewstate.firsts]. cbv zeta.
    destruct (decide (viewstate.behaviorName config ∈ registered))
      as [Hin | Hin].
    + (* the name is registered: an error, no view *)
      rewrite (compileConfig_registered _ _ _ _ _ Hreg Hin).
      edestruct (IH {| viewstate.cs_names := viewstate.cs_names st;
                       viewstate.cs_compiled := viewstate.cs_compiled st;
                       viewstate.cs_errors :=
                         viewstate.cs_errors st
                         ++ [viewstate.duplicateViewName] |}
                   registered Hreg) as (Hn & Hc & He).
      split; [| split].
      * rewrite Hn. simpl. f_equal. rewrite namesOf_cons.
        apply set_eq. intros x. rewrite !elem_of_union, elem_of_singleton.
        intuition (subst; auto).
      * exact Hc.
      * rewrite He. simpl. rewrite <- app_assoc. f_equal.
        pose proof (firsts_length registered rest).
        replace (S (length rest) - length (viewstate.firsts registered rest))
          with (S (length rest - length (viewstate.firsts registered rest)))
          by lia.
        done.
    + (* a new name: registered, and a view is built *)
      rewrite (compileConfig_new _ _ _ _ _ Hreg Hin).
      set (registered' := {[viewstate.behaviorName config]} ∪ registered).
      edestruct (IH {| viewstate.cs_names :=
                         <[readerIdx := registered']> (viewstate.cs_names st);
                       viewstate.cs_compiled :=
                         <[reader.ptr r :=
                             default [] (viewstate.cs_compiled st !! reader.ptr r)
                             ++ [viewstate.buildViewFor config]]>
                           (viewstate.cs_compiled st);
                       viewstate.cs_errors := viewstate.cs_errors st |}
                   registered') as (Hn & Hc & He).
      { simpl. apply list_lookup_insert_eq. by eapply lookup_lt_Some. }
      split; [| split].
      * rewrite Hn. simpl. rewrite list_insert_insert_eq. f_equal.
        rewrite namesOf_cons. unfold registered'.
        apply set_eq. intros x. rewrite !elem_of_union, !elem_of_singleton.
        tauto.
      * intros ρ. rewrite Hc. simpl.
        destruct (decide (reader.ptr r = ρ)) as [-> | Hne].
        -- rewrite lookup_insert_eq. simpl. by rewrite <- app_assoc.
        -- rewrite lookup_insert_ne by done. done.
      * rewrite He. simpl. done.
Qed.

(** *** The loop over the readers *)

Lemma builtFor_names readers ρ
    (configs : list (list viewstate.configuredBehavior)) : ∀ readerIdx ns1 ns2,
  (∀ j, readerIdx ≤ j → ns1 !! j = ns2 !! j) →
  viewstate.builtFor readers ns1 ρ readerIdx configs
  = viewstate.builtFor readers ns2 ρ readerIdx configs.
Proof.
  induction configs as [| readerList rest IH]; intros readerIdx ns1 ns2 Hns.
  - done.
  - simpl. rewrite (Hns readerIdx) by lia. f_equal.
    apply IH. intros j Hj. apply Hns. lia.
Qed.

Lemma duplicatesFrom_names
    (configs : list (list viewstate.configuredBehavior)) : ∀ readerIdx ns1 ns2,
  (∀ j, readerIdx ≤ j → ns1 !! j = ns2 !! j) →
  viewstate.duplicatesFrom ns1 readerIdx configs
  = viewstate.duplicatesFrom ns2 readerIdx configs.
Proof.
  induction configs as [| readerList rest IH]; intros readerIdx ns1 ns2 Hns.
  - done.
  - simpl. rewrite (Hns readerIdx) by lia. f_equal.
    apply IH. intros j Hj. apply Hns. lia.
Qed.

Lemma compileReaders_loop readers
    (configs : list (list viewstate.configuredBehavior)) : ∀ readerIdx st,
  readerIdx + length configs = length readers →
  length (viewstate.cs_names st) = length readers →
  viewstate.compiled_from readers readerIdx configs st
    (viewstate.compileReaders readers readerIdx configs st).
Proof.
  induction configs as [| readerList rest IH]; intros readerIdx st Hidx Hlen.
  - simpl. split.
    + done.
    + done.
    + intros k readerList Hk. done.
    + intros ρ. simpl. by rewrite app_nil_r.
    + simpl. by rewrite app_nil_r.
  - simpl in Hidx. cbn [viewstate.compileReaders].
    destruct (lookup_lt_is_Some_2 readers readerIdx) as [r Hr]; [lia |].
    destruct (lookup_lt_is_Some_2 (viewstate.cs_names st) readerIdx)
      as [registered Hreg]; [lia |].
    rewrite Hr.
    destruct (compileConfig_loop readerIdx r readerList st registered Hreg)
      as (Hn & Hc & He).
    set (st1 := foldl (viewstate.compileConfig readerIdx r) st readerList) in *.
    assert (Hlen1 : length (viewstate.cs_names st1) = length readers).
    { rewrite Hn. by rewrite length_insert. }
    assert (Hafter : ∀ j, S readerIdx ≤ j →
              viewstate.cs_names st1 !! j = viewstate.cs_names st !! j).
    { intros j Hj. rewrite Hn. apply list_lookup_insert_ne. lia. }
    destruct (IH (S readerIdx) st1) as [Hl Hb Hnm Hv Herr]; [lia | done |].
    split.
    + lia.
    + intros j Hj. rewrite Hb by lia. rewrite Hn.
      apply list_lookup_insert_ne. lia.
    + intros k rl Hk. destruct k as [| k].
      * simpl in Hk. injection Hk as <-. rewrite Nat.add_0_r.
        rewrite Hb by lia. rewrite Hn, Hreg. simpl.
        apply list_lookup_insert_eq. lia.
      * simpl in Hk. replace (readerIdx + S k) with (S readerIdx + k) by lia.
        rewrite (Hnm k rl Hk). by rewrite Hafter by lia.
    + intros ρ. rewrite Hv, Hc. rewrite <- app_assoc. f_equal.
      cbn [viewstate.builtFor]. rewrite Hr, Hreg. simpl. f_equal.
      * destruct (decide (reader.ptr r = ρ)) as [-> | Hne].
        -- by rewrite decide_True.
        -- rewrite decide_False; [done |]. congruence.
      * by apply builtFor_names.
    + rewrite Herr, He. rewrite <- app_assoc. f_equal.
      cbn [viewstate.duplicatesFrom]. rewrite Hreg. simpl.
      rewrite replicate_add. f_equal.
      f_equal. by apply duplicatesFrom_names.
Qed.

Lemma configsFor_length v instrument :
  length (viewstate.configsFor v instrument) = length (viewstate.readers v).
Proof. unfold viewstate.configsFor. apply length_fmap. Qed.

Lemma compileViews_compiled v instrument :
  length (viewstate.names v) = length (viewstate.readers v) →
  viewstate.compiled_from (viewstate.readers v) 0 (viewstate.configsFor v instrument)
    {| viewstate.cs_names := viewstate.names v;
       viewstate.cs_compiled := ∅;
       viewstate.cs_errors := [] |}
    (viewstate.compileViews v instrument).
Proof.
  intros Hlen. apply compileReaders_loop; [| done].
  by rewrite configsFor_length.
Qed.

End Compiler.

Section CompilerClaims.
Context `{!attribute.Model} `{!histogram.Model}.
Implicit Types (v : viewstate.Compiler) (st : viewstate.compileState).
Implicit Types (config : viewstate.configuredBehavior).
Implicit Types (readerList : list viewstate.configuredBehavior).
Implicit Types (configs : list (list viewstate.configuredBehavior)).
Implicit Types (registered : gset string).

(** C5: the second loop of [Compile] gives every reader the views of the
    first behaviors under each name not yet registered for it, one error for
    every other behavior, and goes on to the end of every list: for every
    reader pointer the compiled views are those of [builtFor] over all the
    reader positions, the errors are as many as the behaviors without a
    view, and every position has registered the names of all its
    behaviors.  Among the first behaviors no name occurs twice, no name is a
    registered one, and the behavior under a name is the first one of the
    list with that name. *)
Theorem C5_duplicate_name_builds_first_only v instrument :
  length (viewstate.names v) = length (viewstate.readers v) →
  let st := viewstate.compileViews v instrument in
  let configs := viewstate.configsFor v instrument in
  (∀ ρ, default [] (viewstate.cs_compiled st !! ρ)
        = viewstate.builtFor (viewstate.readers v) (viewstate.names v)
            ρ 0 configs)
  ∧ viewstate.cs_errors st
    = replicate (viewstate.duplicatesFrom (viewstate.names v) 0 configs)
        viewstate.duplicateViewName
  ∧ (∀ readerIdx readerList,
       configs !! readerIdx = Some readerList →
       viewstate.cs_names st !! readerIdx
       = Some (viewstate.namesOf readerList
               ∪ default ∅ (viewstate.names v !! readerIdx)))
  ∧ (∀ registered readerList n,
       NoDup (viewstate.behaviorName
                <$> viewstate.firsts registered readerList)
       ∧ (n ∈ registered →
          ∀ config, config ∈ viewstate.firsts registered readerList →
                    viewstate.behaviorName config ≠ n)
       ∧ (n ∉ registered →
          head (filter (λ config, viewstate.behaviorName config = n)
                  (viewstate.firsts registered readerList))
          = head (filter (λ config, viewstate.behaviorName config = n)
                    readerList))).
Proof.
  intros Hlen st configs. subst st configs.
  destruct (compileViews_compiled v instrument Hlen) as [_ _ Hn Hv He].
  split; [| split; [| split]].
  - intros ρ. rewrite (Hv ρ). simpl. by rewrite lookup_empty.
  - by rewrite He.
  - intros readerIdx readerList Hl. exact (Hn readerIdx readerList Hl).
  - intros registered readerList n. split; [apply firsts_NoDup |]. split.
    + intros Hin config Hc Heq.
      apply firsts_not_registered in Hc as [Hc _]. congruence.
    + apply firsts_head.
Qed.

(** *** The names of a compiler only grow *)

Lemma Compile_fields v instrument :
  let v' := snd (fst (viewstate.Compile v instrument)) in
  viewstate.library v' = viewstate.library v
  ∧ viewstate.views v' = viewstate.views v
  ∧ viewstate.readers v' = viewstate.readers v
  ∧ viewstate.names v' = viewstate.cs_names (viewstate.compileViews v instrument).
Proof. done. Qed.

Lemma Compile_names v instrument readerIdx registered :
  length (viewstate.names v) = length (viewstate.readers v) →
  viewstate.names v !! readerIdx = Some registered →
  let v' := snd (fst (viewstate.Compile v instrument)) in
  length (viewstate.names v') = length (viewstate.readers v')
  ∧ ∃ readerList,
      viewstate.configsFor v instrument !! readerIdx = Some readerList
      ∧ viewstate.names v' !! readerIdx
        = Some (viewstate.namesOf readerList ∪ registered).
Proof.
  intros Hlen Hreg.
  destruct (compileViews_compiled v instrument Hlen) as [Hl _ Hn _ _].
  simpl in *. split; [lia |].
  destruct (lookup_lt_is_Some_2 (viewstate.configsFor v instrument) readerIdx)
    as [readerList Hrl].
  { rewrite configsFor_length, <- Hlen. by eapply lookup_lt_Some. }
  exists readerList. split; [done |].
  by rewrite (Hn readerIdx readerList Hrl), Hreg.
Qed.

Lemma compileAll_names instruments : ∀ v readerIdx registered,
  length (viewstate.names v) = length (viewstate.readers v) →
  viewstate.names v !! readerIdx = Some registered →
  let v' := viewstate.compileAll v instruments in
  length (viewstate.names v') = length (viewstate.readers v')
  ∧ viewstate.readers v' = viewstate.readers v
  ∧ ∃ registered',
      viewstate.names v' !! readerIdx = Some registered'
      ∧ registered ⊆ registered'.
Proof.
  induction instruments as [| instrument rest IH];
    intros v readerIdx registered Hlen Hreg.
  - simpl. split; [done |]. split; [done |]. by exists registered.
  - cbn [viewstate.compileAll foldl].
    destruct (Compile_names v instrument readerIdx registered Hlen Hreg)
      as (Hlen1 & readerList & _ & Hreg1).
    destruct (IH _ readerIdx _ Hlen1 Hreg1) as (Hlen2 & Hr2 & reg2 & Hreg2 & Hsub).
    split; [done |]. split; [done |].
    exists reg2. split; [done |].
    intros x Hx. apply Hsub. apply elem_of_union. by right.
Qed.

Lemma namesOf_elem config readerList :
  config ∈ readerList →
  viewstate.behaviorName config ∈ viewstate.namesOf readerList.
Proof.
  intros Hin. unfold viewstate.namesOf. apply elem_of_list_to_set.
  apply list_elem_of_fmap. by exists config.
Qed.

Lemma firsts_length_lt registered readerList config :
  config ∈ readerList →
  viewstate.behaviorName config ∈ registered →
  length (viewstate.firsts registered readerList) < length readerList.
Proof.
  revert registered. induction readerList as [| c rest IH];
    intros registered Hin Hreg.
  - by apply not_elem_of_nil in Hin.
  - simpl. case_decide as Hc.
    + pose proof (firsts_length registered rest). lia.
    + apply elem_of_cons in Hin as [-> | Hin]; [done |].
      assert (Hreg' : viewstate.behaviorName config
                      ∈ {[viewstate.behaviorName c]} ∪ registered).
      { apply elem_of_union. by right. }
      pose proof (IH _ Hin Hreg'). simpl. lia.
Qed.

(** The views of a reader pointer come from the first behaviors of the
    positions of that pointer. *)
Lemma builtFor_elem readers ns ρ configs one : ∀ readerIdx,
  one ∈ viewstate.builtFor readers ns ρ readerIdx configs →
  ∃ k readerList config,
    configs !! k = Some readerList
    ∧ reader.ptr <$> readers !! (readerIdx + k) = Some ρ
    ∧ config ∈ viewstate.firsts (default ∅ (ns !! (readerIdx + k))) readerList
    ∧ one = viewstate.buildViewFor config.
Proof.
  induction configs as [| readerList rest IH]; intros readerIdx Hin.
  - by apply not_elem_of_nil in Hin.
  - simpl in Hin. apply elem_of_app in Hin as [Hin | Hin].
    + case_decide as Hptr; [| by apply not_elem_of_nil in Hin].
      apply list_elem_of_fmap in Hin as (config & -> & Hin).
      exists 0, readerList, config. rewrite Nat.add_0_r. done.
    + destruct (IH _ Hin) as (k & rl & config & Hk & Hptr & Hc & ->).
      exists (S k), rl, config.
      replace (readerIdx + S k) with (S readerIdx + k) by lia. done.
Qed.

Lemma duplicatesFrom_pos ns configs : ∀ readerIdx k readerList config,
  configs !! k = Some readerList →
  config ∈ readerList →
  viewstate.behaviorName config ∈ default ∅ (ns !! (readerIdx + k)) →
  0 < viewstate.duplicatesFrom ns readerIdx configs.
Proof.
  induction configs as [| rl rest IH]; intros readerIdx k readerList config Hk Hin Hreg.
  - done.
  - simpl. destruct k as [| k].
    + simpl in Hk. injection Hk as ->. rewrite Nat.add_0_r in Hreg.
      pose proof (firsts_length_lt _ _ _ Hin Hreg). lia.
    + simpl in Hk.
      replace (readerIdx + S k) with (S readerIdx + k) in Hreg by lia.
      pose proof (IH _ _ _ _ Hk Hin Hreg). lia.
Qed.

(** C10: the names registered for a reader stay registered for the whole
    life of the compiler.  Once a Compile has met a behavior under some name
    for a reader, then, after any further instruments were compiled, a
    Compile that meets a behavior under the same name for that reader builds
    no view of that name for the reader and reports the duplicate name. *)
Theorem C10_registered_names_persist
    v instrument1 between instrument2 readerIdx r
    readerList1 config1 readerList2 config2 :
  length (viewstate.names v) = length (viewstate.readers v) →
  NoDup (reader.ptr <$> viewstate.readers v) →
  viewstate.readers v !! readerIdx = Some r →
  viewstate.configsFor v instrument1 !! readerIdx = Some readerList1 →
  config1 ∈ readerList1 →
  let v' :=
    viewstate.compileAll
      (snd (fst (viewstate.Compile v instrument1))) between in
  viewstate.configsFor v' instrument2 !! readerIdx = Some readerList2 →
  config2 ∈ readerList2 →
  viewstate.behaviorName config2 = viewstate.behaviorName config1 →
  let st := viewstate.compileViews v' instrument2 in
  (∀ one, one ∈ default [] (viewstate.cs_compiled st !! reader.ptr r) →
          viewstate.viewName one ≠ viewstate.behaviorName config1)
  ∧ viewstate.duplicateViewName ∈ viewstate.cs_errors st.
Proof.
  intros Hlen Hnd Hr Hrl1 Hin1 v' Hrl2 Hin2 Hname st.
  destruct (lookup_lt_is_Some_2 (viewstate.names v) readerIdx)
    as [registered Hreg].
  { rewrite Hlen. by eapply lookup_lt_Some. }
  destruct (Compile_names v instrument1 readerIdx registered Hlen Hreg)
    as (Hlen1 & rl & Hrl & Hreg1).
  assert (rl = readerList1) as -> by congruence.
  destruct (compileAll_names between _ readerIdx _ Hlen1 Hreg1)
    as (Hlen2 & Hreaders & registered' & Hreg2 & Hsub).
  fold v' in Hlen2, Hreaders, Hreg2.
  change (viewstate.readers (snd (fst (viewstate.Compile v instrument1))))
    with (viewstate.readers v) in Hreaders.
  assert (Hregistered : viewstate.behaviorName config1 ∈ registered').
  { apply Hsub. apply elem_of_union. left. by apply namesOf_elem. }
  destruct (compileViews_compiled v' instrument2 Hlen2) as [_ _ _ Hv He].
  fold st in Hv, He. simpl in Hv, He. split.
  - intros one Hone. rewrite (Hv (reader.ptr r)), lookup_empty in Hone.
    simpl in Hone.
    apply builtFor_elem in Hone as (k & rl & config & Hk & Hptr & Hc & ->).
    simpl in Hptr, Hc. rewrite viewName_buildViewFor.
    assert (k = readerIdx) as ->.
    { rewrite Hreaders in Hptr.
      destruct (viewstate.readers v !! k) as [r' |] eqn:Hr';
        simpl in Hptr; [| discriminate].
      injection Hptr as Hptr.
      eapply (NoDup_lookup _ _ _ _ Hnd).
      - by rewrite list_lookup_fmap, Hr'.
      - rewrite list_lookup_fmap, Hr. simpl. by rewrite Hptr. }
    rewrite Hreg2 in Hc. simpl in Hc.
    apply firsts_not_registered in Hc as [Hc _]. congruence.
  - rewrite He.
    assert (0 < viewstate.duplicatesFrom (viewstate.names v') 0
                  (viewstate.configsFor v' instrument2)) as Hpos.
    { eapply (duplicatesFrom_pos _ _ 0 readerIdx); [done | done |].
      simpl. rewrite Hreg2. simpl. by rewrite Hname. }
    destruct (viewstate.duplicatesFrom _ _ _) as [| n]; [lia |].
    simpl. apply list_elem_of_here.
Qed.

End CompilerClaims.

Section CompilerResult.
Context `{!attribute.Model} `{!histogram.Model}.

Lemma viewDescriptor_fields
    (instrument : sdkinstrument.Descriptor) (view : views.View) :
  viewstate.viewDescriptor instrument view
  = sdkinstrument.NewDescriptor
      (if views.HasName view then views.Name view
       else sdkinstrument.Name instrument)
      (sdkinstrument.InstrumentKind instrument)
      (sdkinstrument.NumberKind instrument)
      (sdkinstrument.Description instrument)
      (sdkinstrument.Unit instrument).
Proof.
  unfold viewstate.viewDescriptor. simpl. by case_decide.
Qed.

(** C4: the descriptor of a view keeps the description of the instrument,
    whatever description the view gives: the view's description is tested
    (line 267) and the instrument's is assigned again (line 268).  Only the
    name follows the view. *)
Theorem C4_view_description_is_ignored
    (instrument : sdkinstrument.Descriptor) (view : views.View) :
  let desc := viewstate.viewDescriptor instrument view in
  sdkinstrument.Description desc = sdkinstrument.Description instrument
  ∧ sdkinstrument.Name desc
    = (if views.HasName view then views.Name view
       else sdkinstrument.Name instrument)
  ∧ sdkinstrument.InstrumentKind desc = sdkinstrument.InstrumentKind instrument
  ∧ sdkinstrument.NumberKind desc = sdkinstrument.NumberKind instrument
  ∧ sdkinstrument.Unit desc = sdkinstrument.Unit instrument.
Proof.
  cbv zeta. by rewrite viewDescriptor_fields.
Qed.

(** The descriptor of every behavior of a reader is the instrument's or the
    one [viewDescriptor] makes of it: the description is the instrument's. *)
Lemma readerConfigs_description instrument matches r config :
  config ∈ viewstate.readerConfigs instrument matches r →
  sdkinstrument.Description (viewstate.config_desc config)
  = sdkinstrument.Description instrument.
Proof.
  unfold viewstate.readerConfigs. intros Hin.
  apply elem_of_app in Hin as [Hin | Hin].
  - apply list_elem_of_omap in Hin as (view & _ & Hview).
    unfold viewstate.viewBehavior in Hview.
    destruct (views.Aggregation view);
      cbn [decide fst snd] in Hview;
      try case_decide; simplify_eq;
      cbn [viewstate.config_desc]; by rewrite ?viewDescriptor_fields.
  - case_decide; [| by apply not_elem_of_nil in Hin].
    unfold viewstate.defaultBehavior in Hin.
    case_decide; [by apply not_elem_of_nil in Hin |].
    apply list_elem_of_singleton in Hin as ->. done.
Qed.

(** [Compile] returns the nil instrument exactly when no view was built. *)
Lemma wrap_None instrument (compiled : gmap nat (list viewstate.View)) :
  viewstate.wrap instrument compiled = None ↔ compiled = ∅.
Proof.
  unfold viewstate.wrap. split.
  - intros Hw. apply map_size_empty_iff.
    destruct (size compiled) as [| [| n]]; [done | |].
    + by destruct (map_to_list compiled) as [| [? [| ? [| ? ?]]] [| ? ?]].
    + done.
  - intros ->. by rewrite map_size_empty.
Qed.

End CompilerResult.

(** ** Observers *)

Section Observers.
Context `{!attribute.Model} {I A W N : Type}.
Context `{!asyncstate.Views I A W N} `{!aggregator.Range N}.
Implicit Types (w : asyncstate.World A W) (i : asyncstate.Instrument I).
Implicit Types (o : asyncstate.Observer I) (rc : asyncstate.readerCallback).

Lemma NewInstrument_stores_fold a (readers : list reader.Reader)
    (k : nat * nat) :
  ∀ st : gmap (nat * nat) (gmap attribute.Set_ A),
    (∃ r, r ∈ readers ∧ k = (a, reader.ptr r)) ∨ st !! k = Some ∅ →
    foldl (λ st r, <[(a, reader.ptr r) := ∅]> st) st readers !! k = Some ∅.
Proof.
  induction readers as [| r0 rest IH]; intros st Hk.
  - destruct Hk as [(r & Hin & _) | Hk]; [| done].
    by apply not_elem_of_nil in Hin.
  - simpl. apply IH.
    destruct Hk as [(r & Hin & ->) | Hk].
    + apply elem_of_cons in Hin as [-> | Hin].
      * right. apply lookup_insert_eq.
      * left. by exists r.
    + right. destruct (decide ((a, reader.ptr r0) = k)) as [<- | Hne].
      * apply lookup_insert_eq.
      * by rewrite lookup_insert_ne.
Qed.

(** [NewInstrument] gives the instrument an empty store for every reader. *)
Lemma NewInstrument_stores desc (compiled : option I) readers w r :
  r ∈ readers →
  let '(i, w') := asyncstate.NewInstrument desc compiled readers w in
  asyncstate.compiled i = compiled
  ∧ asyncstate.descriptor i = desc
  ∧ asyncstate.stores w' !! (asyncstate.addr i, reader.ptr r) = Some ∅.
Proof.
  intros Hin. simpl. split; [done |]. split; [done |].
  apply NewInstrument_stores_fold. left. by exists r.
Qed.

(** [get] on an instrument whose compiled instrument is nil calls
    [NewAccumulator] on the nil interface. *)
Lemma get_nil_compiled i r attrs w store :
  asyncstate.stores w !! (asyncstate.addr i, r) = Some store →
  store !! attribute.NewSet attrs = None →
  asyncstate.compiled i = None →
  asyncstate.get i r attrs w = Panic asyncstate.nil_dereference.
Proof.
  intros Hs Ha Hc. unfold asyncstate.get. by rewrite Hs, Ha, Hc.
Qed.

(** An observation of an instrument the callback did not declare is
    processed like a declared one, once the error is handled. *)
Lemma Observe_undeclared i rc value attrs w :
  Some (asyncstate.addr i) ∉ asyncstate.Callback_instruments rc →
  asyncstate.Observe (asyncstate.NewObserver (Some i)) (Some rc) value attrs w
  = asyncstate.Observe (asyncstate.NewObserver (Some i))
      (Some {| asyncstate.Config := asyncstate.Config rc;
               asyncstate.Callback_instruments :=
                 {[Some (asyncstate.addr i)]}
                 ∪ asyncstate.Callback_instruments rc |})
      value attrs (asyncstate.Handle asyncstate.notDeclared w).
Proof.
  intros Hn. unfold asyncstate.Observe. simpl.
  rewrite decide_False by done. rewrite decide_True; [done |].
  apply elem_of_union. left. by apply elem_of_singleton.
Qed.

(** C7, as amended: an Observe outside of a callback (no reader-callback
    value in the context) creates and updates no accumulator; when the
    observer has an instrument it reports the scope violation, and when the
    observer's instrument is nil it reports nothing. *)
Theorem C7_observe_outside_callback o (value : N) attrs w :
  ∃ w',
    asyncstate.Observe o None value attrs w = Ok w'
    ∧ asyncstate.views_state w' = asyncstate.views_state w
    ∧ asyncstate.stores w' = asyncstate.stores w
    ∧ asyncstate.handled w'
      = asyncstate.handled w
        ++ match asyncstate.inst o with
           | Some _ => [asyncstate.usedOutsideCallback]
           | None => []
           end.
Proof.
  unfold asyncstate.Observe. destruct (asyncstate.inst o) as [i |].
  - by eexists.
  - exists w. by rewrite app_nil_r.
Qed.

End Observers.

Section NilInstrument.
Context `{!attribute.Model} `{!histogram.Model} {A W N : Type}.
Context `{!asyncstate.Views viewstate.Instrument A W N} `{!aggregator.Range N}.

(** C6: when [Compile] returns the nil instrument, the asynchronous
    instrument built around it is not nil, and an Observe of an in-range
    value inside a callback of a reader of the instrument reaches
    [Instrument.get], which calls [NewAccumulator] on the nil interface:
    the measurement is not discarded, the call panics. *)
Theorem C6_observe_on_nil_compiled_instrument_panics
    (v : viewstate.Compiler) (readers : list reader.Reader)
    (desc : sdkinstrument.Descriptor) (w : asyncstate.World A W)
    (r : reader.Reader) (rc : asyncstate.readerCallback)
    (value : N) (attrs : list attribute.KeyValue) :
  fst (fst (viewstate.Compile v desc)) = None →
  r ∈ readers →
  asyncstate.Config rc = reader.ptr r →
  aggregator.RangeTest value desc = None →
  let '(inst, _, w') := metric.newAsyncInst v readers desc w in
  asyncstate.compiled inst = None
  ∧ asyncstate.Observe (asyncstate.NewObserver (Some inst)) (Some rc)
      value attrs w'
    = Panic asyncstate.nil_dereference.
Proof.
  intros Hnil Hr Hrc Hrange. unfold metric.newAsyncInst.
  destruct (viewstate.Compile v desc) as [[compiled v'] errs].
  simpl in Hnil. subst compiled.
  set (w1 := {| asyncstate.views_state := asyncstate.views_state w;
                asyncstate.stores := asyncstate.stores w;
                asyncstate.handled := asyncstate.handled w ++ errs;
                asyncstate.next_addr := asyncstate.next_addr w |}).
  pose proof (NewInstrument_stores desc (None : option viewstate.Instrument)
                readers w1 r Hr) as Hnew.
  destruct (asyncstate.NewInstrument desc None readers w1) as [inst w'].
  destruct Hnew as (Hc & Hd & Hs). split; [done |].
  unfold asyncstate.Observe. cbn [asyncstate.NewObserver asyncstate.inst].
  rewrite Hd, Hrange, Hrc.
  rewrite (get_nil_compiled inst (reader.ptr r) attrs _ ∅); [done | | done | done].
  by case_decide.
Qed.

End NilInstrument.

(** ** The scenarios *)

Section Scenarios.
#[local] Existing Instance scenario.attributes.
#[local] Existing Instance scenario.no_histogram.
#[local] Existing Instance scenario.int64_zero.
#[local] Existing Instance scenario.int64_any.

(** C1: seed scenario 2 on the code, with the Sum kernel and the
    [Merge(src, dst)] that [Accumulate] relies on.  After +3, +4, +5 the cell
    holds 12, and the series of the first delta collection shows 0: Collect
    calls [Merge(ns, storage)], which folds the fresh storage into the cell,
    resets the cell and emits the fresh storage.  After a further +1 the
    cell holds 1 and the second collection shows 0 again.  The timestamps
    are [seq.Last] and [seq.Now]. *)
Theorem C1_delta_sync_collect_emits_fresh_storage :
  (let '(_, _, h, accumulated, output) :=
     scenario.delta_sync_first scenario.sum_Methods in
   accumulated = 12%Z
   ∧ scenario.emitted h output
     = [([("a", 1%Z)], 0%Z, scenario.t0, scenario.t1)])
  ∧ (let '(_, _, h, accumulated, output) :=
       scenario.delta_sync_second scenario.sum_Methods in
     accumulated = 1%Z
     ∧ scenario.emitted h output
       = [([("a", 1%Z)], 0%Z, scenario.t1, scenario.t2)]).
Proof. vm_compute. done. Qed.

(** With the arguments of Merge in the other order, [Merge(dst, src)], the
    collection would copy, but [Accumulate] then never reaches the cell:
    after +3, +4, +5 the cell holds 0 and the first collection has no
    series. *)
Lemma delta_sync_first_dst_first :
  let '(_, _, h, accumulated, output) :=
    scenario.delta_sync_first scenario.sum_Methods_dst_first in
  accumulated = 0%Z ∧ scenario.emitted h output = [].
Proof. vm_compute. done. Qed.

(** Seed scenario 4 on the code: the first delta collection of the counter
    observer shows the cumulative 100, the second the difference 40. *)
Lemma delta_async_scenario :
  (let '(_, h, output) := scenario.delta_async_first scenario.sum_Methods in
   scenario.emitted h output
   = [([("a", 1%Z)], 100%Z, scenario.t0, scenario.t1)])
  ∧ (let '(_, h, output) := scenario.delta_async_second scenario.sum_Methods in
     scenario.emitted h output
     = [([("a", 1%Z)], 40%Z, scenario.t0, scenario.t2)]).
Proof. vm_compute. done. Qed.

(** A view with a name and a description: the compiled view has the view's
    name and the instrument's description. *)
Lemma renaming_view_keeps_description :
  (λ one, viewstate.desc (viewstate.processMetric (viewstate.view_process one)))
    <$> viewstate.viewsOf
          (fst (fst (viewstate.Compile
                       (viewstate.New scenario.library [scenario.renaming_view]
                          [scenario.delta_reader])
                       scenario.counter)))
  = [sdkinstrument.NewDescriptor "renamed" sdkinstrument.CounterKind
       number.Int64Kind "number of requests" "1"].
Proof. vm_compute. done. Qed.

(** C8: an Observe of 5 on [{a:1}] inside a callback that did not declare
    the instrument: the error is handled, and the observation is
    range-tested and routed all the same, a new accumulator is in the
    reader's store and holds the value 5. *)
Theorem C8_undeclared_observation_reaches_accumulator :
  match scenario.undeclared_observation with
  | Ok w =>
      asyncstate.handled w = [asyncstate.notDeclared]
      ∧ asyncstate.stores w !! (0, reader.ptr scenario.delta_reader)
        = Some {[ [("a", 1%Z)] := 0 ]}
      ∧ viewstate.ac_current
          <$> scenario.av_accumulators (asyncstate.views_state w)
        = [5%Z]
  | Panic _ => False
  end.
Proof. vm_compute. done. Qed.

(** C7, a counterexample to the claim as stated: an Observe outside of any
    callback on an observer whose instrument is nil returns at line 141; no
    error reaches the handler. *)
Lemma C7_nil_observer_reports_nothing :
  scenario.nil_observation = Ok (scenario.world0 scenario.counter_observer)
  ∧ asyncstate.handled (scenario.world0 scenario.counter_observer) = [].
Proof. vm_compute. done. Qed.

End Scenarios.

(** ** The theorems at the scenarios *)

Section Witnesses.
#[local] Existing Instance scenario.attributes.
#[local] Existing Instance scenario.no_histogram.
#[local] Existing Instance scenario.int64_zero.
#[local] Existing Instance scenario.int64_any.
#[local] Existing Instance scenario.sum_Methods.

Lemma delta_sync_accumulated_sound :
  viewstate.sync_sound
    (scenario.delta_sync_metric scenario.sum_Methods)
    (scenario.delta_sync_heap scenario.sum_Methods).
Proof.
  split.
  - vm_compute. repeat constructor.
  - vm_compute. repeat constructor. by intros Hin%elem_of_nil.
Qed.

Lemma delta_sync_accumulated_cell :
  viewstate.data (scenario.delta_sync_metric scenario.sum_Methods)
    !! scenario.set_a1 = Some (0 : loc).
Proof. vm_compute. reflexivity. Qed.

Lemma C9_witness :
  viewstate.sync_sound
    (scenario.delta_sync_metric scenario.sum_Methods)
    (scenario.delta_sync_heap scenario.sum_Methods)
  ∧ viewstate.data (scenario.delta_sync_metric scenario.sum_Methods)
      !! scenario.set_a1 = Some (0 : loc)
  ∧ (let '(p', h', _) :=
       viewstate.statelessSyncProcess_Collect
         (scenario.delta_sync_metric scenario.sum_Methods)
         (scenario.delta_sync_heap scenario.sum_Methods) scenario.seq1 [] in
     viewstate.data p' !! scenario.set_a1 = Some (0 : loc)
     ∧ load h' 0 = 0%Z).
Proof.
  split; [exact delta_sync_accumulated_sound |].
  split; [exact delta_sync_accumulated_cell |].
  pose proof (C9_delta_sync_collect_sweeps_empty_cells
           (scenario.delta_sync_metric scenario.sum_Methods)
           (scenario.delta_sync_heap scenario.sum_Methods) scenario.seq1 []
           (map_to_list
              (viewstate.data (scenario.delta_sync_metric scenario.sum_Methods)))
           scenario.set_a1 0
           delta_sync_accumulated_sound (reflexivity _)
           delta_sync_accumulated_cell) as Hc.
  vm_compute in Hc. vm_compute. exact Hc.
Defined.

Lemma delta_async_observed_sound :
  viewstate.async_sound
    (scenario.delta_async_process scenario.sum_Methods)
    (scenario.delta_async_heap scenario.sum_Methods).
Proof.
  split; [| split].
  - split; vm_compute; repeat constructor. by intros Hin%elem_of_nil.
  - split; vm_compute; repeat constructor. by intros Hin%elem_of_nil.
  - vm_compute. repeat constructor.
    intros Hin. inversion Hin as [| ? ? ? Hin']; inversion Hin'.
Qed.

Lemma delta_async_observed_cell :
  viewstate.data
    (viewstate.compiledAsyncInstrument
       (scenario.delta_async_process scenario.sum_Methods))
    !! scenario.set_a1 = Some (1 : loc).
Proof. vm_compute. reflexivity. Qed.

Lemma delta_async_observed_prior :
  viewstate.prior (scenario.delta_async_process scenario.sum_Methods)
    !! scenario.set_a1 = Some (0 : loc).
Proof. vm_compute. reflexivity. Qed.

(** C2 at seed scenario 4, before the second collection: the cumulative
    value is 140 and the prior value 100, the series shows the difference
    40 from [seq.Start] to [seq.Now]. *)
Lemma C2_witness :
  viewstate.async_sound
    (scenario.delta_async_process scenario.sum_Methods)
    (scenario.delta_async_heap scenario.sum_Methods)
  ∧ (let '(_, h', output') :=
       viewstate.statefulAsyncProcess_Collect
         (scenario.delta_async_process scenario.sum_Methods)
         (scenario.delta_async_heap scenario.sum_Methods) scenario.seq2 [] in
     scenario.emitted h' output'
     = [([("a", 1%Z)], 40%Z, scenario.t0, scenario.t2)]
     ∧ load h' 1 = 140%Z ∧ load h' 0 = 40%Z).
Proof.
  split; [exact delta_async_observed_sound |].
  pose proof (C2_delta_async_collect_emits_differences
           (scenario.delta_async_process scenario.sum_Methods)
           (scenario.delta_async_heap scenario.sum_Methods) scenario.seq2 []
           (map_to_list
              (viewstate.data
                 (viewstate.compiledAsyncInstrument
                    (scenario.delta_async_process scenario.sum_Methods))))
           delta_async_observed_sound (reflexivity _)) as Hc.
  unfold viewstate.statefulAsyncProcess_Collect.
  destruct (viewstate.statefulAsyncProcess_Collect_in _ _ _ _ _)
    as [[p' h'] output'].
  destruct Hc as [-> Hcells].
  destruct (Hcells _ _ delta_async_observed_cell) as [Hdata Hprior].
  rewrite delta_async_observed_prior in Hprior.
  destruct Hprior as [Hprior _].
  assert (Hcumulative : load h' 1 = 140%Z).
  { rewrite Hdata. vm_compute. reflexivity. }
  assert (Hdifference : load h' 0 = 40%Z).
  { rewrite Hprior. vm_compute. reflexivity. }
  split; [| by split].
  unfold scenario.emitted. rewrite last_snoc.
  cbn [reader.Instrument_Series].
  set (series := omap _ _). vm_compute in series. subst series.
  cbn [List.map viewstate.series_value reader.Aggregation reader.Attributes
       reader.Series_Start reader.Series_End].
  unfold viewstate.series_value. cbn [reader.Aggregation].
  by rewrite Hdifference.
Defined.

(** C3 at seed scenario 4, second collection: the prior map is the data
    map of before, with its cumulative value 140, and the data map is
    empty. *)
Lemma C3_witness :
  viewstate.async_sound
    (scenario.delta_async_process scenario.sum_Methods)
    (scenario.delta_async_heap scenario.sum_Methods)
  ∧ (let '(p', h', _) :=
       viewstate.statefulAsyncProcess_Collect
         (scenario.delta_async_process scenario.sum_Methods)
         (scenario.delta_async_heap scenario.sum_Methods) scenario.seq2 [] in
     viewstate.prior p' !! scenario.set_a1 = Some (1 : loc)
     ∧ viewstate.data (viewstate.compiledAsyncInstrument p') = ∅
     ∧ load h' 1 = 140%Z).
Proof.
  split; [exact delta_async_observed_sound |].
  pose proof (C3_delta_async_collect_moves_data_to_prior
           (scenario.delta_async_process scenario.sum_Methods)
           (scenario.delta_async_heap scenario.sum_Methods) scenario.seq2 []
           (map_to_list
              (viewstate.data
                 (viewstate.compiledAsyncInstrument
                    (scenario.delta_async_process scenario.sum_Methods))))
           delta_async_observed_sound (reflexivity _)) as Hc.
  unfold viewstate.statefulAsyncProcess_Collect.
  destruct (viewstate.statefulAsyncProcess_Collect_in _ _ _ _ _)
    as [[p' h'] output'].
  destruct Hc as (Hprior & Hdata & Hcells & _).
  assert (Hcell : viewstate.prior p' !! scenario.set_a1 = Some (1 : loc)).
  { rewrite Hprior. exact delta_async_observed_cell. }
  split; [exact Hcell |]. split; [exact Hdata |].
  rewrite (Hcells _ _ Hcell). vm_compute. reflexivity.
Defined.

(** C5 at a compiler with two readers and three views, two of which emit
    the instrument's name: each reader gets the views of the first two, and
    the third reports the duplicate name once per reader. *)
Lemma C5_witness :
  length (viewstate.names scenario.views_compiler)
  = length (viewstate.readers scenario.views_compiler)
  ∧ (let st := viewstate.compileViews scenario.views_compiler scenario.counter in
     viewstate.viewName
       <$> default [] (viewstate.cs_compiled st
                         !! reader.ptr scenario.delta_reader)
     = ["requests"; "renamed"]
     ∧ viewstate.cs_errors st
       = [viewstate.duplicateViewName; viewstate.duplicateViewName]).
Proof.
  assert (Hlen : length (viewstate.names scenario.views_compiler)
                 = length (viewstate.readers scenario.views_compiler)).
  { vm_compute. reflexivity. }
  split; [exact Hlen |].
  pose proof (C5_duplicate_name_builds_first_only
                scenario.views_compiler scenario.counter Hlen) as Hc.
  cbv zeta in Hc. destruct Hc as (Hviews & Herrors & _).
  cbv zeta. rewrite Hviews, Herrors. vm_compute. done.
Defined.

Lemma sum_compiler_length :
  length (viewstate.names scenario.sum_compiler)
  = length (viewstate.readers scenario.sum_compiler).
Proof. vm_compute. reflexivity. Qed.

Lemma sum_compiler_readers_NoDup :
  NoDup (reader.ptr <$> viewstate.readers scenario.sum_compiler).
Proof. vm_compute. repeat constructor. by intros Hin%elem_of_nil. Qed.

Lemma sum_compiler_counter :
  viewstate.configsFor scenario.sum_compiler scenario.counter !! 0
  = Some [scenario.counter_behavior].
Proof. vm_compute. reflexivity. Qed.

Lemma sum_compiler_histogram :
  viewstate.configsFor
    (viewstate.compileAll
       (snd (fst (viewstate.Compile scenario.sum_compiler scenario.counter)))
       [scenario.counter_observer])
    scenario.requests_histogram !! 0
  = Some [scenario.histogram_behavior].
Proof. vm_compute. reflexivity. Qed.

(** C10 at a compiler with one reader: the counter "requests" is compiled,
    then an observer, then a histogram that is also named "requests": the
    reader gets no view of that name and the duplicate name is reported. *)
Lemma C10_witness :
  length (viewstate.names scenario.sum_compiler)
  = length (viewstate.readers scenario.sum_compiler)
  ∧ NoDup (reader.ptr <$> viewstate.readers scenario.sum_compiler)
  ∧ viewstate.configsFor scenario.sum_compiler scenario.counter !! 0
    = Some [scenario.counter_behavior]
  ∧ viewstate.behaviorName scenario.histogram_behavior
    = viewstate.behaviorName scenario.counter_behavior
  ∧ (let st :=
       viewstate.compileViews
         (viewstate.compileAll
            (snd (fst (viewstate.Compile scenario.sum_compiler
                         scenario.counter)))
            [scenario.counter_observer])
         scenario.requests_histogram in
     (∀ one,
        one ∈ default [] (viewstate.cs_compiled st
                            !! reader.ptr scenario.delta_reader) →
        viewstate.viewName one
        ≠ viewstate.behaviorName scenario.counter_behavior)
     ∧ viewstate.duplicateViewName ∈ viewstate.cs_errors st).
Proof.
  split; [exact sum_compiler_length |].
  split; [exact sum_compiler_readers_NoDup |].
  split; [exact sum_compiler_counter |].
  split; [reflexivity |].
  exact (C10_registered_names_persist
           scenario.sum_compiler scenario.counter [scenario.counter_observer]
           scenario.requests_histogram 0 scenario.delta_reader
           [scenario.counter_behavior] scenario.counter_behavior
           [scenario.histogram_behavior] scenario.histogram_behavior
           sum_compiler_length sum_compiler_readers_NoDup eq_refl
           sum_compiler_counter (list_elem_of_here _ _)
           sum_compiler_histogram (list_elem_of_here _ _) eq_refl).
Defined.

End Witnesses.

Section NilInstrumentWitness.
#[local] Existing Instance scenario.attributes.
#[local] Existing Instance scenario.no_histogram.
#[local] Existing Instance scenario.int64_Range.
#[local] Existing Instance scenario.async_Views.

Lemma drop_compiler_nil :
  fst (fst (viewstate.Compile scenario.drop_compiler
              scenario.counter_observer)) = None.
Proof. vm_compute. reflexivity. Qed.

(** C6 at a compiler whose one reader drops every instrument: the compiled
    instrument of the counter observer is nil, and Observe(5, {a:1}) inside
    a callback of that reader that declared the instrument panics. *)
Lemma C6_witness :
  fst (fst (viewstate.Compile scenario.drop_compiler
              scenario.counter_observer)) = None
  ∧ aggregator.RangeTest 5%Z scenario.counter_observer = None
  ∧ (let '(inst, _, w') :=
       metric.newAsyncInst scenario.drop_compiler [scenario.drop_reader]
         scenario.counter_observer
         (scenario.world0 scenario.counter_observer) in
     asyncstate.compiled inst = None
     ∧ asyncstate.Observe (asyncstate.NewObserver (Some inst))
         (Some (scenario.callback_context scenario.drop_reader [0]))
         5%Z scenario.attrs_a1 w'
       = Panic asyncstate.nil_dereference).
Proof.
  split; [exact drop_compiler_nil |].
  split; [reflexivity |].
  exact (C6_observe_on_nil_compiled_instrument_panics
           scenario.drop_compiler [scenario.drop_reader]
           scenario.counter_observer
           (scenario.world0 scenario.counter_observer)
           scenario.drop_reader
           (scenario.callback_context scenario.drop_reader [0])
           5%Z scenario.attrs_a1
           drop_compiler_nil (list_elem_of_here _ _) eq_refl eq_refl).
Defined.

End NilInstrumentWitness.

(** * Further properties of the code *)

(** ** Storage cells and accumulators *)

Section OutputCells.
Context `{!attribute.Model} `{!histogram.Model}.
Context {N Storage : Type} `{!ZeroValue Storage} `{!number.Any N}.
Context `{!aggregator.Methods N Storage}.
Implicit Types (p : viewstate.baseMetric) (h : list Storage).

Lemma findOutput_again p h kvs kvs' :
  attribute.NewSetWithFiltered kvs' (viewstate.keys p)
  = attribute.NewSetWithFiltered kvs (viewstate.keys p) →
  let '(l, p', h') := viewstate.findOutput p h kvs in
  viewstate.findOutput p' h' kvs' = (l, p', h').
Proof.
  intros Hset. unfold viewstate.findOutput at 1.
  destruct (viewstate.data p !! _) as [l |] eqn:Hl.
  - unfold viewstate.findOutput. by rewrite Hset, Hl.
  - rewrite newStorage_eq. unfold viewstate.findOutput.
    cbn [viewstate.keys viewstate.data].
    by rewrite Hset, lookup_insert_eq.
Qed.

(** X1: two accumulators created for attribute lists that give one
    attribute set under the filter of the view share their output cell: the
    second [NewAccumulator] finds the cell of the first one in [data],
    allocates nothing and leaves the metric as it is.  This holds for the
    accumulators of synchronous and of asynchronous views. *)
Theorem X1_accumulators_of_one_attribute_set_share_the_cell p h kvs kvs' :
  attribute.NewSetWithFiltered kvs' (viewstate.keys p)
  = attribute.NewSetWithFiltered kvs (viewstate.keys p) →
  (let '(sc, p1, h1) := viewstate.NewAccumulator_sync p h kvs in
   let '(sc', p2, h2) := viewstate.NewAccumulator_sync p1 h1 kvs' in
   viewstate.sc_output sc' = viewstate.sc_output sc ∧ p2 = p1 ∧ h2 = h1)
  ∧ (let '(ac, p1, h1) := viewstate.NewAccumulator_async p h kvs in
     let '(ac', p2, h2) := viewstate.NewAccumulator_async p1 h1 kvs' in
     viewstate.ac_output ac' = viewstate.ac_output ac ∧ p2 = p1 ∧ h2 = h1).
Proof.
  intros Hset. pose proof (findOutput_again p h kvs kvs' Hset) as Hagain.
  unfold viewstate.NewAccumulator_sync, viewstate.NewAccumulator_async.
  destruct (viewstate.findOutput p h kvs) as [[l p1] h1].
  rewrite Hagain. done.
Qed.

(** X2: [findOutput] keeps the cells of a metric sound and touches nothing
    that exists: the attribute set of the call is bound to the cell it
    returns, every other attribute set keeps its binding, every allocated
    cell keeps its contents, and the descriptor, the aggregator configuration
    and the filter are unchanged.  For a known attribute set nothing changes
    at all; for a new one exactly one cell is allocated, initialised by
    [Init] on the zero storage. *)
Theorem X2_findOutput_allocates_at_most_one_cell p h kvs :
  viewstate.sync_sound p h →
  let set := attribute.NewSetWithFiltered kvs (viewstate.keys p) in
  let '(l, p', h') := viewstate.findOutput p h kvs in
  viewstate.sync_sound p' h'
  ∧ viewstate.data p' !! set = Some l
  ∧ (∀ set', set' ≠ set → viewstate.data p' !! set' = viewstate.data p !! set')
  ∧ (∀ l', l' < length h → load h' l' = load h l')
  ∧ viewstate.desc p' = viewstate.desc p
  ∧ viewstate.acfg p' = viewstate.acfg p
  ∧ viewstate.keys p' = viewstate.keys p
  ∧ match viewstate.data p !! set with
    | Some l0 => l = l0 ∧ p' = p ∧ h' = h
    | None =>
        l = length h
        ∧ h' = h ++ [aggregator.Init zero_value (viewstate.acfg p)]
    end.
Proof.
  intros Hsound set. pose proof (findOutput_sound p h kvs Hsound) as Hfind.
  unfold viewstate.findOutput in *. fold set in Hfind |- *.
  destruct (viewstate.data p !! set) as [l0 |] eqn:Hl0.
  - destruct Hfind as (Hs & Hl & _ & Hframe & _). done.
  - rewrite newStorage_eq in *.
    destruct Hfind as (Hs & Hl & _ & Hframe & _).
    cbn [viewstate.data viewstate.desc viewstate.acfg viewstate.keys] in *.
    split; [exact Hs |]. split; [exact Hl |].
    split; [| done].
    intros set' Hne. by rewrite lookup_insert_ne.
Qed.

End OutputCells.

(** ** The collection processes *)

Section CollectProcesses.
Context `{!attribute.Model} `{!histogram.Model}.
Context {N Storage : Type} `{!ZeroValue Storage}.
Context `{!aggregator.Methods N Storage}.
Implicit Types (p : viewstate.baseMetric) (h : list Storage).
Implicit Types (d : gmap attribute.Set_ loc) (seq : reader.Sequence).
Implicit Types (order es : list (attribute.Set_ * loc)).

Lemma statefulSync_loop seq es : ∀ series,
  foldl (viewstate.statefulSync_step seq) series es
  = series
    ++ ((λ e, {| reader.Attributes := fst e;
                 reader.Aggregation := snd e;
                 reader.Series_Start := reader.Last seq;
                 reader.Series_End := reader.Now seq |}) <$> es).
Proof.
  induction es as [| [set l] es IH]; intros series; cbn [foldl fmap list_fmap].
  - by rewrite app_nil_r.
  - rewrite IH. cbn [viewstate.statefulSync_step fst snd].
    by rewrite <- app_assoc.
Qed.

Lemma statelessAsync_loop seq es : ∀ series,
  foldl (viewstate.statelessAsync_step seq) series es
  = series
    ++ ((λ e, {| reader.Attributes := fst e;
                 reader.Aggregation := snd e;
                 reader.Series_Start := reader.Start seq;
                 reader.Series_End := reader.Now seq |}) <$> es).
Proof.
  induction es as [| [set l] es IH]; intros series; cbn [foldl fmap list_fmap].
  - by rewrite app_nil_r.
  - rewrite IH. cbn [viewstate.statelessAsync_step fst snd].
    by rewrite <- app_assoc.
Qed.

Lemma order_series d order (start stop : Z) (s : reader.Series) :
  order ≡ₚ map_to_list d →
  s ∈ (λ e, {| reader.Attributes := fst e;
               reader.Aggregation := snd e;
               reader.Series_Start := start;
               reader.Series_End := stop |}) <$> order
  ↔ ∃ set l,
      d !! set = Some l
      ∧ s = {| reader.Attributes := set;
               reader.Aggregation := l;
               reader.Series_Start := start;
               reader.Series_End := stop |}.
Proof.
  intros Horder. rewrite list_elem_of_fmap. split.
  - intros ([set l] & -> & Hin). exists set, l.
    split; [| done]. by apply (order_elem d order).
  - intros (set & l & Hl & ->). exists (set, l).
    split; [done |]. by apply (order_elem d order).
Qed.

Lemma order_length d order :
  order ≡ₚ map_to_list d → length order = size d.
Proof. intros ->. apply length_map_to_list. Qed.

(** X3: the collection of a synchronous view read with cumulative
    temporality appends one instrument, marked cumulative, with exactly one
    series for every attribute set of [data], whatever its cell holds.  Each
    series refers to the cell of the map itself, not to a copy, and covers
    the window from [seq.Last] to [seq.Now]. *)
Theorem X3_cumulative_sync_collect_lists_every_cell order p seq output :
  order ≡ₚ map_to_list (viewstate.data p) →
  ∃ series,
    viewstate.statefulSyncProcess_Collect_in order p seq output
    = output ++ [ {| reader.Instrument_Descriptor := viewstate.desc p;
                     reader.Temporality := aggregation.CumulativeTemporality;
                     reader.Instrument_Series := series |} ]
    ∧ length series = size (viewstate.data p)
    ∧ ∀ s, s ∈ series ↔
        ∃ set l,
          viewstate.data p !! set = Some l
          ∧ s = {| reader.Attributes := set;
                   reader.Aggregation := l;
                   reader.Series_Start := reader.Last seq;
                   reader.Series_End := reader.Now seq |}.
Proof.
  intros Horder. eexists. split; [| split].
  - unfold viewstate.statefulSyncProcess_Collect_in.
    rewrite statefulSync_loop. cbn [app]. reflexivity.
  - rewrite length_fmap. by apply order_length.
  - intros s. by apply order_series.
Qed.

(** X4: the collection of an asynchronous view read with cumulative
    temporality appends one instrument, marked cumulative, with exactly one
    series for every attribute set observed since the last collection, each
    referring to the cell of the map and covering the window from
    [seq.Start] to [seq.Now]; it then replaces [data] by an empty map and
    changes nothing else of the view. *)
Theorem X4_cumulative_async_collect_lists_and_forgets order p seq output :
  order ≡ₚ map_to_list (viewstate.data p) →
  ∃ series,
    viewstate.statelessAsyncProcess_Collect_in order p seq output
    = ({| viewstate.desc := viewstate.desc p;
          viewstate.acfg := viewstate.acfg p;
          viewstate.data := ∅;
          viewstate.keys := viewstate.keys p |},
       output ++ [ {| reader.Instrument_Descriptor := viewstate.desc p;
                      reader.Temporality := aggregation.CumulativeTemporality;
                      reader.Instrument_Series := series |} ])
    ∧ length series = size (viewstate.data p)
    ∧ ∀ s, s ∈ series ↔
        ∃ set l,
          viewstate.data p !! set = Some l
          ∧ s = {| reader.Attributes := set;
                   reader.Aggregation := l;
                   reader.Series_Start := reader.Start seq;
                   reader.Series_End := reader.Now seq |}.
Proof.
  intros Horder. eexists. split; [| split].
  - unfold viewstate.statelessAsyncProcess_Collect_in, viewstate.with_data.
    rewrite statelessAsync_loop. cbn [app]. reflexivity.
  - rewrite length_fmap. by apply order_length.
  - intros s. by apply order_series.
Qed.

(** X5: the collection of a synchronous view read with delta temporality
    keeps the cells of the view sound and appends one instrument, marked
    delta, with a series for every attribute set whose cell has data and for
    no other.  Each series refers to a storage allocated by this collection,
    which holds the first component of [Merge(ns, storage)] on the fresh
    storage and the cell, and covers the window from [seq.Last] to
    [seq.Now]. *)
Theorem X5_delta_sync_collect_series_are_the_cells_with_data
    p h seq output order :
  viewstate.sync_sound p h →
  order ≡ₚ map_to_list (viewstate.data p) →
  let '(p', h', output') :=
    viewstate.statelessSyncProcess_Collect_in order p h seq output in
  viewstate.sync_sound p' h'
  ∧ ∃ series,
      output'
      = output ++ [ {| reader.Instrument_Descriptor := viewstate.desc p;
                       reader.Temporality := aggregation.DeltaTemporality;
                       reader.Instrument_Series := series |} ]
      ∧ (∀ set l,
           viewstate.data p !! set = Some l →
           aggregator.HasData (load h l) = true →
           ∃ s, s ∈ series ∧ reader.Attributes s = set)
      ∧ (∀ s, s ∈ series →
           ∃ l,
             viewstate.data p !! reader.Attributes s = Some l
             ∧ aggregator.HasData (load h l) = true
             ∧ length h ≤ reader.Aggregation s < length h'
             ∧ load h' (reader.Aggregation s)
               = fst (aggregator.Merge
                        (aggregator.Init zero_value (viewstate.acfg p))
                        (load h l))
             ∧ reader.Series_Start s = reader.Last seq
             ∧ reader.Series_End s = reader.Now seq).
Proof.
  intros Hsound Horder.
  pose proof (statelessSync_Collect_sound p h seq output order Hsound Horder)
    as Hsound'.
  destruct (statelessSync_Collect_visited p h seq output order Hsound Horder)
    as (d' & h' & series & Heq & Hvisited).
  rewrite Heq in Hsound' |- *.
  destruct Hvisited as [_ _ _ _ Hvisited_data Hvisited_series].
  split; [exact Hsound' |]. exists series. split; [done |]. split.
  - intros set l Hl Hdata.
    assert (Hin : (set, l) ∈ order) by by apply (order_elem (viewstate.data p)).
    by destruct (Hvisited_data set l Hin Hdata) as (_ & _ & Hs).
  - intros s Hs.
    destruct (Hvisited_series s Hs)
      as (l & Hin & Hdata & Hrange & Hvalue & Hstart & Hend).
    exists l. split; [by apply (order_elem (viewstate.data p) order) |]. done.
Qed.

Lemma statelessSync_loop_no_data p seq h es : ∀ d series,
  Forall (λ e, aggregator.HasData (load h (snd e)) = false) es →
  foldl (viewstate.statelessSync_step p seq) (d, h, series) es
  = (foldl (λ d e, delete (fst e) d) d es, h, series).
Proof.
  induction es as [| [set l] es IH]; intros d series Hes; [done |].
  apply Forall_cons in Hes as [Hl Hes]. cbn [foldl fst snd] in *.
  rewrite statelessSync_step_empty by done. by apply IH.
Qed.

Lemma delete_all_lookup es : ∀ d (set : attribute.Set_),
  foldl (λ d e, delete (fst e) d) d es !! set
  = if decide (set ∈ es.*1) then None else d !! set.
Proof.
  induction es as [| [set' l] es IH]; intros d set; cbn [foldl fst].
  - rewrite decide_False; [done |]. cbn. by intros Hin%elem_of_nil.
  - rewrite IH. cbn [fmap list_fmap fst].
    destruct (decide (set ∈ es.*1)) as [Hin | Hnin].
    + rewrite decide_True; [done |]. by apply list_elem_of_further.
    + destruct (decide (set = set')) as [-> | Hne].
      * rewrite decide_True by apply list_elem_of_here.
        by rewrite lookup_delete_eq.
      * rewrite decide_False.
        -- by rewrite lookup_delete_ne.
        -- intros [Heq | Hin]%elem_of_cons; done.
Qed.

Lemma delete_all_entries d order :
  order ≡ₚ map_to_list d →
  foldl (λ d e, delete (fst e) d) d order = ∅.
Proof.
  intros Horder. apply map_eq. intros set.
  rewrite delete_all_lookup, lookup_empty.
  destruct (decide (set ∈ order.*1)) as [Hin | Hnin]; [done |].
  destruct (d !! set) as [l |] eqn:Hl; [| done].
  exfalso. apply Hnin. apply list_elem_of_fmap. exists (set, l).
  split; [done |]. by apply (order_elem d order).
Qed.

(** X6: when no cell of a synchronous delta view has data (nothing was
    recorded since the last collection, or the attribute sets were bound
    and never updated), the collection appends an instrument without
    series, removes every attribute set from [data] and leaves the storage
    as it is. *)
Theorem X6_delta_sync_collect_without_data_empties_the_view
    p h seq output order :
  order ≡ₚ map_to_list (viewstate.data p) →
  (∀ set l, viewstate.data p !! set = Some l →
            aggregator.HasData (load h l) = false) →
  viewstate.statelessSyncProcess_Collect_in order p h seq output
  = ({| viewstate.desc := viewstate.desc p;
        viewstate.acfg := viewstate.acfg p;
        viewstate.data := ∅;
        viewstate.keys := viewstate.keys p |},
     h,
     output ++ [ {| reader.Instrument_Descriptor := viewstate.desc p;
                    reader.Temporality := aggregation.DeltaTemporality;
                    reader.Instrument_Series := [] |} ]).
Proof.
  intros Horder Hempty.
  unfold viewstate.statelessSyncProcess_Collect_in.
  rewrite statelessSync_loop_no_data.
  - by rewrite delete_all_entries.
  - apply Forall_forall. intros [set l] Hin. cbn [snd].
    apply (Hempty set). by apply (order_elem _ order).
Qed.

(** X7: when no attribute set was observed since the last collection, the
    collection of an asynchronous delta view appends an instrument without
    series, leaves the storage as it is and forgets every prior value: the
    next value observed for an attribute set is then reported as it is, not
    as a difference. *)
Theorem X7_delta_async_collect_without_observation_forgets_prior
    (p : viewstate.statefulAsyncProcess) h seq output order :
  viewstate.data (viewstate.compiledAsyncInstrument p) = ∅ →
  order ≡ₚ map_to_list (viewstate.data (viewstate.compiledAsyncInstrument p)) →
  viewstate.statefulAsyncProcess_Collect_in order p h seq output
  = ({| viewstate.compiledAsyncInstrument := viewstate.compiledAsyncInstrument p;
        viewstate.prior := ∅ |},
     h,
     output ++ [ {| reader.Instrument_Descriptor :=
                      viewstate.desc (viewstate.compiledAsyncInstrument p);
                    reader.Temporality := aggregation.DeltaTemporality;
                    reader.Instrument_Series := [] |} ]).
Proof.
  intros Hdata Horder. rewrite Hdata, map_to_list_empty in Horder.
  apply Permutation_nil_r in Horder as ->.
  unfold viewstate.statefulAsyncProcess_Collect_in, viewstate.with_data.
  cbn [foldl]. rewrite Hdata.
  destruct p as [[pdesc pacfg pdata pkeys] pprior]. cbn in *. by subst.
Qed.

End CollectProcesses.

(** ** The view compiler *)

Section CompilerInvariants.
Context `{!attribute.Model} `{!histogram.Model}.
Implicit Types (v : viewstate.Compiler) (st : viewstate.compileState).
Implicit Types (config : viewstate.configuredBehavior).
Implicit Types (readerList : list viewstate.configuredBehavior).
Implicit Types (registered : gset string).

Lemma Compile_length v instrument :
  length (viewstate.names v) = length (viewstate.readers v) →
  let v' := snd (fst (viewstate.Compile v instrument)) in
  length (viewstate.names v') = length (viewstate.readers v').
Proof.
  intros Hlen.
  destruct (compileViews_compiled v instrument Hlen) as [Hl _ _ _ _].
  simpl in *. lia.
Qed.

Lemma compileAll_fields instruments : ∀ v,
  length (viewstate.names v) = length (viewstate.readers v) →
  let v' := viewstate.compileAll v instruments in
  viewstate.library v' = viewstate.library v
  ∧ viewstate.views v' = viewstate.views v
  ∧ viewstate.readers v' = viewstate.readers v
  ∧ length (viewstate.names v') = length (viewstate.readers v).
Proof.
  induction instruments as [| instrument rest IH]; intros v Hlen.
  - done.
  - cbn [viewstate.compileAll foldl].
    destruct (IH _ (Compile_length v instrument Hlen))
      as (Hlib & Hviews & Hreaders & Hnames).
    done.
Qed.

(** X8: a compiler made by [New] has one empty set of names per reader, and
    however many instruments it compiles afterwards, it keeps its library,
    its views and its readers, and [names] keeps one entry per reader: the
    index [v.names[readerIdx]] of [Compile] is always in range. *)
Theorem X8_compiler_keeps_one_name_set_per_reader
    (lib : instrumentation.Library) (views : list views.View)
    (readers : list reader.Reader)
    (instruments : list sdkinstrument.Descriptor) :
  viewstate.names (viewstate.New lib views readers)
  = replicate (length readers) ∅
  ∧ (let v := viewstate.compileAll (viewstate.New lib views readers)
                instruments in
     viewstate.library v = lib
     ∧ viewstate.views v = views
     ∧ viewstate.readers v = readers
     ∧ length (viewstate.names v) = length readers).
Proof.
  split.
  - cbn [viewstate.New viewstate.names].
    induction readers as [| r rest IH]; [done |]. cbn. by rewrite <- IH.
  - apply (compileAll_fields instruments (viewstate.New lib views readers)).
    cbn [viewstate.New viewstate.names viewstate.readers].
    apply length_fmap.
Qed.

Lemma readerConfigs_fields instrument matches r config :
  config ∈ viewstate.readerConfigs instrument matches r →
  viewstate.config_reader config = r
  ∧ viewstate.config_kind config ≠ aggregation.DropKind
  ∧ sdkinstrument.InstrumentKind (viewstate.config_desc config)
    = sdkinstrument.InstrumentKind instrument
  ∧ sdkinstrument.NumberKind (viewstate.config_desc config)
    = sdkinstrument.NumberKind instrument
  ∧ sdkinstrument.Unit (viewstate.config_desc config)
    = sdkinstrument.Unit instrument
  ∧ (sdkinstrument.Name (viewstate.config_desc config)
     = sdkinstrument.Name instrument
     ∨ ∃ view, view ∈ matches
               ∧ sdkinstrument.Name (viewstate.config_desc config)
                 = views.Name view)
  ∧ (viewstate.config_kind config
     = fst (reader.Defaults r (sdkinstrument.InstrumentKind instrument))
     ∨ ∃ view, view ∈ matches
               ∧ viewstate.config_kind config = views.Aggregation view).
Proof.
  unfold viewstate.readerConfigs. intros Hin.
  apply elem_of_app in Hin as [Hin | Hin].
  - apply list_elem_of_omap in Hin as (view & Hview_in & Hview).
    unfold viewstate.viewBehavior in Hview.
    assert (Hname :
      sdkinstrument.Name (viewstate.viewDescriptor instrument view)
      = sdkinstrument.Name instrument
      ∨ ∃ view', view' ∈ matches
                 ∧ sdkinstrument.Name (viewstate.viewDescriptor instrument view)
                   = views.Name view').
    { rewrite viewDescriptor_fields. cbn [sdkinstrument.Name].
      destruct (views.HasName view); [right; by exists view | by left]. }
    destruct (views.Aggregation view) eqn:Hagg;
      cbn [decide fst snd] in Hview;
      case_decide; simplify_eq;
      cbn [viewstate.config_desc viewstate.config_reader
           viewstate.config_kind];
      rewrite ?viewDescriptor_fields;
      cbn [sdkinstrument.InstrumentKind sdkinstrument.NumberKind
           sdkinstrument.Unit];
      (split; [done |]); (split; [done |]); (split; [done |]);
      (split; [done |]); (split; [done |]);
      (split; [by rewrite ?viewDescriptor_fields in Hname |]);
      first [ by left | right; exists view; by rewrite Hagg ].
  - case_decide; [| by apply not_elem_of_nil in Hin].
    unfold viewstate.defaultBehavior in Hin.
    case_decide; [by apply not_elem_of_nil in Hin |].
    apply list_elem_of_singleton in Hin as ->.
    cbn [viewstate.config_desc viewstate.config_reader viewstate.config_kind].
    repeat split; try done; by left.
Qed.


Lemma buildViewFor_eq config :
  let ikind := sdkinstrument.InstrumentKind (viewstate.config_desc config) in
  let metric :=
    {| viewstate.desc := viewstate.config_desc config;
       viewstate.acfg := viewstate.config_acfg config;
       viewstate.data := ∅;
       viewstate.keys := viewstate.config_keys config |} in
  viewstate.buildViewFor config
  = {| viewstate.view_number :=
         sdkinstrument.NumberKind (viewstate.config_desc config);
       viewstate.view_kernel :=
         match viewstate.config_kind config with
         | aggregation.LastValueKind => viewstate.lastvalue_State
         | aggregation.HistogramKind => viewstate.histogram_State
         | _ => viewstate.sum_State
         end;
       viewstate.view_process :=
         match sdkinstrument.Synchronous ikind,
               bool_decide (snd (reader.Defaults
                                   (viewstate.config_reader config) ikind)
                            = aggregation.DeltaTemporality) with
         | true, true => viewstate.StatelessSync metric
         | true, false => viewstate.StatefulSync metric
         | false, true =>
             viewstate.StatefulAsync
               {| viewstate.compiledAsyncInstrument := metric;
                  viewstate.prior := ∅ |}
         | false, false => viewstate.StatelessAsync metric
         end |}.
Proof.
  intros ikind metric. subst ikind metric.
  unfold viewstate.buildViewFor, viewstate.buildView, viewstate.compileSync,
    viewstate.compileAsync, viewstate.newSyncView, viewstate.newAsyncView.
  destruct (sdkinstrument.NumberKind _), (sdkinstrument.Synchronous _),
    (viewstate.config_kind config);
    cbv zeta; case_bool_decide; case_decide; done.
Qed.


(** X11: every view [Compile] builds for an instrument belongs to one of
    the compiler's readers, has the instrument's number kind, instrument
    kind and unit, starts without data, is a synchronous process exactly
    when the instrument is synchronous, and has a name that was not
    registered for that reader before. *)
Theorem X11_compiled_views_follow_the_instrument
    v (instrument : sdkinstrument.Descriptor) (ρ : nat) (one : viewstate.View) :
  length (viewstate.names v) = length (viewstate.readers v) →
  one ∈ default [] (viewstate.cs_compiled (viewstate.compileViews v instrument)
                      !! ρ) →
  let metric := viewstate.processMetric (viewstate.view_process one) in
  (∃ readerIdx r,
     viewstate.readers v !! readerIdx = Some r ∧ reader.ptr r = ρ
     ∧ viewstate.viewName one
       ∉ default ∅ (viewstate.names v !! readerIdx))
  ∧ viewstate.view_number one = sdkinstrument.NumberKind instrument
  ∧ sdkinstrument.NumberKind (viewstate.desc metric)
    = sdkinstrument.NumberKind instrument
  ∧ sdkinstrument.InstrumentKind (viewstate.desc metric)
    = sdkinstrument.InstrumentKind instrument
  ∧ sdkinstrument.Unit (viewstate.desc metric) = sdkinstrument.Unit instrument
  ∧ viewstate.data metric = ∅
  ∧ match viewstate.view_process one with
    | viewstate.StatelessSync _ | viewstate.StatefulSync _ =>
        sdkinstrument.Synchronous (sdkinstrument.InstrumentKind instrument)
        = true
    | viewstate.StatelessAsync _ | viewstate.StatefulAsync _ =>
        sdkinstrument.Synchronous (sdkinstrument.InstrumentKind instrument)
        = false
    end.
Proof.
  intros Hlen Hone metric.
  destruct (compileViews_compiled v instrument Hlen) as [_ _ _ Hviews _].
  rewrite Hviews in Hone. cbn [viewstate.cs_compiled viewstate.cs_names] in Hone.
  rewrite lookup_empty in Hone. cbn [default app] in Hone.
  apply builtFor_elem in Hone
    as (k & readerList & config & Hk & Hptr & Hconfig & ->).
  cbn [Nat.add] in *.
  apply firsts_not_registered in Hconfig as [Hfresh Hconfig].
  unfold viewstate.configsFor in Hk. rewrite list_lookup_fmap in Hk.
  destruct (viewstate.readers v !! k) as [r |] eqn:Hr; [| done].
  cbn in Hk, Hptr. simplify_eq.
  apply readerConfigs_fields in Hconfig
    as (_ & _ & Hikind & Hnkind & Hunit & _ & _).
  subst metric. split.
  { exists k, r. split; [done |]. split; [done |].
    by rewrite viewName_buildViewFor. }
  rewrite buildViewFor_eq. cbn [viewstate.view_number viewstate.view_process].
  rewrite Hikind.
  destruct (sdkinstrument.Synchronous _), (bool_decide _);
    cbn [viewstate.processMetric viewstate.desc viewstate.data
         viewstate.compiledAsyncInstrument];
    done.
Qed.

End CompilerInvariants.

Section CompilerResults.
Context `{!attribute.Model} `{!histogram.Model}.
Implicit Types (v : viewstate.Compiler) (st : viewstate.compileState).
Implicit Types (config : viewstate.configuredBehavior).
Implicit Types (readerList : list viewstate.configuredBehavior).
Implicit Types (registered : gset string).

Lemma wrap_singleton instrument (ρ : nat) (one : viewstate.View) :
  viewstate.wrap instrument {[ρ := [one]]} = Some (viewstate.single one).
Proof.
  unfold viewstate.wrap.
  by rewrite map_size_singleton, map_to_list_singleton.
Qed.

(** X12: [Compile] for a compiler with one reader when no view matches the
    instrument.  If the reader's default aggregation for the instrument
    kind is Drop, the result is the nil instrument, nothing is registered
    and no error is reported.  If the instrument's name is already
    registered for the reader, the result is the nil instrument as well,
    with one duplicate-name error.  Otherwise the result is the single view
    built for the instrument's own descriptor, the reader's default
    aggregation, no attribute filter and the zero aggregator configuration,
    and the name is registered. *)
Theorem X12_compile_without_view_for_one_reader
    v (instrument : sdkinstrument.Descriptor) (r : reader.Reader) registered :
  viewstate.matching v instrument = [] →
  viewstate.readers v = [r] →
  viewstate.names v = [registered] →
  let kind :=
    fst (reader.Defaults r (sdkinstrument.InstrumentKind instrument)) in
  viewstate.Compile v instrument
  = if decide (kind = aggregation.DropKind) then (None, v, [])
    else if decide (sdkinstrument.Name instrument ∈ registered)
    then (None, v, [viewstate.duplicateViewName])
    else
      (Some (viewstate.single
               (viewstate.buildViewFor
                  {| viewstate.config_desc := instrument;
                     viewstate.config_kind := kind;
                     viewstate.config_keys := None;
                     viewstate.config_acfg := zero_value;
                     viewstate.config_reader := r |})),
       {| viewstate.library := viewstate.library v;
          viewstate.views := viewstate.views v;
          viewstate.readers := [r];
          viewstate.names :=
            [{[sdkinstrument.Name instrument]} ∪ registered] |},
       []).
Proof.
  intros Hmatching Hreaders Hnames kind.
  unfold viewstate.Compile, viewstate.compileViews, viewstate.configsFor.
  rewrite Hmatching, Hreaders, Hnames.
  unfold viewstate.readerConfigs, viewstate.defaultBehavior,
    viewstate.aggregatorConfigFor.
  cbn [omap list_omap length app fmap list_fmap].
  rewrite (decide_True (P := 0 = 0)) by done. fold kind.
  destruct v as [vlib vviews vreaders vnames]. cbn in Hreaders, Hnames.
  cbn [viewstate.library viewstate.views]. subst vreaders vnames.
  destruct (decide (kind = aggregation.DropKind)) as [Hdrop | Hkeep].
  - cbn [viewstate.compileReaders lookup list_lookup foldl
         viewstate.cs_names viewstate.cs_compiled viewstate.cs_errors].
    by rewrite (proj2 (wrap_None instrument ∅) eq_refl).
  - cbn [viewstate.compileReaders lookup list_lookup foldl].
    destruct (decide (sdkinstrument.Name instrument ∈ registered))
      as [Hdup | Hnew].
    + erewrite compileConfig_registered; [| reflexivity | exact Hdup].
      cbn [viewstate.cs_names viewstate.cs_compiled viewstate.cs_errors app].
      by rewrite (proj2 (wrap_None instrument ∅) eq_refl).
    + erewrite compileConfig_new; [| reflexivity | exact Hnew].
      cbn [viewstate.cs_names viewstate.cs_compiled viewstate.cs_errors
           viewstate.behaviorName viewstate.config_desc].
      rewrite lookup_empty. cbn [default app].
      rewrite insert_empty, wrap_singleton. reflexivity.
Qed.

Lemma compileConfig_loop_registered readerIdx r readerList : ∀ st registered,
  viewstate.cs_names st !! readerIdx = Some registered →
  (∀ config, config ∈ readerList →
             viewstate.behaviorName config ∈ registered) →
  foldl (viewstate.compileConfig readerIdx r) st readerList
  = {| viewstate.cs_names := viewstate.cs_names st;
       viewstate.cs_compiled := viewstate.cs_compiled st;
       viewstate.cs_errors :=
         viewstate.cs_errors st
         ++ replicate (length readerList) viewstate.duplicateViewName |}.
Proof.
  induction readerList as [| config rest IH]; intros st registered Hreg Hall.
  - cbn. rewrite app_nil_r. by destruct st.
  - cbn [foldl].
    rewrite (compileConfig_registered readerIdx r st registered config Hreg)
      by (apply Hall, list_elem_of_here).
    erewrite IH; [| exact Hreg |].
    + cbn [viewstate.cs_names viewstate.cs_compiled viewstate.cs_errors
           length replicate].
      by rewrite <- app_assoc.
    + intros config' Hin. by apply Hall, list_elem_of_further.
Qed.

Lemma compileReaders_registered (readers : list reader.Reader)
    (configs : list (list viewstate.configuredBehavior)) : ∀ readerIdx st,
  readerIdx + length configs = length readers →
  (∀ k readerList,
     configs !! k = Some readerList →
     ∃ registered,
       viewstate.cs_names st !! (readerIdx + k) = Some registered
       ∧ ∀ config, config ∈ readerList →
                   viewstate.behaviorName config ∈ registered) →
  viewstate.compileReaders readers readerIdx configs st
  = {| viewstate.cs_names := viewstate.cs_names st;
       viewstate.cs_compiled := viewstate.cs_compiled st;
       viewstate.cs_errors :=
         viewstate.cs_errors st
         ++ replicate (length (concat configs)) viewstate.duplicateViewName |}.
Proof.
  induction configs as [| readerList rest IH]; intros readerIdx st Hlen Hall.
  - cbn. rewrite app_nil_r. by destruct st.
  - cbn [viewstate.compileReaders]. cbn [length] in Hlen.
    destruct (lookup_lt_is_Some_2 readers readerIdx) as [r Hr]; [lia |].
    rewrite Hr.
    destruct (Hall 0 readerList eq_refl) as (registered & Hreg & Hnames).
    rewrite Nat.add_0_r in Hreg.
    rewrite (compileConfig_loop_registered readerIdx r readerList st
               registered Hreg Hnames).
    rewrite IH.
    + cbn [viewstate.cs_names viewstate.cs_compiled viewstate.cs_errors concat].
      by rewrite length_app, replicate_add, app_assoc.
    + lia.
    + intros k readerList' Hk.
      cbn [viewstate.cs_names].
      destruct (Hall (S k) readerList' Hk) as (registered' & Hreg' & Hnames').
      exists registered'. split; [| done].
      by replace (S readerIdx + k) with (readerIdx + S k) by lia.
Qed.

Lemma Compile_again
    v (instrument : sdkinstrument.Descriptor) :
  length (viewstate.names v) = length (viewstate.readers v) →
  let v' := snd (fst (viewstate.Compile v instrument)) in
  viewstate.Compile v' instrument
  = (None, v',
     replicate (length (concat (viewstate.configsFor v instrument)))
       viewstate.duplicateViewName).
Proof.
  intros Hlen v'.
  destruct (compileViews_compiled v instrument Hlen) as [_ _ Hnames _ _].
  cbn [viewstate.cs_names] in Hnames.
  assert (Hst :
    viewstate.compileViews v' instrument
    = {| viewstate.cs_names := viewstate.names v';
         viewstate.cs_compiled := ∅;
         viewstate.cs_errors :=
           replicate (length (concat (viewstate.configsFor v instrument)))
             viewstate.duplicateViewName |}).
  { unfold viewstate.compileViews.
    assert (Hconfigs : viewstate.configsFor v' instrument
                       = viewstate.configsFor v instrument) by done.
    rewrite Hconfigs. rewrite compileReaders_registered.
    - done.
    - by rewrite configsFor_length.
    - intros k readerList Hk. cbn [viewstate.cs_names Nat.add].
      eexists. split; [exact (Hnames k readerList Hk) |].
      intros config Hin. apply elem_of_union. left. by apply namesOf_elem. }
  unfold viewstate.Compile at 1. rewrite Hst.
  cbn [viewstate.cs_names viewstate.cs_compiled viewstate.cs_errors].
  rewrite (proj2 (wrap_None instrument ∅) eq_refl).
  subst v'. reflexivity.
Qed.

(** X13: compiling an instrument a second time builds nothing.  After
    [Compile] has run for an instrument, [Compile] for the same instrument
    returns the nil instrument, leaves the compiler as it is and reports
    one duplicate-name error for every behavior configured for every
    reader: all the names are registered by the first run. *)
Theorem X13_compiling_an_instrument_again_builds_nothing
    v (instrument : sdkinstrument.Descriptor) :
  length (viewstate.names v) = length (viewstate.readers v) →
  let v' := snd (fst (viewstate.Compile v instrument)) in
  viewstate.Compile v' instrument
  = (None, v',
     replicate (length (concat (viewstate.configsFor v instrument)))
       viewstate.duplicateViewName).
Proof. apply Compile_again. Qed.

(** X14: the final switch of [Compile].  The result is the nil instrument
    exactly when no view was built; it is a single view exactly when one
    reader got exactly one view, and no other reader any; in every other
    case it is the [multiInstrument] of the whole map, at the number kind
    of the instrument. *)
Theorem X14_compile_wraps_the_views_by_their_number
    (instrument : sdkinstrument.Descriptor)
    (compiled : gmap nat (list viewstate.View)) :
  match viewstate.wrap instrument compiled with
  | None => compiled = ∅
  | Some (viewstate.single one) => ∃ ρ, compiled = {[ρ := [one]]}
  | Some (viewstate.multiInstrument n mi) =>
      mi = compiled
      ∧ n = sdkinstrument.NumberKind instrument
      ∧ compiled ≠ ∅
      ∧ ∀ ρ one, compiled ≠ {[ρ := [one]]}
  end.
Proof.
  assert (Hmulti :
    ∀ n mi,
      (if decide (sdkinstrument.NumberKind instrument = number.Int64Kind)
       then viewstate.multiInstrument number.Int64Kind compiled
       else viewstate.multiInstrument number.Float64Kind compiled)
      = viewstate.multiInstrument n mi →
      mi = compiled ∧ n = sdkinstrument.NumberKind instrument).
  { intros n mi. case_decide as Hn; intros [= <- <-]; [done |].
    split; [done |]. by destruct (sdkinstrument.NumberKind instrument). }
  destruct (viewstate.wrap instrument compiled) as [[one | n mi] |] eqn:Hwrap.
  - unfold viewstate.wrap in Hwrap.
    destruct (size compiled) as [| [| k]] eqn:Hsize; [done | |].
    + destruct (map_to_list compiled) as [| [ρ [| one' [| ? ?]]] [| ? ?]]
        eqn:Hlist; try (case_decide; done).
      injection Hwrap as <-. exists ρ.
      rewrite <- (list_to_map_to_list compiled), Hlist. cbn.
      by rewrite insert_empty.
    + case_decide; done.
  - assert (Hne : compiled ≠ ∅).
    { intros ->. by rewrite (proj2 (wrap_None instrument ∅) eq_refl) in Hwrap. }
    assert (Hsingle : ∀ ρ one, compiled ≠ {[ρ := [one]]}).
    { intros ρ one ->. by rewrite wrap_singleton in Hwrap. }
    unfold viewstate.wrap in Hwrap.
    destruct (size compiled) as [| [| k]] eqn:Hsize; [done | |].
    + destruct (map_to_list compiled) as [| [ρ [| one' [| ? ?]]] [| ? ?]];
        try done; injection Hwrap as Hwrap;
        by destruct (Hmulti n mi Hwrap).
    + injection Hwrap as Hwrap. by destruct (Hmulti n mi Hwrap).
  - by apply wrap_None in Hwrap.
Qed.

End CompilerResults.

(** ** Observers, callbacks and the accumulators of a run *)

Section ObserverRuns.
Context `{!attribute.Model} {I A W N : Type}.
Context `{!asyncstate.Views I A W N} `{!aggregator.Range N}.
Context `{!asyncstate.Accumulators A W}.
Implicit Types (w : asyncstate.World A W) (i : asyncstate.Instrument I).
Implicit Types (o : asyncstate.Observer I) (rc : asyncstate.readerCallback).

(** X15: a value outside the range of the instrument is not recorded.
    Inside a callback, Observe hands the error of the range test to the
    error handler (after the undeclared-instrument error, when the callback
    did not declare the instrument) and returns: no accumulator is looked
    up, created or updated. *)
Theorem X15_observe_does_not_record_a_rejected_value
    i rc (value : N) attrs w (err : string) :
  aggregator.RangeTest value (asyncstate.descriptor i) = Some err →
  asyncstate.Observe (asyncstate.NewObserver (Some i)) (Some rc) value attrs w
  = Ok {| asyncstate.views_state := asyncstate.views_state w;
          asyncstate.stores := asyncstate.stores w;
          asyncstate.handled :=
            asyncstate.handled w
            ++ (if decide (Some (asyncstate.addr i)
                           ∈ asyncstate.Callback_instruments rc)
                then [] else [asyncstate.notDeclared])
            ++ [err];
          asyncstate.next_addr := asyncstate.next_addr w |}.
Proof.
  intros Hrange. unfold asyncstate.Observe.
  cbn [asyncstate.inst asyncstate.NewObserver]. rewrite Hrange.
  case_decide; unfold asyncstate.Handle; cbn; [done |].
  by rewrite <- app_assoc.
Qed.

(** X16: within one run, an instrument has one accumulator per reader and
    attribute set.  The first Observe for an attribute set asks the compiled
    instrument for an accumulator and keeps it in the store of the reader;
    a second Observe for an attribute list that gives the same set finds it
    there and updates the same accumulator: the compiled instrument is asked
    once, and the updates arrive in the order of the calls. *)
Theorem X16_observe_twice_updates_one_accumulator
    i rc (v1 v2 : N) attrs1 attrs2 w
    (store : gmap attribute.Set_ A) (c : I) :
  Some (asyncstate.addr i) ∈ asyncstate.Callback_instruments rc →
  aggregator.RangeTest v1 (asyncstate.descriptor i) = None →
  aggregator.RangeTest v2 (asyncstate.descriptor i) = None →
  asyncstate.stores w !! (asyncstate.addr i, asyncstate.Config rc)
  = Some store →
  store !! attribute.NewSet attrs1 = None →
  asyncstate.compiled i = Some c →
  attribute.NewSet attrs2 = attribute.NewSet attrs1 →
  let o := asyncstate.NewObserver (Some i) in
  let '(se, vs) :=
    asyncstate.NewAccumulator c (attribute.NewSet attrs1)
      (asyncstate.Config rc) (asyncstate.views_state w) in
  bind (asyncstate.Observe o (Some rc) v1 attrs1 w)
    (asyncstate.Observe o (Some rc) v2 attrs2)
  = Ok {| asyncstate.views_state :=
            asyncstate.Update se v2 (asyncstate.Update se v1 vs);
          asyncstate.stores :=
            <[(asyncstate.addr i, asyncstate.Config rc) :=
                <[attribute.NewSet attrs1 := se]> store]>
              (asyncstate.stores w);
          asyncstate.handled := asyncstate.handled w;
          asyncstate.next_addr := asyncstate.next_addr w |}.
Proof.
  intros Hdeclared Hv1 Hv2 Hstore Hnew Hc Hset o. subst o.
  destruct (asyncstate.NewAccumulator c _ _ _) as [se vs] eqn:Hacc.
  unfold asyncstate.Observe. cbn [asyncstate.inst asyncstate.NewObserver].
  destruct (decide (Some (asyncstate.addr i) ∈ _)) as [_ | Hn]; [| done].
  rewrite Hv1, Hv2.
  unfold asyncstate.get at 1. rewrite Hstore, Hnew, Hc, Hacc.
  cbn [bind fst snd]. unfold asyncstate.get, asyncstate.update.
  cbn [asyncstate.stores asyncstate.views_state asyncstate.handled
       asyncstate.next_addr].
  rewrite lookup_insert_eq, Hset, lookup_insert_eq. done.
Qed.

(** X17: an Observe that returns changes the accumulator store of its own
    instrument and reader at most: the store of every other instrument and
    of every other reader is as before, nothing handled before is lost, and
    no instrument is created. *)
Theorem X17_observe_keeps_the_other_stores
    i rc (value : N) attrs w (k : nat * nat) :
  k ≠ (asyncstate.addr i, asyncstate.Config rc) →
  match asyncstate.Observe (asyncstate.NewObserver (Some i)) (Some rc)
          value attrs w with
  | Ok w' =>
      asyncstate.stores w' !! k = asyncstate.stores w !! k
      ∧ asyncstate.handled w `prefix_of` asyncstate.handled w'
      ∧ asyncstate.next_addr w' = asyncstate.next_addr w
  | Panic _ => True
  end.
Proof.
  intros Hk. unfold asyncstate.Observe.
  cbn [asyncstate.inst asyncstate.NewObserver].
  set (w1 := if decide _ then w else asyncstate.Handle asyncstate.notDeclared w).
  assert (Hw1 : asyncstate.stores w1 = asyncstate.stores w
                ∧ asyncstate.handled w `prefix_of` asyncstate.handled w1
                ∧ asyncstate.next_addr w1 = asyncstate.next_addr w).
  { subst w1. case_decide; [done |]. cbn. split; [done |].
    split; [| done]. by apply prefix_app_r. }
  destruct Hw1 as (Hstores & Hhandled & Hnext). clearbody w1.
  destruct (aggregator.RangeTest _ _) as [err |].
  - cbn. rewrite Hstores, Hnext. split; [done |]. split; [| done].
    by apply prefix_app_r.
  - unfold asyncstate.get.
    destruct (asyncstate.stores w1 !! _) as [store |]; [| done].
    destruct (store !! _) as [se |].
    + cbn. by rewrite Hstores, Hnext.
    + destruct (asyncstate.compiled i) as [c |]; [| done].
      destruct (asyncstate.NewAccumulator _ _ _ _) as [se vs]. cbn.
      rewrite lookup_insert_ne by done. by rewrite Hstores, Hnext.
Qed.


Lemma NewCallback_loop (insts : list (option (asyncstate.Observer I))) :
  ∀ (cb : option (asyncstate.Callback A W)),
    match
      foldl
        (λ cb inst,
           match cb, inst with
           | Some cb, Some ai =>
               Some {| asyncstate.function := asyncstate.function cb;
                       asyncstate.instruments :=
                         {[ asyncstate.addr <$> asyncstate.inst ai ]}
                         ∪ asyncstate.instruments cb |}
           | _, _ => None
           end)
        cb insts,
      cb
    with
    | Some cb', Some cb =>
        asyncstate.function cb' = asyncstate.function cb
        ∧ (None ∉ insts)
        ∧ ∀ a, a ∈ asyncstate.instruments cb'
               ↔ a ∈ asyncstate.instruments cb
                 ∨ ∃ ai, Some ai ∈ insts
                         ∧ a = asyncstate.addr <$> asyncstate.inst ai
    | None, Some _ => None ∈ insts
    | Some _, None => False
    | None, None => True
    end.
Proof.
  induction insts as [| o rest IH]; intros cb; cbn [foldl].
  - destruct cb as [cb |]; [| done].
    split; [done |]. split; [by intros Hin%elem_of_nil |].
    intros a. split; [by left |].
    intros [Ha | (ai & Hin & _)]; [done | by apply elem_of_nil in Hin].
  - destruct cb as [cb |], o as [ai |].
    + specialize (IH (Some {| asyncstate.function := asyncstate.function cb;
                              asyncstate.instruments :=
                                {[ asyncstate.addr <$> asyncstate.inst ai ]}
                                ∪ asyncstate.instruments cb |})).
      destruct (foldl _ _ rest) as [cb' |].
      * destruct IH as (Hfn & Hnone & Hinsts). cbn in Hfn, Hinsts.
        split; [done |]. split.
        { intros [Heq | Hin]%elem_of_cons; done. }
        intros a. rewrite Hinsts, elem_of_union, elem_of_singleton.
        split.
        -- intros [[-> | Ha] | (ai' & Hin & ->)].
           ++ right. exists ai. split; [apply list_elem_of_here | done].
           ++ by left.
           ++ right. exists ai'. split; [by apply list_elem_of_further | done].
        -- intros [Ha | (ai' & Hin & ->)]; [left; by right |].
           apply elem_of_cons in Hin as [[= ->] | Hin].
           ++ left. by left.
           ++ right. by exists ai'.
      * by apply list_elem_of_further.
    + specialize (IH None). destruct (foldl _ _ rest); [done |].
      apply list_elem_of_here.
    + specialize (IH None). by destruct (foldl _ _ rest).
    + specialize (IH None). by destruct (foldl _ _ rest).
Qed.

(** X19: [NewCallback] fails exactly when one of the instruments does not
    belong to this provider.  When it succeeds, the callback runs the given
    function and its declared instruments are exactly the instruments of
    the given observers. *)
Theorem X19_new_callback_declares_its_instruments
    (insts : list (option (asyncstate.Observer I)))
    (fn : asyncstate.Context_ → asyncstate.World A W
          → Result (asyncstate.World A W)) :
  match asyncstate.NewCallback insts fn with
  | Some cb =>
      (None ∉ insts)
      ∧ asyncstate.function cb = fn
      ∧ ∀ a, a ∈ asyncstate.instruments cb
             ↔ ∃ ai, Some ai ∈ insts
                     ∧ a = asyncstate.addr <$> asyncstate.inst ai
  | None => None ∈ insts
  end.
Proof.
  unfold asyncstate.NewCallback.
  pose proof (NewCallback_loop insts
                (Some {| asyncstate.function := fn;
                         asyncstate.instruments := ∅ |})) as Hloop.
  destruct (foldl _ _ insts) as [cb |]; [| done].
  destruct Hloop as (Hfn & Hnone & Hinsts). cbn in Hfn, Hinsts.
  split; [done |]. split; [done |].
  intros a. rewrite Hinsts. split.
  - intros [Ha | Ha]; [by apply elem_of_empty in Ha | done].
  - intros Ha. by right.
Qed.

(** X20: an instrument that was given to [NewCallback] is declared in every
    run of the callback.  When the function of the callback observes it,
    [Run] for a reader handles no undeclared-instrument error: the value is
    range-tested and recorded in the accumulator of that reader. *)
Theorem X20_run_observes_a_declared_instrument
    (insts : list (option (asyncstate.Observer I))) i
    (value : N) attrs (r : nat) w (cb : asyncstate.Callback A W) :
  Some (asyncstate.NewObserver (Some i)) ∈ insts →
  asyncstate.NewCallback insts
    (λ ctx, asyncstate.Observe (asyncstate.NewObserver (Some i)) ctx
              value attrs)
  = Some cb →
  asyncstate.Run cb r w
  = match aggregator.RangeTest value (asyncstate.descriptor i) with
    | Some err => Ok (asyncstate.Handle err w)
    | None =>
        bind (asyncstate.get i r attrs w)
          (λ p, Ok (asyncstate.update (fst p) value (snd p)))
    end.
Proof.
  intros Hin Hcb.
  pose proof (NewCallback_loop insts
                (Some {| asyncstate.function :=
                           λ ctx, asyncstate.Observe
                                    (asyncstate.NewObserver (Some i))
                                    ctx value attrs;
                         asyncstate.instruments := ∅ |})) as Hloop.
  unfold asyncstate.NewCallback in Hcb. rewrite Hcb in Hloop.
  destruct Hloop as (Hfn & _ & Hinsts). cbn in Hfn.
  unfold asyncstate.Run. rewrite Hfn.
  unfold asyncstate.Observe.
  cbn [asyncstate.inst asyncstate.NewObserver asyncstate.Callback_instruments
       asyncstate.Config].
  rewrite decide_True; [done |].
  apply Hinsts. right. by exists (asyncstate.NewObserver (Some i)).
Qed.

(** X21: an instrument created with a compiled view can be observed for
    every reader it was created with.  Inside a callback of such a reader
    that declared the instrument, the first Observe of an accepted value
    asks the compiled instrument for one accumulator, stores it under the
    attribute set in the reader's store, which was empty, updates it with
    the value, and handles no error. *)
Theorem X21_observe_on_a_new_instrument_with_a_view
    (desc : sdkinstrument.Descriptor) (c : I) (readers : list reader.Reader)
    (r : reader.Reader) (declared : gset (option nat))
    (value : N) attrs w :
  r ∈ readers →
  aggregator.RangeTest value desc = None →
  let '(i, w') := asyncstate.NewInstrument desc (Some c) readers w in
  let '(se, vs) :=
    asyncstate.NewAccumulator c (attribute.NewSet attrs) (reader.ptr r)
      (asyncstate.views_state w) in
  asyncstate.Observe (asyncstate.NewObserver (Some i))
    (Some {| asyncstate.Config := reader.ptr r;
             asyncstate.Callback_instruments :=
               {[Some (asyncstate.addr i)]} ∪ declared |})
    value attrs w'
  = Ok {| asyncstate.views_state := asyncstate.Update se value vs;
          asyncstate.stores :=
            <[(asyncstate.addr i, reader.ptr r) :=
                {[attribute.NewSet attrs := se]}]> (asyncstate.stores w');
          asyncstate.handled := asyncstate.handled w;
          asyncstate.next_addr := S (asyncstate.next_addr w) |}.
Proof.
  intros Hin Hrange.
  pose proof (NewInstrument_stores desc (Some c) readers w r Hin) as Hnew.
  destruct (asyncstate.NewInstrument desc (Some c) readers w) as [i w'] eqn:Hi.
  destruct Hnew as (Hc & Hdesc & Hstore).
  destruct (asyncstate.NewAccumulator c _ _ _) as [se vs] eqn:Hacc.
  assert (Hw' : asyncstate.views_state w' = asyncstate.views_state w
                ∧ asyncstate.handled w' = asyncstate.handled w
                ∧ asyncstate.next_addr w' = S (asyncstate.next_addr w)).
  { unfold asyncstate.NewInstrument in Hi. by simplify_eq. }
  destruct Hw' as (Hvs & Hhandled & Hnext).
  unfold asyncstate.Observe.
  cbn [asyncstate.inst asyncstate.NewObserver asyncstate.Callback_instruments
       asyncstate.Config].
  rewrite decide_True by (apply elem_of_union; left; by apply elem_of_singleton).
  rewrite Hdesc, Hrange. unfold asyncstate.get.
  rewrite Hstore, lookup_empty, Hc, Hvs, Hacc.
  cbn [bind fst snd]. unfold asyncstate.update. cbn.
  by rewrite Hhandled, Hnext, insert_empty.
Qed.

(** X22: [AccumulateFor] for a reader of the instrument flushes every
    accumulator of the reader's store once, in the order Go visits the
    map, and replaces the store by an empty one; the stores of the other
    readers and instruments and the handled errors are untouched. *)
Theorem X22_accumulate_for_flushes_and_empties_the_store
    (order : list (attribute.Set_ * A)) i (r : nat) w
    (store : gmap attribute.Set_ A) :
  asyncstate.stores w !! (asyncstate.addr i, r) = Some store →
  order ≡ₚ map_to_list store →
  ∃ w',
    asyncstate.AccumulateFor_in order i r w = Ok w'
    ∧ asyncstate.views_state w'
      = foldl (λ vs se, asyncstate.Accumulate se vs)
          (asyncstate.views_state w) order.*2
    ∧ length order = size store
    ∧ (∀ set se, (set, se) ∈ order ↔ store !! set = Some se)
    ∧ asyncstate.stores w' !! (asyncstate.addr i, r) = Some ∅
    ∧ (∀ k, k ≠ (asyncstate.addr i, r) →
            asyncstate.stores w' !! k = asyncstate.stores w !! k)
    ∧ asyncstate.handled w' = asyncstate.handled w
    ∧ asyncstate.next_addr w' = asyncstate.next_addr w.
Proof.
  intros Hstore Horder. unfold asyncstate.AccumulateFor_in. rewrite Hstore.
  eexists. split; [reflexivity |]. cbn. split; [| split; [| split]].
  - clear Horder. generalize (asyncstate.views_state w).
    induction order as [| [set se] rest IH]; intros vs; [done |].
    cbn. apply IH.
  - rewrite Horder. apply length_map_to_list.
  - intros set se. rewrite Horder. apply elem_of_map_to_list.
  - split; [apply lookup_insert_eq |]. split; [| done].
    intros k Hk. by rewrite lookup_insert_ne.
Qed.

(** X23: the accumulators of an instrument live for one run.  After
    [AccumulateFor] for a reader, the next Observe for that reader asks the
    compiled instrument for a new accumulator, also for an attribute set
    that had one before: the store then holds this accumulator only. *)
Theorem X23_observe_after_accumulate_for_asks_for_a_new_accumulator
    (order : list (attribute.Set_ * A)) i rc (value : N) attrs w
    (store : gmap attribute.Set_ A) (c : I) :
  asyncstate.stores w !! (asyncstate.addr i, asyncstate.Config rc)
  = Some store →
  asyncstate.compiled i = Some c →
  Some (asyncstate.addr i) ∈ asyncstate.Callback_instruments rc →
  aggregator.RangeTest value (asyncstate.descriptor i) = None →
  let flushed :=
    foldl (λ vs capt, asyncstate.Accumulate (snd capt) vs)
      (asyncstate.views_state w) order in
  let '(se, vs) :=
    asyncstate.NewAccumulator c (attribute.NewSet attrs)
      (asyncstate.Config rc) flushed in
  bind (asyncstate.AccumulateFor_in order i (asyncstate.Config rc) w)
    (asyncstate.Observe (asyncstate.NewObserver (Some i)) (Some rc)
       value attrs)
  = Ok {| asyncstate.views_state := asyncstate.Update se value vs;
          asyncstate.stores :=
            <[(asyncstate.addr i, asyncstate.Config rc) :=
                {[attribute.NewSet attrs := se]}]> (asyncstate.stores w);
          asyncstate.handled := asyncstate.handled w;
          asyncstate.next_addr := asyncstate.next_addr w |}.
Proof.
  intros Hstore Hc Hdeclared Hrange flushed.
  destruct (asyncstate.NewAccumulator c _ _ _) as [se vs] eqn:Hacc.
  unfold asyncstate.AccumulateFor_in. rewrite Hstore. cbn [bind].
  unfold asyncstate.Observe. cbn [asyncstate.inst asyncstate.NewObserver].
  rewrite decide_True by done. rewrite Hrange.
  unfold asyncstate.get.
  cbn [asyncstate.stores asyncstate.views_state asyncstate.handled
       asyncstate.next_addr].
  rewrite lookup_insert_eq, lookup_empty, Hc. fold flushed. rewrite Hacc.
  cbn [bind fst snd]. unfold asyncstate.update. cbn.
  by rewrite insert_insert_eq, insert_empty.
Qed.

End ObserverRuns.

(** ** Asynchronous instruments *)

Section AsyncInstruments.
Context `{!attribute.Model} `{!histogram.Model} {A W N : Type}.
Context `{!asyncstate.Views viewstate.Instrument A W N}.


End AsyncInstruments.

(** ** From an update to the output cell *)

Section Accumulation.
Context `{!attribute.Model} `{!histogram.Model}.
Context {N Storage : Type} `{!ZeroValue Storage} `{!number.Any N}.
Context `{!aggregator.Methods N Storage}.
Implicit Types (p : viewstate.baseMetric) (h : list Storage).

Lemma Update_sync_loop (updates : list N) :
  ∀ sc : viewstate.syncAccumulator Storage,
    viewstate.sc_output (foldl viewstate.Update_sync sc updates)
    = viewstate.sc_output sc
    ∧ viewstate.sc_snapshot (foldl viewstate.Update_sync sc updates)
      = viewstate.sc_snapshot sc
    ∧ viewstate.sc_current (foldl viewstate.Update_sync sc updates)
      = foldl aggregator.Update (viewstate.sc_current sc) updates.
Proof.
  induction updates as [| value rest IH]; intros sc; [done |].
  cbn [foldl]. destruct (IH (viewstate.Update_sync sc value))
    as (Hout & Hsnap & Hcur).
  by rewrite Hout, Hsnap, Hcur.
Qed.

Lemma Update_async_loop (updates : list N) :
  ∀ ac : viewstate.asyncAccumulator N Storage,
    viewstate.ac_output (foldl viewstate.Update_async ac updates)
    = viewstate.ac_output ac
    ∧ viewstate.ac_snapshot (foldl viewstate.Update_async ac updates)
      = viewstate.ac_snapshot ac
    ∧ viewstate.ac_current (foldl viewstate.Update_async ac updates)
      = default (viewstate.ac_current ac) (last updates).
Proof.
  induction updates as [| value rest IH]; intros ac; [done |].
  cbn [foldl]. destruct (IH (viewstate.Update_async ac value))
    as (Hout & Hsnap & Hcur).
  rewrite Hout, Hsnap, Hcur. split; [done |]. split; [done |].
  destruct rest as [| value' rest']; [reflexivity |].
  rewrite last_cons_cons.
  destruct (proj2 (last_is_Some (value' :: rest'))) as [x Hx]; [done |].
  by rewrite Hx.
Qed.

(** X25: a synchronous accumulator from its creation to its flush.  The
    accumulator starts from the initialised storage, every Update folds
    one value into its [current], and Accumulate moves [current] into
    [snapshot] and merges the snapshot into the output cell of the
    attribute set: the flush writes that one cell and no other, allocates
    nothing, keeps the cells of the view sound, and leaves the accumulator
    with the [current] that SynchronizedMove left and the same output. *)
Theorem X25_sync_accumulator_flushes_into_its_output_cell
    p h kvs (updates : list N) :
  viewstate.sync_sound p h →
  let '(sc, p1, h1) := viewstate.NewAccumulator_sync p h kvs in
  let sc' := foldl viewstate.Update_sync sc updates in
  let '(sc'', h2) := viewstate.Accumulate_sync sc' h1 in
  let moved :=
    aggregator.SynchronizedMove
      (foldl aggregator.Update
         (aggregator.Init zero_value (viewstate.acfg p)) updates)
      (aggregator.Init zero_value (viewstate.acfg p)) in
  viewstate.sync_sound p1 h2
  ∧ viewstate.data p1 !! attribute.NewSetWithFiltered kvs (viewstate.keys p)
    = Some (viewstate.sc_output sc)
  ∧ length h2 = length h1
  ∧ (∀ l, l ≠ viewstate.sc_output sc → load h2 l = load h1 l)
  ∧ load h2 (viewstate.sc_output sc)
    = snd (aggregator.Merge (snd moved) (load h1 (viewstate.sc_output sc)))
  ∧ viewstate.sc_current sc'' = fst moved
  ∧ viewstate.sc_output sc'' = viewstate.sc_output sc.
Proof.
  intros Hsound. pose proof (findOutput_sound p h kvs Hsound) as Hfind.
  unfold viewstate.NewAccumulator_sync.
  destruct (viewstate.findOutput p h kvs) as [[l p1] h1].
  destruct Hfind as (Hsound1 & Hl & _ & _ & _).
  assert (Hlt : l < length h1) by by eapply cells_sound_lt.
  cbv zeta.
  match goal with
  | |- context [foldl viewstate.Update_sync ?sc updates] =>
      destruct (Update_sync_loop updates sc) as (Hout & Hsnap & Hcur)
  end.
  cbn [viewstate.sc_output viewstate.sc_snapshot viewstate.sc_current]
    in Hout, Hsnap, Hcur.
  unfold viewstate.Accumulate_sync. rewrite Hout, Hsnap, Hcur.
  unfold viewstate.initStorage.
  destruct (aggregator.SynchronizedMove _ _) as [current snapshot].
  destruct (aggregator.Merge _ _) as [snapshot' output].
  cbn [fst snd viewstate.sc_output viewstate.sc_current].
  split; [by apply store_sound |]. split; [done |].
  split; [apply length_store |].
  split; [intros l' Hne; by apply load_store_ne |].
  split; [| done].
  by rewrite load_store_eq.
Qed.

(** X26: an asynchronous accumulator from its creation to its flush.  The
    accumulator starts with the value zero, every Update overwrites the
    value, so the last one stays, and Accumulate resets the snapshot,
    updates it with that value and merges it into the output cell of the
    attribute set: the flush writes that one cell and no other, allocates
    nothing and keeps the cells of the stateful process sound. *)
Theorem X26_async_accumulator_flushes_its_last_value
    (p : viewstate.statefulAsyncProcess) h kvs (updates : list N) :
  viewstate.async_sound p h →
  let '(ac, cav, h1) :=
    viewstate.NewAccumulator_async (viewstate.compiledAsyncInstrument p)
      h kvs in
  let ac' := foldl viewstate.Update_async ac updates in
  let '(_, h2) := viewstate.Accumulate_async ac' h1 in
  let observed :=
    aggregator.Update
      (aggregator.Reset
         (aggregator.Init zero_value
            (viewstate.acfg (viewstate.compiledAsyncInstrument p))))
      (default number.zero (last updates)) in
  viewstate.async_sound
    {| viewstate.compiledAsyncInstrument := cav;
       viewstate.prior := viewstate.prior p |} h2
  ∧ viewstate.data cav
      !! attribute.NewSetWithFiltered kvs
           (viewstate.keys (viewstate.compiledAsyncInstrument p))
    = Some (viewstate.ac_output ac)
  ∧ length h2 = length h1
  ∧ (∀ l, l ≠ viewstate.ac_output ac → load h2 l = load h1 l)
  ∧ load h2 (viewstate.ac_output ac)
    = snd (aggregator.Merge observed (load h1 (viewstate.ac_output ac))).
Proof.
  intros Hsound.
  pose proof (findOutput_async_sound p h kvs Hsound) as Hasync.
  pose proof (findOutput_sound (viewstate.compiledAsyncInstrument p) h kvs
                (proj1 Hsound)) as Hfind.
  unfold viewstate.NewAccumulator_async.
  destruct (viewstate.findOutput _ h kvs) as [[l cav] h1].
  destruct Hfind as (Hsound1 & Hl & _ & _ & _).
  assert (Hlt : l < length h1) by by eapply cells_sound_lt.
  cbv zeta.
  match goal with
  | |- context [foldl viewstate.Update_async ?ac updates] =>
      destruct (Update_async_loop updates ac) as (Hout & Hsnap & Hcur)
  end.
  cbn [viewstate.ac_output viewstate.ac_snapshot viewstate.ac_current]
    in Hout, Hsnap, Hcur.
  unfold viewstate.Accumulate_async. rewrite Hout, Hsnap, Hcur.
  unfold viewstate.initStorage.
  destruct (aggregator.Merge _ _) as [snapshot' output].
  cbn [fst snd viewstate.ac_output].
  split.
  { destruct Hasync as (Hdata & Hprior & Hdisjoint).
    split; [by apply store_sound |]. split; [by apply store_sound | done]. }
  split; [done |]. split; [apply length_store |].
  split; [intros l' Hne; by apply load_store_ne |].
  by rewrite load_store_eq.
Qed.

End Accumulation.

(** ** The further properties at the scenarios *)

Section RuntimeWitnesses.
#[local] Existing Instance scenario.attributes.
#[local] Existing Instance scenario.no_histogram.
#[local] Existing Instance scenario.int64_zero.
#[local] Existing Instance scenario.int64_any.
#[local] Existing Instance scenario.sum_Methods.

(** X1 at a view that keeps the key [a] only: the attribute lists
    [{a:1, b:2}] and [{b:3, a:1}] give the set [{a:1}], and the two
    accumulators share one cell. *)
Lemma X1_witness :
  attribute.NewSetWithFiltered scenario.attrs_a1_b3
    (viewstate.keys scenario.filtered_metric)
  = attribute.NewSetWithFiltered scenario.attrs_a1_b2
      (viewstate.keys scenario.filtered_metric)
  ∧ (let '(sc, p1, h1) :=
       viewstate.NewAccumulator_sync scenario.filtered_metric ([] : list Z)
         scenario.attrs_a1_b2 in
     let '(sc', p2, h2) :=
       viewstate.NewAccumulator_sync p1 h1 scenario.attrs_a1_b3 in
     viewstate.sc_output sc' = viewstate.sc_output sc ∧ p2 = p1 ∧ h2 = h1).
Proof.
  assert (Hset :
    attribute.NewSetWithFiltered scenario.attrs_a1_b3
      (viewstate.keys scenario.filtered_metric)
    = attribute.NewSetWithFiltered scenario.attrs_a1_b2
        (viewstate.keys scenario.filtered_metric)).
  { vm_compute. reflexivity. }
  split; [exact Hset |].
  exact (proj1 (X1_accumulators_of_one_attribute_set_share_the_cell
                  scenario.filtered_metric ([] : list Z)
                  scenario.attrs_a1_b2 scenario.attrs_a1_b3 Hset)).
Defined.

(** X2 at seed scenario 2 after the three updates: [findOutput] for the new
    attribute set [{a:1, b:2}] allocates the second cell, holding 0, and the
    cell of [{a:1}] keeps its 12. *)
Lemma X2_witness :
  viewstate.sync_sound
    (scenario.delta_sync_metric scenario.sum_Methods)
    (scenario.delta_sync_heap scenario.sum_Methods)
  ∧ (let '(l, p', h') :=
       viewstate.findOutput
         (scenario.delta_sync_metric scenario.sum_Methods)
         (scenario.delta_sync_heap scenario.sum_Methods)
         scenario.attrs_a1_b2 in
     viewstate.sync_sound p' h' ∧ l = 1 ∧ h' = [12%Z; 0%Z]
     ∧ load h' 0 = 12%Z).
Proof.
  split; [exact delta_sync_accumulated_sound |].
  pose proof (X2_findOutput_allocates_at_most_one_cell
                (scenario.delta_sync_metric scenario.sum_Methods)
                (scenario.delta_sync_heap scenario.sum_Methods)
                scenario.attrs_a1_b2 delta_sync_accumulated_sound) as Hc.
  cbv zeta in Hc.
  destruct (viewstate.findOutput _ _ _) as [[l p'] h'].
  destruct Hc as (Hsound & _ & _ & Hframe & _ & _ & _ & Hnew).
  assert (Hold : load h' 0 = 12%Z).
  { rewrite Hframe; vm_compute; [reflexivity | lia]. }
  vm_compute in Hnew. destruct Hnew as [Hl Hh'].
  split; [exact Hsound |]. split; [exact Hl |]. split; [exact Hh' |].
  exact Hold.
Defined.

(** X3 at seed scenario 2 after the three updates, read as cumulative: one
    series for [{a:1}]. *)
Lemma X3_witness :
  map_to_list (viewstate.data (scenario.delta_sync_metric scenario.sum_Methods))
  ≡ₚ map_to_list (viewstate.data (scenario.delta_sync_metric scenario.sum_Methods))
  ∧ ∃ series,
      viewstate.statefulSyncProcess_Collect_in
        (map_to_list
           (viewstate.data (scenario.delta_sync_metric scenario.sum_Methods)))
        (scenario.delta_sync_metric scenario.sum_Methods) scenario.seq1 []
      = [ {| reader.Instrument_Descriptor := scenario.counter;
             reader.Temporality := aggregation.CumulativeTemporality;
             reader.Instrument_Series := series |} ]
      ∧ length series = 1.
Proof.
  split; [reflexivity |].
  destruct (X3_cumulative_sync_collect_lists_every_cell
              (map_to_list
                 (viewstate.data
                    (scenario.delta_sync_metric scenario.sum_Methods)))
              (scenario.delta_sync_metric scenario.sum_Methods)
              scenario.seq1 [] (reflexivity _))
    as (series & Heq & Hlen & _).
  exists series. split.
  - rewrite Heq. vm_compute. reflexivity.
  - rewrite Hlen. vm_compute. reflexivity.
Defined.

(** X4 at seed scenario 4 before its second collection, read as
    cumulative: one series for [{a:1}], and no data afterwards. *)
Lemma X4_witness :
  map_to_list
    (viewstate.data
       (viewstate.compiledAsyncInstrument
          (scenario.delta_async_process scenario.sum_Methods)))
  ≡ₚ map_to_list
       (viewstate.data
          (viewstate.compiledAsyncInstrument
             (scenario.delta_async_process scenario.sum_Methods)))
  ∧ ∃ series,
      viewstate.statelessAsyncProcess_Collect_in
        (map_to_list
           (viewstate.data
              (viewstate.compiledAsyncInstrument
                 (scenario.delta_async_process scenario.sum_Methods))))
        (viewstate.compiledAsyncInstrument
           (scenario.delta_async_process scenario.sum_Methods))
        scenario.seq2 []
      = (scenario.metric_of scenario.counter_observer,
         [ {| reader.Instrument_Descriptor := scenario.counter_observer;
              reader.Temporality := aggregation.CumulativeTemporality;
              reader.Instrument_Series := series |} ])
      ∧ length series = 1.
Proof.
  split; [reflexivity |].
  destruct (X4_cumulative_async_collect_lists_and_forgets
              (map_to_list
                 (viewstate.data
                    (viewstate.compiledAsyncInstrument
                       (scenario.delta_async_process scenario.sum_Methods))))
              (viewstate.compiledAsyncInstrument
                 (scenario.delta_async_process scenario.sum_Methods))
              scenario.seq2 [] (reflexivity _))
    as (series & Heq & Hlen & _).
  exists series. split.
  - rewrite Heq. vm_compute. reflexivity.
  - rewrite Hlen. vm_compute. reflexivity.
Defined.

(** X5 at seed scenario 2, first collection: the cells stay sound and one
    delta instrument is appended. *)
Lemma X5_witness :
  viewstate.sync_sound
    (scenario.delta_sync_metric scenario.sum_Methods)
    (scenario.delta_sync_heap scenario.sum_Methods)
  ∧ (let '(p', h', output') :=
       viewstate.statelessSyncProcess_Collect
         (scenario.delta_sync_metric scenario.sum_Methods)
         (scenario.delta_sync_heap scenario.sum_Methods) scenario.seq1 [] in
     viewstate.sync_sound p' h'
     ∧ ∃ series,
         output'
         = [ {| reader.Instrument_Descriptor := scenario.counter;
                reader.Temporality := aggregation.DeltaTemporality;
                reader.Instrument_Series := series |} ]
         ∧ ∃ s, s ∈ series ∧ reader.Attributes s = scenario.set_a1).
Proof.
  split; [exact delta_sync_accumulated_sound |].
  pose proof (X5_delta_sync_collect_series_are_the_cells_with_data
                (scenario.delta_sync_metric scenario.sum_Methods)
                (scenario.delta_sync_heap scenario.sum_Methods)
                scenario.seq1 []
                (map_to_list
                   (viewstate.data
                      (scenario.delta_sync_metric scenario.sum_Methods)))
                delta_sync_accumulated_sound (reflexivity _)) as Hc.
  unfold viewstate.statelessSyncProcess_Collect.
  destruct (viewstate.statelessSyncProcess_Collect_in _ _ _ _ _)
    as [[p' h'] output'].
  destruct Hc as (Hsound & series & Heq & Hdata & _).
  split; [exact Hsound |]. exists series. split.
  - rewrite Heq. vm_compute. reflexivity.
  - apply (Hdata scenario.set_a1 0 delta_sync_accumulated_cell).
    vm_compute. reflexivity.
Defined.

Lemma idle_sync_data :
  viewstate.data scenario.idle_sync_metric = {[scenario.set_a1 := 0]}.
Proof. vm_compute. reflexivity. Qed.

Lemma idle_sync_no_data (set : attribute.Set_) (l : loc) :
  viewstate.data scenario.idle_sync_metric !! set = Some l →
  aggregator.HasData (load scenario.idle_sync_heap l) = false.
Proof.
  rewrite idle_sync_data. intros [_ <-]%lookup_singleton_Some.
  vm_compute. reflexivity.
Qed.

(** X6 at a view in which [{a:1}] was bound and never updated: the
    collection emits no series and removes the attribute set. *)
Lemma X6_witness :
  (∀ set l,
     viewstate.data scenario.idle_sync_metric !! set = Some l →
     aggregator.HasData (load scenario.idle_sync_heap l) = false)
  ∧ viewstate.statelessSyncProcess_Collect
      scenario.idle_sync_metric scenario.idle_sync_heap scenario.seq1 []
    = (scenario.metric_of scenario.counter, [0%Z],
       [ {| reader.Instrument_Descriptor := scenario.counter;
            reader.Temporality := aggregation.DeltaTemporality;
            reader.Instrument_Series := [] |} ]).
Proof.
  split; [exact idle_sync_no_data |].
  unfold viewstate.statelessSyncProcess_Collect.
  rewrite (X6_delta_sync_collect_without_data_empties_the_view
             scenario.idle_sync_metric scenario.idle_sync_heap scenario.seq1 []
             (map_to_list (viewstate.data scenario.idle_sync_metric))
             (reflexivity _) idle_sync_no_data).
  vm_compute. reflexivity.
Defined.

Lemma delta_async_collected_data :
  viewstate.data
    (viewstate.compiledAsyncInstrument (fst scenario.delta_async_collected))
  = ∅.
Proof. vm_compute. reflexivity. Qed.

(** X7 at seed scenario 4 after its first collection, when the callback
    observes nothing: the next collection emits no series and the prior
    value of [{a:1}] is gone. *)
Lemma X7_witness :
  viewstate.data
    (viewstate.compiledAsyncInstrument (fst scenario.delta_async_collected))
  = ∅
  ∧ viewstate.statefulAsyncProcess_Collect
      (fst scenario.delta_async_collected)
      (snd scenario.delta_async_collected) scenario.seq2 []
    = ({| viewstate.compiledAsyncInstrument :=
            scenario.metric_of scenario.counter_observer;
          viewstate.prior := ∅ |},
       [100%Z],
       [ {| reader.Instrument_Descriptor := scenario.counter_observer;
            reader.Temporality := aggregation.DeltaTemporality;
            reader.Instrument_Series := [] |} ]).
Proof.
  split; [exact delta_async_collected_data |].
  unfold viewstate.statefulAsyncProcess_Collect.
  rewrite (X7_delta_async_collect_without_observation_forgets_prior
             (fst scenario.delta_async_collected)
             (snd scenario.delta_async_collected) scenario.seq2 []
             (map_to_list
                (viewstate.data
                   (viewstate.compiledAsyncInstrument
                      (fst scenario.delta_async_collected))))
             delta_async_collected_data (reflexivity _)).
  vm_compute. reflexivity.
Defined.

End RuntimeWitnesses.

Section CompilerWitnesses.
#[local] Existing Instance scenario.attributes.
#[local] Existing Instance scenario.no_histogram.



Lemma sum_compiler_views :
  default []
    (viewstate.cs_compiled
       (viewstate.compileViews scenario.sum_compiler scenario.counter)
     !! reader.ptr scenario.delta_reader)
  = [viewstate.buildViewFor scenario.counter_behavior].
Proof. vm_compute. reflexivity. Qed.

(** X11 at the compiler with one delta reader and the sum view: the view
    built for the counter is an int64 view of a synchronous process. *)
Lemma X11_witness :
  length (viewstate.names scenario.sum_compiler)
  = length (viewstate.readers scenario.sum_compiler)
  ∧ viewstate.buildViewFor scenario.counter_behavior
    ∈ default []
        (viewstate.cs_compiled
           (viewstate.compileViews scenario.sum_compiler scenario.counter)
         !! reader.ptr scenario.delta_reader)
  ∧ viewstate.view_number (viewstate.buildViewFor scenario.counter_behavior)
    = number.Int64Kind
  ∧ viewstate.data
      (viewstate.processMetric
         (viewstate.view_process
            (viewstate.buildViewFor scenario.counter_behavior)))
    = ∅.
Proof.
  assert (Hin : viewstate.buildViewFor scenario.counter_behavior
                ∈ default []
                    (viewstate.cs_compiled
                       (viewstate.compileViews scenario.sum_compiler
                          scenario.counter)
                     !! reader.ptr scenario.delta_reader)).
  { rewrite sum_compiler_views. apply list_elem_of_here. }
  split; [exact sum_compiler_length |]. split; [exact Hin |].
  pose proof (X11_compiled_views_follow_the_instrument
                scenario.sum_compiler scenario.counter
                (reader.ptr scenario.delta_reader)
                (viewstate.buildViewFor scenario.counter_behavior)
                sum_compiler_length Hin) as Hc.
  cbv zeta in Hc. destruct Hc as (_ & Hnumber & _ & _ & _ & Hdata & _).
  split; [exact Hnumber | exact Hdata].
Defined.

(** X12 at the compiler with one delta reader and no view: the counter
    gets the single view of its default behavior. *)
Lemma X12_witness :
  viewstate.matching scenario.delta_compiler scenario.counter = []
  ∧ viewstate.readers scenario.delta_compiler = [scenario.delta_reader]
  ∧ viewstate.names scenario.delta_compiler = [∅]
  ∧ fst (fst (viewstate.Compile scenario.delta_compiler scenario.counter))
    = Some (viewstate.single
              (viewstate.buildViewFor scenario.counter_behavior)).
Proof.
  split; [reflexivity |]. split; [reflexivity |]. split; [reflexivity |].
  pose proof (X12_compile_without_view_for_one_reader
                scenario.delta_compiler scenario.counter
                scenario.delta_reader ∅ eq_refl eq_refl eq_refl) as Hc.
  cbv zeta in Hc. rewrite Hc. vm_compute. reflexivity.
Defined.

(** X13 at the compiler with one delta reader and the sum view: the second
    [Compile] for the counter gives the nil instrument and one error. *)
Lemma X13_witness :
  length (viewstate.names scenario.sum_compiler)
  = length (viewstate.readers scenario.sum_compiler)
  ∧ (let v' :=
       snd (fst (viewstate.Compile scenario.sum_compiler scenario.counter)) in
     fst (fst (viewstate.Compile v' scenario.counter)) = None
     ∧ snd (viewstate.Compile v' scenario.counter)
       = [viewstate.duplicateViewName]).
Proof.
  split; [exact sum_compiler_length |].
  pose proof (X13_compiling_an_instrument_again_builds_nothing
                scenario.sum_compiler scenario.counter sum_compiler_length)
    as Hc.
  cbv zeta in Hc |- *. rewrite Hc. split; [reflexivity |].
  vm_compute. reflexivity.
Defined.

End CompilerWitnesses.

Section ObserverWitnesses.
#[local] Existing Instance scenario.attributes.
#[local] Existing Instance scenario.no_histogram.
#[local] Existing Instance scenario.int64_Range.
#[local] Existing Instance scenario.async_Views.
#[local] Existing Instance scenario.async_Accumulators.

Lemma bytes_declared :
  Some (asyncstate.addr scenario.bytes_instrument)
  ∈ asyncstate.Callback_instruments
      (scenario.callback_context scenario.delta_reader [0]).
Proof. vm_compute. reflexivity. Qed.

Lemma bytes_store :
  asyncstate.stores scenario.bytes_world
    !! (asyncstate.addr scenario.bytes_instrument,
        asyncstate.Config
          (scenario.callback_context scenario.delta_reader [0]))
  = Some ∅.
Proof. vm_compute. reflexivity. Qed.

(** X15 at the counter observer: Observe(-1, {a:1}) in a callback that
    declared it hands the range error to the handler and records
    nothing. *)
Lemma X15_witness :
  aggregator.RangeTest (-1)%Z
    (asyncstate.descriptor scenario.bytes_instrument)
  = Some "negative value on a counter"
  ∧ ∃ w',
      asyncstate.Observe (asyncstate.NewObserver (Some scenario.bytes_instrument))
        (Some (scenario.callback_context scenario.delta_reader [0]))
        (-1)%Z scenario.attrs_a1 scenario.bytes_world
      = Ok w'
      ∧ asyncstate.stores w' = asyncstate.stores scenario.bytes_world
      ∧ asyncstate.views_state w'
        = asyncstate.views_state scenario.bytes_world
      ∧ asyncstate.handled w' = ["negative value on a counter"].
Proof.
  split; [reflexivity |].
  eexists. split.
  - exact (X15_observe_does_not_record_a_rejected_value
             scenario.bytes_instrument
             (scenario.callback_context scenario.delta_reader [0])
             (-1)%Z scenario.attrs_a1 scenario.bytes_world
             "negative value on a counter" eq_refl).
  - cbn [asyncstate.stores asyncstate.views_state asyncstate.handled].
    split; [reflexivity |]. split; [reflexivity |].
    vm_compute. reflexivity.
Defined.

(** X16 at the counter observer: Observe(100, {a:1}) and then
    Observe(140, {a:0, a:1}) in one callback run leave one accumulator,
    which holds 140. *)
Lemma X16_witness :
  attribute.NewSet [("a", 0%Z); ("a", 1%Z)]
  = attribute.NewSet scenario.attrs_a1
  ∧ ∃ w',
      bind
        (asyncstate.Observe
           (asyncstate.NewObserver (Some scenario.bytes_instrument))
           (Some (scenario.callback_context scenario.delta_reader [0]))
           100%Z scenario.attrs_a1 scenario.bytes_world)
        (asyncstate.Observe
           (asyncstate.NewObserver (Some scenario.bytes_instrument))
           (Some (scenario.callback_context scenario.delta_reader [0]))
           140%Z [("a", 0%Z); ("a", 1%Z)])
      = Ok w'
      ∧ viewstate.ac_current
          <$> scenario.av_accumulators (asyncstate.views_state w')
        = [140%Z].
Proof.
  assert (Hset : attribute.NewSet [("a", 0%Z); ("a", 1%Z)]
                 = attribute.NewSet scenario.attrs_a1).
  { vm_compute. reflexivity. }
  split; [exact Hset |].
  pose proof (X16_observe_twice_updates_one_accumulator
                scenario.bytes_instrument
                (scenario.callback_context scenario.delta_reader [0])
                100%Z 140%Z scenario.attrs_a1 [("a", 0%Z); ("a", 1%Z)]
                scenario.bytes_world ∅ scenario.bytes_view
                bytes_declared eq_refl eq_refl bytes_store
                (lookup_empty _) eq_refl Hset) as Hc.
  cbv zeta in Hc.
  destruct (asyncstate.NewAccumulator _ _ _ _) as [se vs] eqn:Hacc.
  eexists. split; [exact Hc |].
  cbn [asyncstate.views_state].
  vm_compute in Hacc. injection Hacc as <- <-.
  vm_compute. reflexivity.
Defined.

(** X17 at the counter observer: an Observe for the delta reader leaves
    the key of another reader without a store, as before. *)
Lemma X17_witness :
  (0, 2) ≠ (asyncstate.addr scenario.bytes_instrument,
            asyncstate.Config
              (scenario.callback_context scenario.delta_reader [0]))
  ∧ match
      asyncstate.Observe
        (asyncstate.NewObserver (Some scenario.bytes_instrument))
        (Some (scenario.callback_context scenario.delta_reader [0]))
        100%Z scenario.attrs_a1 scenario.bytes_world
    with
    | Ok w' =>
        asyncstate.stores w' !! (0, 2)
        = asyncstate.stores scenario.bytes_world !! (0, 2)
        ∧ asyncstate.handled scenario.bytes_world
          `prefix_of` asyncstate.handled w'
        ∧ asyncstate.next_addr w' = asyncstate.next_addr scenario.bytes_world
    | Panic _ => True
    end.
Proof.
  assert (Hk : (0, 2) ≠ (asyncstate.addr scenario.bytes_instrument,
                         asyncstate.Config
                           (scenario.callback_context
                              scenario.delta_reader [0]))).
  { vm_compute. intros [=]. }
  split; [exact Hk |].
  exact (X17_observe_keeps_the_other_stores
           scenario.bytes_instrument
           (scenario.callback_context scenario.delta_reader [0])
           100%Z scenario.attrs_a1 scenario.bytes_world (0, 2) Hk).
Defined.




(** X20 at the counter observer: a callback made for it that observes
    5 on [{a:1}], run for the delta reader, records the value and handles
    no error. *)
Lemma X20_witness :
  asyncstate.NewCallback
    [Some (asyncstate.NewObserver (Some scenario.bytes_instrument))]
    (λ ctx : option asyncstate.readerCallback,
       asyncstate.Observe
         (asyncstate.NewObserver (Some scenario.bytes_instrument))
         ctx 5%Z
         (scenario.attrs_a1 : list (@attribute.KeyValue scenario.attributes)))
  = Some
      {| asyncstate.function :=
           λ ctx : option asyncstate.readerCallback,
             asyncstate.Observe
               (asyncstate.NewObserver (Some scenario.bytes_instrument))
               ctx 5%Z
               (scenario.attrs_a1
                : list (@attribute.KeyValue scenario.attributes));
         asyncstate.instruments :=
           {[Some (asyncstate.addr scenario.bytes_instrument)]} ∪ ∅ |}
  ∧ match
      asyncstate.Run
        {| asyncstate.function :=
             λ ctx : option asyncstate.readerCallback,
               asyncstate.Observe
                 (asyncstate.NewObserver (Some scenario.bytes_instrument))
                 ctx 5%Z
                 (scenario.attrs_a1
                  : list (@attribute.KeyValue scenario.attributes));
           asyncstate.instruments :=
             {[Some (asyncstate.addr scenario.bytes_instrument)]} ∪ ∅ |}
        (reader.ptr scenario.delta_reader) scenario.bytes_world
    with
    | Ok w' => asyncstate.handled w' = []
    | Panic _ => False
    end.
Proof.
  split; [reflexivity |].
  match goal with
  | |- context [asyncstate.Run ?cb _ _] =>
      rewrite (X20_run_observes_a_declared_instrument
                 [Some (asyncstate.NewObserver
                          (Some scenario.bytes_instrument))]
                 scenario.bytes_instrument 5%Z
                 (scenario.attrs_a1
                  : list (@attribute.KeyValue scenario.attributes))
                 (reader.ptr scenario.delta_reader) scenario.bytes_world cb
                 (list_elem_of_here _ _) eq_refl)
  end.
  vm_compute. reflexivity.
Defined.

(** X21 at the counter observer as [NewInstrument] creates it: the first
    Observe(5, {a:1}) for the delta reader returns without an error. *)
Lemma X21_witness :
  scenario.delta_reader ∈ [scenario.delta_reader]
  ∧ aggregator.RangeTest 5%Z scenario.counter_observer = None
  ∧ (let '(i, w') :=
       asyncstate.NewInstrument scenario.counter_observer
         (Some scenario.bytes_view) [scenario.delta_reader]
         (scenario.world0 scenario.counter_observer) in
     ∃ w'',
       asyncstate.Observe (asyncstate.NewObserver (Some i))
         (Some {| asyncstate.Config := reader.ptr scenario.delta_reader;
                  asyncstate.Callback_instruments :=
                    {[Some (asyncstate.addr i)]} ∪ ∅ |})
         5%Z scenario.attrs_a1 w'
       = Ok w''
       ∧ asyncstate.handled w'' = []).
Proof.
  split; [apply list_elem_of_here |]. split; [reflexivity |].
  pose proof (X21_observe_on_a_new_instrument_with_a_view
                scenario.counter_observer scenario.bytes_view
                [scenario.delta_reader] scenario.delta_reader ∅
                5%Z scenario.attrs_a1
                (scenario.world0 scenario.counter_observer)
                (list_elem_of_here _ _) eq_refl) as Hc.
  destruct (asyncstate.NewInstrument _ _ _ _) as [i w'].
  destruct (asyncstate.NewAccumulator _ _ _ _) as [se vs].
  eexists. split; [exact Hc |]. reflexivity.
Defined.

Lemma bytes_observed_store :
  asyncstate.stores scenario.bytes_observed
    !! (asyncstate.addr scenario.bytes_instrument,
        asyncstate.Config
          (scenario.callback_context scenario.delta_reader [0]))
  = Some {[scenario.set_a1 := 0]}.
Proof. vm_compute. reflexivity. Qed.

(** X22 at the counter observer after Observe(100, {a:1}): [AccumulateFor]
    for the delta reader flushes the accumulator and leaves an empty
    store. *)
Lemma X22_witness :
  asyncstate.stores scenario.bytes_observed
    !! (asyncstate.addr scenario.bytes_instrument,
        asyncstate.Config
          (scenario.callback_context scenario.delta_reader [0]))
  = Some {[scenario.set_a1 := 0]}
  ∧ ∃ w',
      asyncstate.AccumulateFor_in
        (map_to_list ({[scenario.set_a1 := 0]} : gmap attribute.Set_ nat))
        scenario.bytes_instrument
        (asyncstate.Config
           (scenario.callback_context scenario.delta_reader [0]))
        scenario.bytes_observed
      = Ok w'
      ∧ asyncstate.stores w'
          !! (asyncstate.addr scenario.bytes_instrument,
              asyncstate.Config
                (scenario.callback_context scenario.delta_reader [0]))
        = Some ∅
      ∧ scenario.av_heap (asyncstate.views_state w') = [100%Z].
Proof.
  split; [exact bytes_observed_store |].
  destruct (X22_accumulate_for_flushes_and_empties_the_store
              (map_to_list
                 ({[scenario.set_a1 := 0]} : gmap attribute.Set_ nat))
              scenario.bytes_instrument
              (asyncstate.Config
                 (scenario.callback_context scenario.delta_reader [0]))
              scenario.bytes_observed {[scenario.set_a1 := 0]}
              bytes_observed_store (reflexivity _))
    as (w' & Heq & Hvs & _ & _ & Hstore & _).
  exists w'. split; [exact Heq |]. split; [exact Hstore |].
  rewrite Hvs. vm_compute. reflexivity.
Defined.

(** X23 at the counter observer after Observe(100, {a:1}) and
    [AccumulateFor]: Observe(140, {a:1}) in the next run gets a second
    accumulator. *)
Lemma X23_witness :
  asyncstate.stores scenario.bytes_observed
    !! (asyncstate.addr scenario.bytes_instrument,
        asyncstate.Config
          (scenario.callback_context scenario.delta_reader [0]))
  = Some {[scenario.set_a1 := 0]}
  ∧ ∃ w',
      bind
        (asyncstate.AccumulateFor_in
           (map_to_list ({[scenario.set_a1 := 0]} : gmap attribute.Set_ nat))
           scenario.bytes_instrument
           (asyncstate.Config
              (scenario.callback_context scenario.delta_reader [0]))
           scenario.bytes_observed)
        (asyncstate.Observe
           (asyncstate.NewObserver (Some scenario.bytes_instrument))
           (Some (scenario.callback_context scenario.delta_reader [0]))
           140%Z scenario.attrs_a1)
      = Ok w'
      ∧ viewstate.ac_current
          <$> scenario.av_accumulators (asyncstate.views_state w')
        = [100%Z; 140%Z].
Proof.
  split; [exact bytes_observed_store |].
  pose proof (X23_observe_after_accumulate_for_asks_for_a_new_accumulator
                (map_to_list
                   ({[scenario.set_a1 := 0]} : gmap attribute.Set_ nat))
                scenario.bytes_instrument
                (scenario.callback_context scenario.delta_reader [0])
                140%Z scenario.attrs_a1 scenario.bytes_observed
                {[scenario.set_a1 := 0]} scenario.bytes_view
                bytes_observed_store eq_refl bytes_declared eq_refl) as Hc.
  cbv zeta in Hc.
  destruct (asyncstate.NewAccumulator _ _ _ _) as [se vs] eqn:Hacc.
  eexists. split; [exact Hc |].
  cbn [asyncstate.views_state].
  vm_compute in Hacc. injection Hacc as <- <-.
  vm_compute. reflexivity.
Defined.

End ObserverWitnesses.

Section AsyncInstrumentWitnesses.
#[local] Existing Instance scenario.attributes.
#[local] Existing Instance scenario.no_histogram.
#[local] Existing Instance scenario.async_Views.


End AsyncInstrumentWitnesses.

Section AccumulationWitnesses.
#[local] Existing Instance scenario.attributes.
#[local] Existing Instance scenario.no_histogram.
#[local] Existing Instance scenario.int64_zero.
#[local] Existing Instance scenario.int64_any.
#[local] Existing Instance scenario.sum_Methods.

Lemma counter_metric_sound :
  viewstate.sync_sound (scenario.metric_of scenario.counter) ([] : list Z).
Proof. apply cells_sound_empty. Qed.

(** X25 at seed scenario 2: the updates +3, +4, +5 on [{a:1}] and the
    flush leave 12 in the output cell. *)
Lemma X25_witness :
  viewstate.sync_sound (scenario.metric_of scenario.counter) ([] : list Z)
  ∧ (let '(sc, p1, h1) :=
       viewstate.NewAccumulator_sync (scenario.metric_of scenario.counter)
         ([] : list Z) scenario.attrs_a1 in
     let '(_, h2) :=
       viewstate.Accumulate_sync
         (foldl viewstate.Update_sync sc [3%Z; 4%Z; 5%Z]) h1 in
     load h2 (viewstate.sc_output sc) = 12%Z).
Proof.
  split; [exact counter_metric_sound |].
  pose proof (X25_sync_accumulator_flushes_into_its_output_cell
                (scenario.metric_of scenario.counter) ([] : list Z)
                scenario.attrs_a1 [3%Z; 4%Z; 5%Z] counter_metric_sound) as Hc.
  assert (Hnew :
    viewstate.sc_output
      (fst (fst (viewstate.NewAccumulator_sync
                   (scenario.metric_of scenario.counter) ([] : list Z)
                   scenario.attrs_a1))) = 0
    ∧ snd (viewstate.NewAccumulator_sync
             (scenario.metric_of scenario.counter) ([] : list Z)
             scenario.attrs_a1) = [0%Z]).
  { vm_compute. split; reflexivity. }
  destruct (viewstate.NewAccumulator_sync _ _ _) as [[sc p1] h1].
  cbv zeta in Hc. cbn [fst snd] in Hnew. destruct Hnew as [Hsc Hh1].
  destruct (viewstate.Accumulate_sync _ _) as [sc'' h2].
  destruct Hc as (_ & _ & _ & _ & Hload & _).
  rewrite Hload, Hsc, Hh1. vm_compute. reflexivity.
Defined.

Lemma observer_process_sound :
  viewstate.async_sound
    {| viewstate.compiledAsyncInstrument :=
         scenario.metric_of scenario.counter_observer;
       viewstate.prior := ∅ |}
    ([] : list Z).
Proof.
  split; [apply cells_sound_empty |]. split; [apply cells_sound_empty |].
  cbn [viewstate.compiledAsyncInstrument scenario.metric_of viewstate.data].
  rewrite cells_empty. constructor.
Qed.

(** X26 at seed scenario 4: the observations 100 and then 140 on [{a:1}]
    in one run and the flush leave 140 in the output cell. *)
Lemma X26_witness :
  viewstate.async_sound
    {| viewstate.compiledAsyncInstrument :=
         scenario.metric_of scenario.counter_observer;
       viewstate.prior := ∅ |}
    ([] : list Z)
  ∧ (let '(ac, _, h1) :=
       viewstate.NewAccumulator_async
         (scenario.metric_of scenario.counter_observer) ([] : list Z)
         scenario.attrs_a1 in
     let '(_, h2) :=
       viewstate.Accumulate_async
         (foldl viewstate.Update_async ac [100%Z; 140%Z]) h1 in
     load h2 (viewstate.ac_output ac) = 140%Z).
Proof.
  split; [exact observer_process_sound |].
  pose proof (X26_async_accumulator_flushes_its_last_value
                {| viewstate.compiledAsyncInstrument :=
                     scenario.metric_of scenario.counter_observer;
                   viewstate.prior := ∅ |}
                ([] : list Z) scenario.attrs_a1 [100%Z; 140%Z]
                observer_process_sound) as Hc.
  cbn [viewstate.compiledAsyncInstrument] in Hc.
  assert (Hnew :
    viewstate.ac_output
      (fst (fst (viewstate.NewAccumulator_async
                   (scenario.metric_of scenario.counter_observer)
                   ([] : list Z) scenario.attrs_a1))) = 0
    ∧ snd (viewstate.NewAccumulator_async
             (scenario.metric_of scenario.counter_observer) ([] : list Z)
             scenario.attrs_a1) = [0%Z]).
  { vm_compute. split; reflexivity. }
  destruct (viewstate.NewAccumulator_async _ _ _) as [[ac cav] h1].
  cbv zeta in Hc. cbn [fst snd] in Hnew. destruct Hnew as [Hac Hh1].
  destruct (viewstate.Accumulate_async _ _) as [ac'' h2].
  destruct Hc as (_ & _ & _ & _ & Hload).
  rewrite Hload, Hac, Hh1. vm_compute. reflexivity.
Defined.

End AccumulationWitnesses.
